(** * statsimpact: scope enforcement, per-atelier export, objective roll-up

    A shallow embedding of [app/statsimpact/routes.py] and of the names
    and rows built by [app/activite/services/docx_utils.py].  SQL queries are
    list comprehensions over explicit tables, Python sets and dicts are
    stdpp's [gset] and [gmap], the database and the file system are
    passed explicitly, and [date.today()] is an argument.

    Strings are sequences of ASCII characters; a byte above 127 is an
    opaque character that is neither a space nor a digit. *)

From Stdlib Require Import ZArith Ascii String DecimalString Floats Uint63.
From stdpp Require Import strings list sorting gmap.

Open Scope string_scope.
Open Scope list_scope.
Open Scope Z_scope.

(** ** Python strings *)

(** [str.isspace] on the ASCII range: TAB..CR, FS..US and the space. *)
Definition py_isspace (c : ascii) : bool :=
  let n := N_of_ascii c in
  ((9 <=? n) && (n <=? 13) || (28 <=? n) && (n <=? 32))%N.

Fixpoint lstrip (s : string) : string :=
  match s with
  | EmptyString => EmptyString
  | String c s' => if py_isspace c then lstrip s' else s
  end.

Fixpoint rstrip (s : string) : string :=
  match s with
  | EmptyString => EmptyString
  | String c s' =>
      match rstrip s' with
      | EmptyString => if py_isspace c then EmptyString else String c EmptyString
      | r => String c r
      end
  end.

(** [s.strip()] *)
Definition strip (s : string) : string := rstrip (lstrip s).

(** Truth value of a [str]. *)
Definition str_truthy (s : string) : bool := negb (String.eqb s "").

(** Truth value of a [str | None]. *)
Definition opt_truthy (o : option string) : bool :=
  match o with Some s => str_truthy s | None => false end.

(** [s or None] *)
Definition or_None (s : string) : option string :=
  if str_truthy s then Some s else None.

(** [o or ""] *)
Definition or_empty (o : option string) : string :=
  match o with Some s => if str_truthy s then s else "" | None => "" end.

(** [str(o)] inside an f-string. *)
Definition py_str (o : option string) : string := default "None" o.

(** ** Dates *)

Record date := mkdate { year : Z; month : Z; day : Z }.

Global Instance date_eq_dec : EqDecision date.
Proof. solve_decision. Defined.

Definition date_leb (a b : date) : bool :=
  (year a <? year b)
  || ((year a =? year b)
      && ((month a <? month b) || ((month a =? month b) && (day a <=? day b)))).

Definition date_min (a b : date) : date := if date_leb a b then a else b.

(** One decimal digit. *)
Definition digit (n : Z) : string :=
  String (ascii_of_N (Z.to_N (48 + n mod 10))) EmptyString.

Definition fmt02 (n : Z) : string := digit (n / 10) +:+ digit n.

Definition fmt04 (n : Z) : string :=
  digit (n / 1000) +:+ digit (n / 100) +:+ digit (n / 10) +:+ digit n.

(** [d.strftime("%d/%m/%Y")], years written on four digits. *)
Definition strftime_dmY (d : date) : string :=
  fmt02 (day d) +:+ "/" +:+ fmt02 (month d) +:+ "/" +:+ fmt04 (year d).

(** ** ORDER BY: a stable insertion sort *)

Section order_by.
Context {A : Type} (le : A → A → bool).

Fixpoint insert_sorted (x : A) (l : list A) : list A :=
    match l with
    | [] => [x]
    | y :: l' => if le x y then x :: l else y :: insert_sorted x l'
    end.

Definition order_by (l : list A) : list A := foldr insert_sorted [] l.
End order_by.

(** Lexicographic order on a pair of keys. *)
Definition lex_leb {A B} (ltA eqA : A → A → bool) (leB : B → B → bool)
    (a : A * B) (b : A * B) : bool :=
  ltA a.1 b.1 || (eqA a.1 b.1 && leB a.2 b.2).

(** NULL sorts first, as in SQLite; the order of the rows is the only
    thing that depends on it. *)
Definition opt_ltb {A} (lt : A → A → bool) (a b : option A) : bool :=
  match a, b with
  | None, Some _ => true
  | Some x, Some y => lt x y
  | _, _ => false
  end.

Definition opt_leb {A} (le : A → A → bool) (a b : option A) : bool :=
  match a, b with
  | None, _ => true
  | Some x, Some y => le x y
  | Some _, None => false
  end.

Definition opt_eqb {A} `{EqDecision A} (a b : option A) : bool :=
  bool_decide (a = b).

Definition date_ltb (a b : date) : bool := date_leb a b && negb (date_leb b a).

(** ** The tables read by the routes *)

(** Modelled from the spec: the classes of [app.models], which are not
    among the sources; each has the columns that the routes read, and a
    nullable column is an [option]. *)

Module AtelierActivite.
Record t := mk {
    id : Z;
    secteur : option string;
    nom : option string;
    is_deleted : bool }.
Global Instance AtelierActivite_eq_dec : EqDecision t.
Proof. solve_decision. Defined.
End AtelierActivite.

Module SessionActivite.
Record t := mk {
    id : Z;
    atelier_id : option Z;
    secteur : option string;
    rdv_date : option date;
    date_session : option date }.
Global Instance SessionActivite_eq_dec : EqDecision t.
Proof. solve_decision. Defined.
End SessionActivite.

Module PresenceActivite.
Record t := mk {
    id : Z;
    participant_id : option Z;
    session_id : option Z;
    signature_path : option string }.
Global Instance PresenceActivite_eq_dec : EqDecision t.
Proof. solve_decision. Defined.
End PresenceActivite.

Module Participant.
Record t := mk {
    id : Z;
    nom : option string;
    prenom : option string }.
Global Instance Participant_eq_dec : EqDecision t.
Proof. solve_decision. Defined.
End Participant.

Module Evaluation.
Record t := mk {
    id : Z;
    participant_id : option Z;
    competence_id : option Z;
    session_id : option Z;
    etat : option Z }.
Global Instance Evaluation_eq_dec : EqDecision t.
Proof. solve_decision. Defined.
End Evaluation.

Module Competence.
Record t := mk { id : Z; code : string; nom : string }.
Global Instance Competence_eq_dec : EqDecision t.
Proof. solve_decision. Defined.
End Competence.

(** [db.session]: the rows of every table, in storage order. *)
Record DB := mkDB {
  ateliers : list AtelierActivite.t;
  sessions : list SessionActivite.t;
  presences : list PresenceActivite.t;
  participants : list Participant.t;
  evaluations : list Evaluation.t }.

(** ** Callers and filters *)

(** [current_user] together with the permission predicate [can] of
    [app.rbac]. *)
Record User := mkUser {
  secteur_assigne : option string;
  can : string → bool }.

(** Modelled from the spec: the filter object returned by
    [engine.normalize_filters]; only the attributes read by the routes. *)
Record Filters := mkFilters {
  secteur : option string;
  date_from : option date;
  date_to : option date }.


(** [(getattr(current_user, "secteur_assigne", None) or "").strip()] *)
Definition user_secteur (u : User) : string :=
  strip (or_empty (secteur_assigne u)).


(** The [eff_secteur] of [_build_magato_per_atelier_workbook]. *)
Definition eff_secteur (flt : Filters) (u : User) : option string :=
  if negb (can u "scope:all_secteurs") then
    if str_truthy (user_secteur u) then Some (user_secteur u) else secteur flt
  else secteur flt.

(** ** Spreadsheets *)

Inductive cell := CNone | CStr (s : string) | CInt (n : Z).

Global Instance cell_eq_dec : EqDecision cell.
Proof. solve_decision. Defined.

Definition cell_of (o : option string) : cell :=
  match o with Some s => CStr s | None => CNone end.

(** A worksheet: its title and the rows appended to it.  Column widths
    and the renaming of duplicate titles by openpyxl are left out. *)
Record Sheet := mkSheet { title : string; rows : list (list cell) }.

Record Workbook := mkWorkbook { ws0 : Sheet; sheets : list Sheet }.

Fixpoint string_filter (f : ascii → bool) (s : string) : string :=
  match s with
  | EmptyString => EmptyString
  | String c s' => if f c then String c (string_filter f s') else string_filter f s'
  end.

Definition bad_chars : list ascii := ["["; "]"; ":"; "*"; "?"; "/"; "\"]%char.

Definition _safe_sheet_title (name fallback : string) : string :=
  let name := if str_truthy name then name else fallback in
  let cleaned := strip (string_filter (λ c, bool_decide (c ∉ bad_chars)) name) in
  if str_truthy cleaned then String.substring 0 31 cleaned else fallback.

(** ** The per-atelier export *)

(** [func.coalesce(SessionActivite.rdv_date, SessionActivite.date_session)],
    also [s.rdv_date or s.date_session]. *)
Definition session_date (s : SessionActivite.t) : option date :=
  match SessionActivite.rdv_date s with
  | Some d => Some d
  | None => SessionActivite.date_session s
  end.

(** SQL comparisons: a NULL operand never satisfies the filter. *)
Definition sql_ge (a : option date) (b : date) : bool :=
  match a with Some d => date_leb b d | None => false end.

Definition sql_le (a : option date) (b : date) : bool :=
  match a with Some d => date_leb d b | None => false end.

Definition sql_eq {A} `{EqDecision A} (a : option A) (b : A) : bool :=
  bool_decide (a = Some b).

Definition sql_in (a : option Z) (l : list Z) : bool :=
  match a with Some v => bool_decide (v ∈ l) | None => false end.

Definition str_ltb (a b : string) : bool := String.ltb a b.
Definition str_leb (a b : string) : bool := String.leb a b.

Definition atelier_leb (a b : AtelierActivite.t) : bool :=
  lex_leb (opt_ltb str_ltb) opt_eqb (opt_leb str_leb)
    (AtelierActivite.secteur a, AtelierActivite.nom a)
    (AtelierActivite.secteur b, AtelierActivite.nom b).

Definition session_leb (a b : SessionActivite.t) : bool :=
  lex_leb (opt_ltb date_ltb) opt_eqb Z.leb
    (session_date a, SessionActivite.id a)
    (session_date b, SessionActivite.id b).

Definition part_leb (a b : Z * option string * option string) : bool :=
  lex_leb (opt_ltb str_ltb) opt_eqb (opt_leb str_leb) (a.1.2, a.2) (b.1.2, b.2).

(** The filter on [AtelierActivite]: not soft-deleted and, when the
    effective sector is a non-empty string, of that sector. *)
Definition atelier_in_scope (eff : option string) (a : AtelierActivite.t) : bool :=
  negb (AtelierActivite.is_deleted a)
  && match eff with
     | Some e => if str_truthy e then sql_eq (AtelierActivite.secteur a) e else true
     | None => true
     end.

Definition ateliers_in_scope (eff : option string) (db : DB)
    : list AtelierActivite.t :=
  order_by atelier_leb (filter (λ a, atelier_in_scope eff a) (ateliers db)).

(** The inclusive date filter; an absent bound does not constrain. *)
Definition in_period (flt : Filters) (s : SessionActivite.t) : bool :=
  match date_from flt with
  | Some d => sql_ge (session_date s) d | None => true end
  && match date_to flt with
     | Some d => sql_le (session_date s) d | None => true end.

(** The sessions of an atelier whose date lies in the filtered period. *)
Definition sessions_in_period (flt : Filters) (db : DB) (at_ : AtelierActivite.t)
    : list SessionActivite.t :=
  order_by session_leb
    (filter (λ s : SessionActivite.t,
               sql_eq (SessionActivite.atelier_id s) (AtelierActivite.id at_)
               && in_period flt s)
            (sessions db)).

(** The presences recorded for one of the sessions [session_ids]. *)
Definition presences_in (session_ids : list Z) (db : DB) : list PresenceActivite.t :=
  filter (λ pr : PresenceActivite.t,
            sql_in (PresenceActivite.session_id pr) session_ids)
         (presences db).

(** The [(participant_id, session_id)] pairs of those presences. *)
Definition pres_rows_of (session_ids : list Z) (db : DB)
    : list (option Z * option Z) :=
  (λ pr, (PresenceActivite.participant_id pr, PresenceActivite.session_id pr))
    <$> presences_in session_ids db.

(** [sorted({int(pid) for (pid, _) in pres_rows if pid is not None})] *)
Definition pid_set_of (pres_rows : list (option Z * option Z)) : list Z :=
  order_by Z.leb (elements (list_to_set (omap fst pres_rows) : gset Z)).

Definition parts_of (pid_set : list Z) (db : DB)
    : list (Z * option string * option string) :=
  order_by part_leb
    ((λ p, (Participant.id p, Participant.nom p, Participant.prenom p))
       <$> filter (λ p : Participant.t, bool_decide (Participant.id p ∈ pid_set))
                  (participants db)).

(** PresenceActivite JOIN SessionActivite, restricted to [session_ids]. *)
Definition joined (session_ids : list Z) (db : DB)
    : list (PresenceActivite.t * SessionActivite.t) :=
  pr ← presences_in session_ids db;
  s ← filter (λ s : SessionActivite.t,
                sql_eq (PresenceActivite.session_id pr) (SessionActivite.id s))
             (sessions db);
  [(pr, s)].

Definition min_dates (l : list date) : option date :=
  match l with
  | [] => None
  | d :: l' => Some (foldr date_min d l')
  end.

(** The grouped query: one row [(pid, nb, first)] per participant_id. *)
Definition counts_of (session_ids : list Z) (db : DB)
    : list (option Z * Z * option date) :=
  let j := joined session_ids db in
  (λ pid,
     let g := filter (λ r : PresenceActivite.t * SessionActivite.t,
                        bool_decide (PresenceActivite.participant_id r.1 = pid)) j in
     (pid, Z.of_nat (length g), min_dates (omap (λ r, session_date r.2) g)))
    <$> remove_dups ((λ r, PresenceActivite.participant_id r.1) <$> j).

(** The dict [c_map]: pid -> (nb, first); a later row replaces an earlier one. *)
Definition c_map_of (counts : list (option Z * Z * option date))
    : gmap Z (Z * option date) :=
  foldl (λ m r,
           match r.1.1 with
           | Some pid => <[pid := (r.1.2, r.2)]> m
           | None => m
           end) ∅ counts.

Definition nb_of (c_map : gmap Z (Z * option date)) (pid : Z) : Z :=
  match c_map !! pid with Some e => e.1 | None => 0 end.

Definition first_of (c_map : gmap Z (Z * option date)) (pid : Z) : option date :=
  c_map !! pid ≫= snd.

(** The test that increments [recurring]. *)
Definition is_recurring (c_map : gmap Z (Z * option date)) (pid : Z) : bool :=
  2 <=? nb_of c_map pid.

(** The test that increments [new_count]. *)
Definition is_new (flt : Filters) (c_map : gmap Z (Z * option date)) (pid : Z) : bool :=
  match first_of c_map pid, date_from flt, date_to flt with
  | Some fd, Some df, Some dt => date_leb df fd && date_leb fd dt
  | _, _, _ => false
  end.

(** The loop over [pid_set]: [(new_count, recurring)]. *)
Definition kpi (flt : Filters) (c_map : gmap Z (Z * option date)) (pid_set : list Z)
    : Z * Z :=
  foldl (λ acc pid,
           (if is_new flt c_map pid then acc.1 + 1 else acc.1,
            if is_recurring c_map pid then acc.2 + 1 else acc.2))
        (0, 0) pid_set.

(** [{int(s.id): idx for idx, s in enumerate(sessions)}] *)
Definition sid_index_of (sessions : list SessionActivite.t) : gmap Z nat :=
  foldl (λ m e, <[SessionActivite.id e.2 := e.1]> m) ∅ (imap pair sessions).

Definition both_some (r : option Z * option Z) : option (Z * Z) :=
  match r with (Some p, Some s) => Some (p, s) | _ => None end.

Definition present_of (pres_rows : list (option Z * option Z)) : gset (Z * Z) :=
  list_to_set (omap both_some pres_rows).

Definition matrix_row (nb_sessions : nat) (sid_index : gmap Z nat)
    (present : gset (Z * Z)) (part : Z * option string * option string)
    : list cell :=
  let row := [CStr (or_empty part.1.2); CStr (or_empty part.2)]
               ++ replicate nb_sessions (CStr "") in
  foldl (λ row e,
           if bool_decide ((part.1.1, e.1) ∈ present)
           then <[(2 + e.2)%nat := CStr "1"]> row else row)
        row (map_to_list sid_index).

Definition headers_of (sessions : list SessionActivite.t) : list cell :=
  [CStr "Nom"; CStr "Prénom"]
    ++ ((λ s, CStr match session_date s with
                   | Some d => strftime_dmY d
                   | None => "Sans date"
                   end) <$> sessions).

Definition sheet_title_row (at_ : AtelierActivite.t) : list cell :=
  [CStr (py_str (AtelierActivite.secteur at_) +:+ " — "
           +:+ py_str (AtelierActivite.nom at_))].

(** One iteration of the loop over the ateliers: the row appended to the
    synthesis and the sheet created, if any. *)
Definition process_atelier (flt : Filters) (db : DB) (at_ : AtelierActivite.t)
    : list cell * option Sheet :=
  let secteur := cell_of (AtelierActivite.secteur at_) in
  let nom := cell_of (AtelierActivite.nom at_) in
  let sessions := sessions_in_period flt db at_ in
  match sessions with
  | [] => ([secteur; nom; CInt 0; CInt 0; CInt 0; CInt 0; CInt 0], None)
  | _ :: _ =>
      let session_ids := SessionActivite.id <$> sessions in
      let pres_rows := pres_rows_of session_ids db in
      let sheet_name := _safe_sheet_title (py_str (AtelierActivite.nom at_)) "Atelier" in
      match pres_rows with
      | [] =>
          ([secteur; nom; CInt (Z.of_nat (length sessions));
            CInt 0; CInt 0; CInt 0; CInt 0],
           Some {| title := sheet_name;
                   rows := [sheet_title_row at_; headers_of sessions] |})
      | _ :: _ =>
          let pid_set := pid_set_of pres_rows in
          let parts := parts_of pid_set db in
          let c_map := c_map_of (counts_of session_ids db) in
          let k := kpi flt c_map pid_set in
          ([secteur; nom; CInt (Z.of_nat (length sessions));
            CInt (Z.of_nat (length pres_rows)); CInt (Z.of_nat (length pid_set));
            CInt k.1; CInt k.2],
           Some {| title := sheet_name;
                   rows := [sheet_title_row at_; headers_of sessions]
                             ++ (matrix_row (length sessions) (sid_index_of sessions)
                                   (present_of pres_rows) <$> parts) |})
      end
  end.

Definition synthese_header : list (list cell) :=
  [[CStr "Export annuel : 1 feuille par atelier"];
   [CStr "Secteur"; CStr "Atelier"; CStr "Nb sessions"; CStr "Nb présences";
    CStr "Participants uniques"; CStr "Nouveaux"; CStr "Récurrents"]].

Definition _build_magato_per_atelier_workbook (flt : Filters) (u : User) (db : DB)
    : Workbook :=
  let results := process_atelier flt db <$> ateliers_in_scope (eff_secteur flt u) db in
  {| ws0 := {| title := "Synthese"; rows := synthese_header ++ results.*1 |};
     sheets := omap snd results |}.

(** The participants that get a row in the sheet of an atelier. *)
Definition atelier_parts (flt : Filters) (db : DB) (at_ : AtelierActivite.t)
    : list (Z * option string * option string) :=
  parts_of
    (pid_set_of (pres_rows_of (SessionActivite.id <$> sessions_in_period flt db at_) db))
    db.

(** *** New and recurring participants, in the spec's words *)

(** The presences of a participant in the sessions of an atelier, over
    all their history. *)
Definition history (db : DB) (at_ : AtelierActivite.t) (pid : Z)
    : list (PresenceActivite.t * SessionActivite.t) :=
  pr ← filter (λ pr : PresenceActivite.t,
                 sql_eq (PresenceActivite.participant_id pr) pid)
              (presences db);
  s ← filter (λ s : SessionActivite.t,
                sql_eq (PresenceActivite.session_id pr) (SessionActivite.id s)
                && sql_eq (SessionActivite.atelier_id s) (AtelierActivite.id at_))
             (sessions db);
  [(pr, s)].

(** Recurring: the total presence count for the atelier is at least 2. *)
Definition spec_recurring (db : DB) (at_ : AtelierActivite.t) (pid : Z) : bool :=
  (2 <=? length (history db at_ pid))%nat.

(** New: the first-ever presence date for the atelier lies in the
    filtered range, an absent bound being unconstrained. *)
Definition spec_new (flt : Filters) (db : DB) (at_ : AtelierActivite.t) (pid : Z)
    : bool :=
  match min_dates (omap (λ r, session_date r.2) (history db at_ pid)) with
  | Some fd =>
      match date_from flt with Some df => date_leb df fd | None => true end
      && match date_to flt with Some dt => date_leb fd dt | None => true end
  | None => false
  end.

(** ** Objective roll-up *)

Module Objectif.
#[warnings="-register-all"] Inductive t := mk {
    type : string;
    session_id : option Z;
    competences : list Competence.t;
    seuil_validation : option float;
    enfants : list t }.
End Objectif.

(** The dict returned by [_participants_success_rate]. *)
Record Stats := mkStats { st_total : Z; st_success : Z; st_ratio : float }.

(** The dict returned by [_objective_success]. *)
Record Result := mkResult {
  ratio : float; validated : bool; total : Z; success : Z }.

(** Python's [int] to [float]; exact for the counts below 2^53. *)
Definition float_of_Z (z : Z) : float := PrimFloat.of_uint63 (Uint63.of_Z z).

(** [(a / b * 100) if b else 0] *)
Definition percent (a b : Z) : float :=
  if b =? 0 then 0%float
  else (float_of_Z a / float_of_Z b * 100)%float.

(** [ratio >= (seuil or 0)] *)
Definition reaches (r : float) (seuil : option float) : bool :=
  PrimFloat.leb (default 0%float seuil) r.

Definition sql_ge_Z (a : option Z) (b : Z) : bool :=
  match a with Some v => b <=? v | None => false end.

(** The rows counted for one presence: the validated evaluations of its
    participant in the session, on one of the competences. *)
Definition validated_evals (db : DB) (session_id : Z) (comp_ids : list Z)
    (pr : PresenceActivite.t) : list Evaluation.t :=
  remove_dups
    (filter (λ e : Evaluation.t,
               sql_eq (Evaluation.session_id e) session_id
               && bool_decide (Evaluation.participant_id e
                               = PresenceActivite.participant_id pr)
               && sql_in (Evaluation.competence_id e) comp_ids
               && sql_ge_Z (Evaluation.etat e) 2)
            (evaluations db)).

Definition session_presences (db : DB) (session_id : Z) : list PresenceActivite.t :=
  filter (λ pr : PresenceActivite.t,
            sql_eq (PresenceActivite.session_id pr) session_id)
         (presences db).

Definition _participants_success_rate (db : DB) (session_id : Z)
    (competences : list Competence.t) : Stats :=
  match competences with
  | [] => mkStats 0 0 0
  | _ :: _ =>
      let presences := session_presences db session_id in
      let total := Z.of_nat (length presences) in
      if total =? 0 then mkStats 0 0 0
      else
        let comp_ids := Competence.id <$> competences in
        let success_count :=
          foldl (λ n pr,
                   if bool_decide (length (validated_evals db session_id comp_ids pr)
                                   = length comp_ids)
                   then n + 1 else n)
                0 presences in
        mkStats total success_count (percent success_count total)
  end.

(** [obj.type == "operationnel" and obj.session_id] *)
Definition operational_session (obj : Objectif.t) : option Z :=
  if String.eqb (Objectif.type obj) "operationnel" then
    match Objectif.session_id obj with
    | Some sid => if sid =? 0 then None else Some sid
    | None => None
    end
  else None.

Fixpoint _objective_success (db : DB) (obj : Objectif.t) {struct obj} : Result :=
  match operational_session obj with
  | Some sid =>
      let stats := _participants_success_rate db sid (Objectif.competences obj) in
      mkResult (st_ratio stats)
               (reaches (st_ratio stats) (Objectif.seuil_validation obj))
               (st_total stats) (st_success stats)
  | None =>
      match obj with
      | Objectif.mk _ _ _ seuil enfants =>
          match enfants with
          | [] => mkResult 0 false 0 0
          | _ :: _ =>
              let results := _objective_success db <$> enfants in
              let total := Z.of_nat (length results) in
              let success :=
                Z.of_nat (length (filter (λ r, validated r = true) results)) in
              let ratio := percent success total in
              mkResult ratio (reaches ratio seuil) total success
          end
      end
  end.

(** *** Success of a participant, in the spec's words *)

(** A validated evaluation of a participant in a session for a
    competence: state at least 2. *)
Definition is_validated_eval (session_id : Z) (participant_id : option Z)
    (comp_id : Z) (e : Evaluation.t) : bool :=
  sql_eq (Evaluation.session_id e) session_id
  && bool_decide (Evaluation.participant_id e = participant_id)
  && sql_eq (Evaluation.competence_id e) comp_id
  && sql_ge_Z (Evaluation.etat e) 2.

Definition has_validated (db : DB) (session_id : Z) (participant_id : option Z)
    (comp_id : Z) : bool :=
  existsb (is_validated_eval session_id participant_id comp_id) (evaluations db).

(** The participant of a presence has a validated evaluation for every
    competence of the set. *)
Definition validates_all (db : DB) (session_id : Z) (competences : list Competence.t)
    (pr : PresenceActivite.t) : bool :=
  forallb (λ c, has_validated db session_id (PresenceActivite.participant_id pr)
                  (Competence.id c))
          competences.

(** The presences of the session whose participant validates every
    competence. *)
Definition spec_success (db : DB) (session_id : Z) (competences : list Competence.t)
    : Z :=
  Z.of_nat (length (filter (λ pr, validates_all db session_id competences pr)
                           (session_presences db session_id))).

(** No validated competence of a participant in the session is recorded
    by two evaluation rows. *)
Definition one_row_per_validation (db : DB) (session_id : Z) : Prop :=
  ∀ e1 e2, e1 ∈ evaluations db → e2 ∈ evaluations db →
    Evaluation.session_id e1 = Some session_id →
    Evaluation.session_id e2 = Some session_id →
    Evaluation.participant_id e1 = Evaluation.participant_id e2 →
    Evaluation.competence_id e1 = Evaluation.competence_id e2 →
    sql_ge_Z (Evaluation.etat e1) 2 = true →
    sql_ge_Z (Evaluation.etat e2) 2 = true →
    e1 = e2.

(** ** Parsing the size caps *)

Inductive exn := ValueError.

Inductive result (A : Type) := Ok (a : A) | Raise (e : exn).
Arguments Ok {A} a.
Arguments Raise {A} e.

Global Instance result_ret : MRet result := λ A a, Ok a.
Global Instance result_bind : MBind result := λ A B f r,
  match r with Ok a => f a | Raise e => Raise e end.

(** [try: r  except Exception: handler] *)
Definition try_except {A} (r : result A) (handler : result A) : result A :=
  match r with Ok a => Ok a | Raise _ => handler end.

(** The spaces skipped by [int]: TAB..CR and the space. *)
Definition c_isspace (c : ascii) : bool :=
  let n := N_of_ascii c in ((9 <=? n) && (n <=? 13) || (n =? 32))%N.

Fixpoint lskip (s : string) : string :=
  match s with
  | EmptyString => EmptyString
  | String c s' => if c_isspace c then lskip s' else s
  end.

Fixpoint rskip (s : string) : string :=
  match s with
  | EmptyString => EmptyString
  | String c s' =>
      match rskip s' with
      | EmptyString => if c_isspace c then EmptyString else String c EmptyString
      | r => String c r
      end
  end.

Definition digit_of (c : ascii) : option Z :=
  let n := N_of_ascii c in
  if ((48 <=? n) && (n <=? 57))%N then Some (Z.of_N n - 48) else None.

(** Digits with single underscores between them; [prev_us] tells that
    the previous character was an underscore.  Returns the value and the
    number of digits read. *)
Fixpoint parse_digits (acc : Z) (nd : nat) (prev_us : bool) (s : string)
    : option (Z * nat) :=
  match s with
  | EmptyString => if prev_us then None else Some (acc, nd)
  | String c s' =>
      if Ascii.eqb c "_" then
        if prev_us then None else parse_digits acc nd true s'
      else
        match digit_of c with
        | Some d => parse_digits (10 * acc + d) (S nd) false s'
        | None => None
        end
  end.

(** The default limit on the number of digits [int] accepts. *)
Definition max_str_digits : nat := 4300.

Definition parse_unsigned (s : string) : result Z :=
  match s with
  | EmptyString => Raise ValueError
  | String c s' =>
      match digit_of c with
      | None => Raise ValueError
      | Some d =>
          match parse_digits d 1 false s' with
          | Some (v, nd) =>
              if bool_decide (nd ≤ max_str_digits)%nat then Ok v else Raise ValueError
          | None => Raise ValueError
          end
      end
  end.

(** [int(s)] for a [str] in base ten. *)
Definition py_int (s : string) : result Z :=
  match rskip (lskip s) with
  | String "+" s' => parse_unsigned s'
  | String "-" s' => v ← parse_unsigned s'; Ok (- v)
  | s' => parse_unsigned s'
  end.

(** [int(request.args.get(key) or dflt)] *)
Definition int_arg (raw : option string) (dflt : Z) : result Z :=
  match raw with
  | Some s => if str_truthy s then py_int s else Ok dflt
  | None => Ok dflt
  end.

(** [max(lo, min(v, hi))] *)
Definition clamp (lo hi v : Z) : Z := Z.max lo (Z.min v hi).

(** The caps computed by [magatomatique_export] from the raw query
    arguments [max_sessions] and [max_participants]. *)
Definition export_caps (raw_sessions raw_participants : option string)
    : result (Z * Z) :=
  max_sessions ← try_except (int_arg raw_sessions 40) (Ok 40);
  max_participants ← try_except (int_arg raw_participants 250) (Ok 250);
  Ok (clamp 5 400 max_sessions, clamp 20 5000 max_participants).

(** The caps computed by [dashboard] for the Magatomatique tab. *)
Definition dashboard_caps (raw_sessions raw_participants : option string)
    : result (Z * Z) :=
  max_sessions ← try_except (int_arg raw_sessions 40) (Ok 40);
  max_participants ← try_except (int_arg raw_participants 250) (Ok 250);
  Ok (clamp 5 200 max_sessions, clamp 20 1000 max_participants).

(** ** The dashboard *)

(** The default period of [dashboard]: the current year when the filter
    has neither bound.  A [date] is always true in Python, so the tests
    are on [None]. *)
Definition dashboard_filters (today : date) (flt : Filters) : Filters :=
  match date_from flt, date_to flt with
  | None, None =>
      {| secteur := secteur flt;
         date_from := Some (mkdate (year today) 1 1);
         date_to := Some (mkdate (year today) 12 31) |}
  | _, _ => flt
  end.

(** [s.lower()] on the ASCII letters. *)
Definition lower_char (c : ascii) : ascii :=
  let n := N_of_ascii c in
  if ((65 <=? n) && (n <=? 90))%N then ascii_of_N (n + 32) else c.

Fixpoint py_lower (s : string) : string :=
  match s with
  | EmptyString => EmptyString
  | String c s' => String (lower_char c) (py_lower s')
  end.

Definition _can_view (u : User) : bool :=
  can u "statsimpact:view" || can u "statsimpact:view_all".

(** What a view function gives back: a served value, or [abort(code)]. *)
Inductive http (A : Type) := Served (a : A) | Aborted (code : Z).
Arguments Served {A} a.
Arguments Aborted {A} code.

(** [(request.args.get(key) or dflt).strip().lower()] *)
Definition arg_lower (args : gmap string string) (key dflt : string) : string :=
  py_lower (strip (match args !! key with
                   | Some v => if str_truthy v then v else dflt
                   | None => dflt
                   end)).

(** [(request.args.get("participant_q") or "").strip() or None] *)
Definition arg_participant_q (args : gmap string string) : option string :=
  or_None (strip (or_empty (args !! "participant_q"))).

Section routes.
(** The aggregation functions of [engine] and [occupancy], called by the
    routes, and the flag [restricted] of a Magatomatique result. *)
Context {Table : Type}.
Context (compute_participants_stats compute_volume_activity_stats
         compute_participation_frequency_stats compute_transversalite_stats
         compute_demography_stats compute_occupancy_stats : Filters → DB → Table).
Context (compute_magatomatique
         : Filters → option string → string → Z → Z → DB → Table).
Context (restricted : Table → bool).

(** The tables handed to the template by a GET on [dashboard]. *)
Record Dashboard := mkDashboard {
  ctx_flt : Filters;
  ctx_stats : Table;
  ctx_freq : Table;
  ctx_trans : Table;
  ctx_demo : Table;
  ctx_occupancy : Table;
  ctx_participants : Table;
  ctx_magato : option Table }.

(** A GET on [dashboard]; [flt] is the result of [normalize_filters]. *)
Definition dashboard_get (u : User) (today : date) (args : gmap string string)
    (flt : Filters) (db : DB) : result (http Dashboard) :=
  if negb (_can_view u) then Ok (Aborted 403)
  else
    let flt := dashboard_filters today flt in
    let tab := arg_lower args "tab" "base" in
    magato ←
      (if bool_decide (tab ∈ ["magato"; "magatomatique"]) then
         caps ← dashboard_caps (args !! "max_sessions") (args !! "max_participants");
         Ok (Some (compute_magatomatique flt (arg_participant_q args)
                     (arg_lower args "magato_view" "macro") caps.1 caps.2 db))
       else Ok None);
    Ok (Served
          {| ctx_flt := flt;
             ctx_stats := compute_volume_activity_stats flt db;
             ctx_freq := compute_participation_frequency_stats flt db;
             ctx_trans := compute_transversalite_stats flt db;
             ctx_demo := compute_demography_stats flt db;
             ctx_occupancy := compute_occupancy_stats flt db;
             ctx_participants := compute_participants_stats flt db;
             ctx_magato := magato |}).

(** What [magatomatique_export] sends: the per-atelier workbook, or the
    workbook written from the result of [compute_magatomatique], which
    is kept as it is. *)
Inductive Export :=
| ExportPerAtelier (wb : Workbook)
| ExportFlat (magato : Table).

Definition magatomatique_export (u : User) (args : gmap string string)
    (flt : Filters) (db : DB) : result (http Export) :=
  if negb (_can_view u) then Ok (Aborted 403)
  else
    let export_mode := arg_lower args "export_mode" "flat" in
    let participant_q := arg_participant_q args in
    let view := arg_lower args "magato_view" "macro" in
    caps ← export_caps (args !! "max_sessions") (args !! "max_participants");
    if bool_decide (export_mode ∈ ["per_atelier"; "per-atelier"; "atelier"]) then
      Ok (Served (ExportPerAtelier (_build_magato_per_atelier_workbook flt u db)))
    else
      let magato := compute_magatomatique flt participant_q view caps.1 caps.2 db in
      if restricted magato then Ok (Aborted 403)
      else Ok (Served (ExportFlat magato)).
End routes.

(** The state changed by a POST: the database and the signature files. *)
Record World := mkWorld { db : DB; files : gset string }.

(** What the caller receives: an HTTP error, or a redirection to the
    participants tab carrying the flashed message and its category. *)
Inductive Response :=
| Abort (code : Z)
| Redirect (message category : string).

(** The sectors of the sessions where a participant has a presence; the
    NULL and empty sectors are dropped. *)
Definition presence_sectors (db : DB) (participant_id : Z) : gset string :=
  list_to_set
    (omap (λ s : option string, if opt_truthy s then s else None)
       (remove_dups
          (pr ← filter (λ pr : PresenceActivite.t,
                          sql_eq (PresenceActivite.participant_id pr) participant_id)
                       (presences db);
           s ← filter (λ s : SessionActivite.t,
                         sql_eq (PresenceActivite.session_id pr) (SessionActivite.id s))
                      (sessions db);
           [SessionActivite.secteur s]))).

(** The sector test of the delete action: [true] when the deletion may
    go on. *)
Definition delete_allowed (u : User) (db : DB) (participant_id : Z) : bool :=
  if negb (can u "participants:view_all") then
    let sectors := presence_sectors db participant_id in
    negb (bool_decide (sectors ≠ ∅) && bool_decide (sectors ≠ {[ user_secteur u ]}))
  else true.

(** [os.remove] of the signature of a presence, when the file exists. *)
Definition remove_signature (fs : gset string) (pr : PresenceActivite.t) : gset string :=
  match PresenceActivite.signature_path pr with
  | Some path => if str_truthy path then fs ∖ {[ path ]} else fs
  | None => fs
  end.

(** The rows left once the presences of the participant and the
    participant are deleted. *)
Definition purge (participant_id : Z) (d : DB) : DB :=
  {| ateliers := ateliers d;
     sessions := sessions d;
     presences := filter (λ pr : PresenceActivite.t,
                            negb (sql_eq (PresenceActivite.participant_id pr) participant_id))
                         (presences d);
     participants := filter (λ p : Participant.t,
                               negb (bool_decide (Participant.id p = participant_id)))
                            (participants d);
     evaluations := evaluations d |}.

Definition msg_refused : string :=
  "Suppression refusée : ce participant a des émargements dans d'autres secteurs.".

Definition msg_deleted : string := "Participant supprimé définitivement.".

(** [int(request.form.get("participant_id", "0"))], 0 when [int] raises. *)
Definition form_participant_id (raw_id : option string) : Z :=
  match py_int (default "0" raw_id) with Ok v => v | Raise _ => 0 end.

(** A POST on [dashboard] with the action [delete_participant].  [allowed_ids] are
    the ids of the roster computed by [compute_participants_stats],
    [raw_id] is the form field [participant_id], and [commit_ok] tells
    whether the transaction commits. *)
Definition delete_participant (u : User) (allowed_ids : gset Z) (commit_ok : bool)
    (raw_id : option string) (w : World) : Response * World :=
  let participant_id := form_participant_id raw_id in
  if negb (_can_view u) then (Abort 403, w)
  else if (participant_id =? 0) || bool_decide (participant_id ∉ allowed_ids)
  then (Abort 403, w)
  else
    match list_find (λ p : Participant.t, Participant.id p = participant_id)
                    (participants (db w)) with
    | None => (Abort 404, w)
    | Some _ =>
        if negb (delete_allowed u (db w) participant_id) then
          (Redirect msg_refused "danger", w)
        else
          let presences :=
            filter (λ pr : PresenceActivite.t,
                      sql_eq (PresenceActivite.participant_id pr) participant_id)
                   (presences (db w)) in
          let fs := foldl remove_signature (files w) presences in
          if commit_ok then
            (Redirect msg_deleted "success",
             {| db := purge participant_id (db w); files := fs |})
          else
            (Redirect "Impossible de supprimer ce participant." "danger",
             {| db := db w; files := fs |})
    end.

(** ** Well-formed sheet titles *)

(** The characters of a string. *)
Definition chars (s : string) : list ascii := list_ascii_of_string s.

(** What openpyxl asks of a title: not empty, at most 31 characters,
    none of the characters of [bad_chars]. *)
Definition valid_sheet_title (t : string) : Prop :=
  t ≠ "" ∧ (String.length t ≤ 31)%nat ∧ ∀ c, c ∈ chars t → c ∉ bad_chars.

(** ** Presences of a participant in the period *)

(** The presences of a participant at one of the sessions [session_ids]. *)
Definition presences_of (session_ids : list Z) (db : DB) (pid : Z)
    : list PresenceActivite.t :=
  filter (λ pr : PresenceActivite.t, PresenceActivite.participant_id pr = Some pid)
         (presences_in session_ids db).

(** ** Signature files of a participant *)

(** The signature files that the delete action removes: the non-empty
    [signature_path] of the presences of the participant. *)
Definition signatures_of (d : DB) (participant_id : Z) : gset string :=
  list_to_set
    (omap (λ pr : PresenceActivite.t,
             match PresenceActivite.signature_path pr with
             | Some path => if str_truthy path then Some path else None
             | None => None
             end)
          (filter (λ pr : PresenceActivite.t,
                     sql_eq (PresenceActivite.participant_id pr) participant_id)
                  (presences d))).

Definition msg_failed : string := "Impossible de supprimer ce participant.".

(** ** The CSV export *)

Record datetime := mkdatetime { dt_date : date; hour : Z; minute : Z }.

(** [d.strftime("%Y-%m-%d")], years written on four digits. *)
Definition strftime_Ymd (d : date) : string :=
  fmt04 (year d) +:+ "-" +:+ fmt02 (month d) +:+ "-" +:+ fmt02 (day d).

Definition _fmt_date (value : option date) : string :=
  match value with Some d => strftime_Ymd d | None => "" end.

Definition _fmt_datetime (value : option datetime) : string :=
  match value with
  | Some t => strftime_Ymd (dt_date t) +:+ " " +:+ fmt02 (hour t) +:+ ":"
                +:+ fmt02 (minute t)
  | None => ""
  end.

(** Modelled from the spec: the rows of [app.models] with the columns
    that the getters of the CSV export read; the hours are stored as
    text. *)
Module Csv.
Record participant := mk_participant {
  p_id : Z;
  p_nom : option string;
  p_prenom : option string;
  p_email : option string;
  p_telephone : option string;
  p_ville : option string;
  p_genre : option string;
  p_type_public : option string;
  p_date_naissance : option date }.

Record session := mk_session {
  s_id : Z;
  s_rdv_date : option date;
  s_date_session : option date;
  s_session_type : option string;
  s_statut : option string;
  s_rdv_debut : option string;
  s_heure_debut : option string;
  s_rdv_fin : option string;
  s_heure_fin : option string;
  s_duree_minutes : option Z }.

Record atelier := mk_atelier {
  a_id : Z;
  a_nom : option string;
  a_secteur : option string;
  a_type_atelier : option string }.

Record presence := mk_presence {
  pr_id : Z;
  pr_motif : option string;
  pr_motif_autre : option string;
  pr_created_at : option datetime }.

Record quartier := mk_quartier { q_nom : option string }.

(** The dict [ctx] built for each row of the query. *)
Record ctx := mk_ctx {
  presence_of : presence;
  participant_of : participant;
  session_of : session;
  atelier_of : atelier;
  quartier_of : option quartier }.
End Csv.

(** [a or b or ""] *)
Definition first_truthy (a b : option string) : string :=
  if opt_truthy a then or_empty a else or_empty b.

(** [n or ""] for a number. *)
Definition int_or_empty (n : option Z) : cell :=
  match n with
  | Some v => if v =? 0 then CStr "" else CInt v
  | None => CStr ""
  end.

(** The groups of fields offered by the export form: each group has a
    label and its fields, a key and a label each. *)
Definition CSV_FIELD_GROUPS : list (string * list (string * string)) :=
  [("Participant",
    [("participant_id", "ID participant");
     ("participant_nom", "Nom");
     ("participant_prenom", "Prénom");
     ("participant_email", "Email");
     ("participant_telephone", "Téléphone");
     ("participant_ville", "Ville");
     ("participant_quartier", "Quartier");
     ("participant_genre", "Genre");
     ("participant_type_public", "Type public");
     ("participant_date_naissance", "Date naissance")]);
   ("Session",
    [("session_id", "ID session");
     ("session_date", "Date session");
     ("session_type", "Type session");
     ("session_statut", "Statut session");
     ("session_heure_debut", "Heure début");
     ("session_heure_fin", "Heure fin");
     ("session_duree_minutes", "Durée (minutes)")]);
   ("Atelier",
    [("atelier_id", "ID atelier");
     ("atelier_nom", "Nom atelier");
     ("atelier_secteur", "Secteur atelier");
     ("atelier_type", "Type atelier")]);
   ("Présence",
    [("presence_id", "ID présence");
     ("presence_motif", "Motif");
     ("presence_motif_autre", "Motif autre");
     ("presence_created_at", "Date d'émargement")])].

Definition CSV_DEFAULT_FIELDS : list string :=
  ["participant_nom"; "participant_prenom"; "atelier_nom"; "atelier_secteur";
   "session_date"; "session_type"].

(** The entries of the dict [CSV_FIELD_MAP]: key, label and getter. *)
Definition CSV_FIELD_MAP_items : list (string * (string * (Csv.ctx → cell))) :=
  [("participant_id",
    ("ID participant", λ c, CInt (Csv.p_id (Csv.participant_of c))));
   ("participant_nom",
    ("Nom", λ c, CStr (or_empty (Csv.p_nom (Csv.participant_of c)))));
   ("participant_prenom",
    ("Prénom", λ c, CStr (or_empty (Csv.p_prenom (Csv.participant_of c)))));
   ("participant_email",
    ("Email", λ c, CStr (or_empty (Csv.p_email (Csv.participant_of c)))));
   ("participant_telephone",
    ("Téléphone", λ c, CStr (or_empty (Csv.p_telephone (Csv.participant_of c)))));
   ("participant_ville",
    ("Ville", λ c, CStr (or_empty (Csv.p_ville (Csv.participant_of c)))));
   ("participant_quartier",
    ("Quartier", λ c, match Csv.quartier_of c with
                      | Some q => cell_of (Csv.q_nom q)
                      | None => CStr ""
                      end));
   ("participant_genre",
    ("Genre", λ c, CStr (or_empty (Csv.p_genre (Csv.participant_of c)))));
   ("participant_type_public",
    ("Type public", λ c, CStr (or_empty (Csv.p_type_public (Csv.participant_of c)))));
   ("participant_date_naissance",
    ("Date naissance",
     λ c, CStr (_fmt_date (Csv.p_date_naissance (Csv.participant_of c)))));
   ("session_id", ("ID session", λ c, CInt (Csv.s_id (Csv.session_of c))));
   ("session_date",
    ("Date session",
     λ c, CStr (_fmt_date match Csv.s_rdv_date (Csv.session_of c) with
                          | Some d => Some d
                          | None => Csv.s_date_session (Csv.session_of c)
                          end)));
   ("session_type",
    ("Type session", λ c, CStr (or_empty (Csv.s_session_type (Csv.session_of c)))));
   ("session_statut",
    ("Statut session", λ c, CStr (or_empty (Csv.s_statut (Csv.session_of c)))));
   ("session_heure_debut",
    ("Heure début", λ c, CStr (first_truthy (Csv.s_rdv_debut (Csv.session_of c))
                                 (Csv.s_heure_debut (Csv.session_of c)))));
   ("session_heure_fin",
    ("Heure fin", λ c, CStr (first_truthy (Csv.s_rdv_fin (Csv.session_of c))
                               (Csv.s_heure_fin (Csv.session_of c)))));
   ("session_duree_minutes",
    ("Durée (minutes)", λ c, int_or_empty (Csv.s_duree_minutes (Csv.session_of c))));
   ("atelier_id", ("ID atelier", λ c, CInt (Csv.a_id (Csv.atelier_of c))));
   ("atelier_nom",
    ("Nom atelier", λ c, CStr (or_empty (Csv.a_nom (Csv.atelier_of c)))));
   ("atelier_secteur",
    ("Secteur atelier", λ c, CStr (or_empty (Csv.a_secteur (Csv.atelier_of c)))));
   ("atelier_type",
    ("Type atelier", λ c, CStr (or_empty (Csv.a_type_atelier (Csv.atelier_of c)))));
   ("presence_id", ("ID présence", λ c, CInt (Csv.pr_id (Csv.presence_of c))));
   ("presence_motif",
    ("Motif", λ c, CStr (or_empty (Csv.pr_motif (Csv.presence_of c)))));
   ("presence_motif_autre",
    ("Motif autre", λ c, CStr (or_empty (Csv.pr_motif_autre (Csv.presence_of c)))));
   ("presence_created_at",
    ("Date d'émargement",
     λ c, CStr (_fmt_datetime (Csv.pr_created_at (Csv.presence_of c)))))].

Definition CSV_FIELD_MAP : gmap string (string * (Csv.ctx → cell)) :=
  list_to_map CSV_FIELD_MAP_items.

(** [f in CSV_FIELD_MAP] *)
Definition known_field (f : string) : bool :=
  bool_decide (is_Some (CSV_FIELD_MAP !! f)).

(** The fields of the export, from [request.args.getlist("fields")]. *)
Definition csv_fields (requested : list string) : list string :=
  let fields := match requested with [] => CSV_DEFAULT_FIELDS | _ :: _ => requested end in
  let fields := filter (λ f, known_field f) fields in
  match fields with [] => CSV_DEFAULT_FIELDS | _ :: _ => fields end.

(** The rows handed to [csv.writer] by [magatomatique_export_csv]: the
    header, then one row per row of the query.  [rows] is the result of
    [_query_presence_export]; [None] stands for a [KeyError] raised by
    [CSV_FIELD_MAP[f]]. *)
Definition magatomatique_export_csv (u : User) (requested : list string)
    (rows : list Csv.ctx) : option (http (list (list cell))) :=
  if negb (_can_view u) then Some (Aborted 403)
  else
    let fields := csv_fields requested in
    header ← mapM (λ f, (λ e, CStr e.1) <$> CSV_FIELD_MAP !! f) fields;
    body ← mapM (λ c, mapM (λ f, (λ e, e.2 c) <$> CSV_FIELD_MAP !! f) fields) rows;
    Some (Served (header :: body)).

(** The label that the form shows for a field. *)
Definition form_label (f : string) : option string :=
  (λ r : nat * (string * string), r.2.2)
    <$> list_find (λ e : string * string, e.1 = f) (CSV_FIELD_GROUPS ≫= snd).

(** ** The pedagogical statistics *)

Module Projet.
Record t := mk { id : Z; secteur : option string; nom : option string }.
Global Instance Projet_eq_dec : EqDecision t.
Proof. solve_decision. Defined.
End Projet.

(** Modelled from the spec: the classes of [app.models] with the columns
    that [_build_bilan_rows] reads; [Evaluation.date_evaluation] is read
    as a date. *)
Module Bilan.
Record evaluation := mk_evaluation {
  e_id : Z;
  e_participant_id : option Z;
  e_competence_id : option Z;
  e_session_id : option Z;
  e_etat : option Z;
  e_date_evaluation : option date }.

Record competence := mk_competence {
  c_id : Z;
  c_code : option string;
  c_nom : option string;
  c_referentiel_id : option Z }.

Record referentiel := mk_referentiel { r_id : Z; r_nom : option string }.
End Bilan.

(** A row of the table of objectives: the columns that the queries of
    [stats_pedagogie] filter and sort on, and the objective itself. *)
Record ObjectifRow := mkObjectifRow {
  o_projet_id : option Z;
  o_atelier_id : option Z;
  o_created_at : Z;
  o_node : Objectif.t }.

(** The tables read by [stats_pedagogie], beside those of [DB]. *)
Record PedagoDB := mkPedagoDB {
  base : DB;
  projets : list Projet.t;
  objectifs : list ObjectifRow;
  bilan_evaluations : list Bilan.evaluation;
  bilan_competences : list Bilan.competence;
  referentiels : list Bilan.referentiel }.

(** A dict of [_build_bilan_rows]. *)
Record BilanRow := mkBilanRow {
  row_referentiel : option string;
  row_competence : string;
  row_date : string;
  row_atelier : option string }.

Global Instance BilanRow_eq_dec : EqDecision BilanRow.
Proof. solve_decision. Defined.

(** The right side of an outer join: the matching rows, or one NULL. *)
Definition outer {A} (l : list A) : list (option A) :=
  match l with [] => [None] | _ :: _ => Some <$> l end.

(** The rows that the joins of [_build_bilan_rows] give for one
    evaluation. *)
Definition join_evaluation (pdb : PedagoDB) (e : Bilan.evaluation)
    : list (Bilan.evaluation * Bilan.competence * Bilan.referentiel
            * option SessionActivite.t * option AtelierActivite.t) :=
  c ← filter (λ c : Bilan.competence,
                sql_eq (Bilan.e_competence_id e) (Bilan.c_id c))
             (bilan_competences pdb);
  r ← filter (λ r : Bilan.referentiel,
                sql_eq (Bilan.c_referentiel_id c) (Bilan.r_id r))
             (referentiels pdb);
  s ← outer (filter (λ s : SessionActivite.t,
                       sql_eq (Bilan.e_session_id e) (SessionActivite.id s))
                    (sessions (base pdb)));
  a ← outer (match s with
             | Some s => filter (λ a : AtelierActivite.t,
                                   sql_eq (SessionActivite.atelier_id s)
                                          (AtelierActivite.id a))
                                (ateliers (base pdb))
             | None => []
             end);
  [(e, c, r, s, a)].

(** The rows of the query of [_build_bilan_rows], before ORDER BY. *)
Definition eval_rows (pdb : PedagoDB) (participant_id : Z)
    : list (Bilan.evaluation * Bilan.competence * Bilan.referentiel
            * option SessionActivite.t * option AtelierActivite.t) :=
  filter (λ e : Bilan.evaluation,
            sql_eq (Bilan.e_participant_id e) participant_id
            && sql_eq (Bilan.e_etat e) 2)
         (bilan_evaluations pdb)
  ≫= join_evaluation pdb.

Definition eval_row_leb
    (x y : Bilan.evaluation * Bilan.competence * Bilan.referentiel
           * option SessionActivite.t * option AtelierActivite.t) : bool :=
  lex_leb (opt_ltb str_ltb) opt_eqb
    (lex_leb (opt_ltb str_ltb) opt_eqb (opt_leb date_leb))
    (Bilan.r_nom x.1.1.2,
     (Bilan.c_code x.1.1.1.2, Bilan.e_date_evaluation x.1.1.1.1))
    (Bilan.r_nom y.1.1.2,
     (Bilan.c_code y.1.1.1.2, Bilan.e_date_evaluation y.1.1.1.1)).

Definition bilan_row
    (x : Bilan.evaluation * Bilan.competence * Bilan.referentiel
         * option SessionActivite.t * option AtelierActivite.t) : BilanRow :=
  {| row_referentiel := Bilan.r_nom x.1.1.2;
     row_competence := py_str (Bilan.c_code x.1.1.1.2) +:+ " · "
                         +:+ py_str (Bilan.c_nom x.1.1.1.2);
     row_date := match Bilan.e_date_evaluation x.1.1.1.1 with
                 | Some dt => strftime_dmY dt
                 | None => ""
                 end;
     row_atelier := match x.2 with
                    | Some a => AtelierActivite.nom a
                    | None => Some ""
                    end |}.

Definition _build_bilan_rows (pdb : PedagoDB) (participant_id : Z) : list BilanRow :=
  bilan_row <$> order_by eval_row_leb (eval_rows pdb participant_id).

(** [grouped.setdefault(key, []).append(row)] on a dict kept in insertion
    order. *)
Fixpoint setdefault_append {K V} `{EqDecision K} (key : K) (row : V)
    (grouped : list (K * list V)) : list (K * list V) :=
  match grouped with
  | [] => [(key, [row])]
  | (k, rows) :: g =>
      if decide (key = k) then (k, rows ++ [row]) :: g
      else (k, rows) :: setdefault_append key row g
  end.

(** The [participant_groups] of [stats_pedagogie]. *)
Definition participant_groups_of (bilan_rows : list BilanRow)
    : list (option string * list BilanRow) :=
  foldl (λ grouped row, setdefault_append (row_referentiel row) row grouped)
        [] bilan_rows.










(** The order of [ORDER BY] on a nullable text column, as a relation. *)
Definition ref_le (a b : option string) : Prop :=
  opt_ltb str_ltb a b = true ∨ a = b.

(** ** The update action of the dashboard *)

(** Modelled from the spec: the class [Participant] of [app.models] with
    the columns that the update action writes. *)
Module ParticipantRecord.
Record t := mk {
  id : Z;
  nom : option string;
  prenom : option string;
  ville : option string;
  email : option string;
  telephone : option string;
  genre : option string;
  type_public : option string;
  date_naissance : option date;
  quartier_id : option Z }.

Global Instance ParticipantRecord_eq_dec : EqDecision t.
Proof. solve_decision. Defined.
End ParticipantRecord.

(** [s.upper()] on the ASCII letters. *)
Definition upper_char (c : ascii) : ascii :=
  let n := N_of_ascii c in
  if ((97 <=? n) && (n <=? 122))%N then ascii_of_N (n - 32) else c.

Fixpoint py_upper (s : string) : string :=
  match s with
  | EmptyString => EmptyString
  | String c s' => String (upper_char c) (py_upper s')
  end.

(** [(request.form.get(key) or current or "").strip() or current] *)
Definition form_name (form : gmap string string) (key : string)
    (current : option string) : option string :=
  let s := strip (first_truthy (form !! key) current) in
  if str_truthy s then Some s else current.

(** [(request.form.get(key) or "").strip() or None] *)
Definition form_text (form : gmap string string) (key : string) : option string :=
  or_None (strip (or_empty (form !! key))).

(** [(request.form.get("type_public") or current or "H").strip().upper()] *)
Definition form_type_public (form : gmap string string) (current : option string)
    : string :=
  py_upper (strip (if opt_truthy (form !! "type_public")
                   then or_empty (form !! "type_public")
                   else if opt_truthy current then or_empty current else "H")).

(** [int(quartier_id) if quartier_id else None], [None] when [int]
    raises. *)
Definition form_quartier_id (form : gmap string string) : option Z :=
  match form !! "quartier_id" with
  | Some raw =>
      if str_truthy raw
      then match py_int raw with Ok v => Some v | Raise _ => None end
      else None
  | None => None
  end.

Definition msg_updated : string := "Participant mis à jour.".

Definition msg_update_failed : string := "Impossible de sauvegarder ce participant.".

Section update_participant.
(** [date.fromisoformat], [None] when it raises. *)
Context (fromisoformat : string → option date).

Definition form_date_naissance (form : gmap string string) : option date :=
  match form !! "date_naissance" with
  | Some raw => if str_truthy raw then fromisoformat raw else None
  | None => None
  end.

(** The assignments of the update action to the participant. *)
Definition updated (form : gmap string string) (p : ParticipantRecord.t)
    : ParticipantRecord.t :=
  {| ParticipantRecord.id := ParticipantRecord.id p;
     ParticipantRecord.nom := form_name form "nom" (ParticipantRecord.nom p);
     ParticipantRecord.prenom := form_name form "prenom" (ParticipantRecord.prenom p);
     ParticipantRecord.ville := form_text form "ville";
     ParticipantRecord.email := form_text form "email";
     ParticipantRecord.telephone := form_text form "telephone";
     ParticipantRecord.genre := form_text form "genre";
     ParticipantRecord.type_public :=
       Some (form_type_public form (ParticipantRecord.type_public p));
     ParticipantRecord.date_naissance := form_date_naissance form;
     ParticipantRecord.quartier_id := form_quartier_id form |}.

(** A POST on [dashboard] with the action [update_participant].
    [allowed_ids] are the ids of the roster computed by
    [compute_participants_stats], [commit_ok] tells whether the
    transaction commits, and [rows] is the table of the participants. *)
Definition update_participant (u : User) (allowed_ids : gset Z) (commit_ok : bool)
    (form : gmap string string) (rows : list ParticipantRecord.t)
    : Response * list ParticipantRecord.t :=
  let participant_id := form_participant_id (form !! "participant_id") in
  if negb (_can_view u) then (Abort 403, rows)
  else if (participant_id =? 0) || bool_decide (participant_id ∉ allowed_ids)
  then (Abort 403, rows)
  else
    match list_find (λ p, ParticipantRecord.id p = participant_id) rows with
    | None => (Abort 404, rows)
    | Some (i, p) =>
        if commit_ok then (Redirect msg_updated "success", <[i := updated form p]> rows)
        else (Redirect msg_update_failed "danger", rows)
    end.
End update_participant.

(** A text without surrounding white space that is not empty. *)
Definition clean (s : string) : Prop := s ≠ "" ∧ strip s = s.

(** What the update action may do to a name: keep it, or replace it by
    a clean text. *)
Definition name_kept (old new : option string) : Prop :=
  new = old ∨ ∃ s, new = Some s ∧ clean s.

(** An optional column after the update: NULL or a clean text. *)
Definition clean_text (o : option string) : Prop :=
  o = None ∨ ∃ s, o = Some s ∧ clean s.

(** ** Archive folders and file names: [app/activite/services/docx_utils.py] *)

(** [c.isalnum()] on the ASCII range. *)
Definition py_isalnum (c : ascii) : bool :=
  let n := N_of_ascii c in
  ((48 <=? n) && (n <=? 57) || (65 <=? n) && (n <=? 90)
   || (97 <=? n) && (n <=? 122))%N.

(** [s.replace(" ", "_")] *)
Fixpoint replace_spaces (s : string) : string :=
  match s with
  | EmptyString => EmptyString
  | String c s' =>
      String (if Ascii.eqb c " " then "_"%char else c) (replace_spaces s')
  end.

Definition _safe_filename (s : string) : string :=
  replace_spaces
    (strip (string_filter (λ c, py_isalnum c || bool_decide (c ∈ chars "-_ ")) s)).

(** [str(n)] for an [int]. *)
Definition py_str_int (n : Z) : string := NilZero.string_of_int (Z.to_int n).

(** [f"{n:02d}"] *)
Definition format_02d (n : Z) : string :=
  let s := py_str_int n in
  if (String.length s <? 2)%nat then "0" +:+ s else s.

(** The index of [names] is in range under the test on [month]. *)
Definition _month_folder (month : Z) : string :=
  let names :=
    ["01_Janvier"; "02_Fevrier"; "03_Mars"; "04_Avril"; "05_Mai"; "06_Juin";
     "07_Juillet"; "08_Aout"; "09_Septembre"; "10_Octobre"; "11_Novembre";
     "12_Decembre"] in
  if (1 <=? month) && (month <=? 12)
  then default "" (names !! Z.to_nat (month - 1))
  else format_02d month +:+ "_Mois".

(** The components that [generate_collectif_docx_pdf] and
    [generate_individuel_mensuel_docx] join to the root of the archives;
    the sector and the name of the atelier are strings. *)
Definition archive_folder (secteur nom : string) (y m : Z) : list string :=
  [_safe_filename secteur; py_str_int y; _safe_filename nom; _month_folder m].

(** The [time_label] of [generate_collectif_docx_pdf]. *)
Definition time_label (heure_debut heure_fin : option string) : string :=
  let time_label := or_empty heure_debut in
  if opt_truthy heure_fin then
    if str_truthy time_label then time_label +:+ "-" +:+ or_empty heure_fin
    else or_empty heure_fin
  else time_label.

(** The file name of the sheet of a collective session held on [dt]. *)
Definition collectif_fname (dt : date) (nom : string)
    (heure_debut heure_fin : option string) : string :=
  let time_label := time_label heure_debut heure_fin in
  strftime_Ymd dt +:+ "__COLLECTIF__" +:+ _safe_filename nom +:+ "__"
    +:+ _safe_filename (if str_truthy time_label then time_label else "session")
    +:+ ".docx".

(** The file name of the monthly sheet of an individual atelier. *)
Definition individuel_fname (annee mois : Z) (nom : string) : string :=
  py_str_int annee +:+ "-" +:+ format_02d mois +:+ "__INDIVIDUEL__"
    +:+ _safe_filename nom +:+ ".docx".

(** A string of ASCII characters. *)
Definition ascii_only (s : string) : Prop :=
  ∀ c, c ∈ chars s → (N_of_ascii c < 128)%N.

(** The characters of a path component that cannot leave its folder. *)
Definition component_char (c : ascii) : Prop :=
  py_isalnum c = true ∨ c = "-"%char ∨ c = "_"%char.

(** ** The monthly sheet of an individual atelier *)

(** Modelled from the spec: the classes [SessionActivite] and
    [PresenceActivite] of [app.models] with the columns that
    [generate_individuel_mensuel_docx] reads; the participants are those
    of the CSV export. *)
Module Rdv.
Record session := mk_session {
  s_id : Z;
  s_atelier_id : option Z;
  s_session_type : option string;
  s_is_deleted : bool;
  s_rdv_date : option date;
  s_rdv_debut : option string;
  s_rdv_fin : option string }.

Record presence := mk_presence {
  pr_id : Z;
  pr_session_id : option Z;
  pr_participant_id : option Z;
  pr_motif : option string;
  pr_motif_autre : option string;
  pr_signature_path : option string }.

Record tables := mk_tables {
  t_sessions : list session;
  t_presences : list presence;
  t_participants : list Csv.participant }.

(** A dict of [rows], without its key [signature], which is [None] until
    the template is rendered. *)
Record row := mk_row {
  nom : string;
  email : string;
  ddn : string;
  sexe : string;
  type_public : string;
  da : string;
  heures : string;
  motif : string;
  ville : string;
  sig_path : option string }.
End Rdv.

(** [date(y, m, j)], [None] when it raises: the year is in 1..9999, the
    month in 1..12 and the day exists in the month. *)
Definition days_in_month (y m : Z) : Z :=
  if m =? 2 then
    if ((y mod 4 =? 0) && negb (y mod 100 =? 0)) || (y mod 400 =? 0) then 29 else 28
  else if (m =? 4) || (m =? 6) || (m =? 9) || (m =? 11) then 30 else 31.

Definition py_date (y m j : Z) : option date :=
  if (1 <=? y) && (y <=? 9999) && (1 <=? m) && (m <=? 12)
     && (1 <=? j) && (j <=? days_in_month y m)
  then Some (mkdate y m j) else None.

(** [d.strftime("%d/%m/%Y") if d else ""] *)
Definition _format_date_fr (d : option date) : string :=
  match d with Some d => strftime_dmY d | None => "" end.

(** The sessions fetched by the query of
    [generate_individuel_mensuel_docx]. *)
Definition rdv_query (tb : Rdv.tables) (atelier_id : Z) (first_day : date)
    : list Rdv.session :=
  filter (λ s : Rdv.session,
            sql_eq (Rdv.s_atelier_id s) atelier_id
            && sql_eq (Rdv.s_session_type s) "INDIVIDUEL_MENSUEL"
            && negb (Rdv.s_is_deleted s)
            && bool_decide (Rdv.s_rdv_date s ≠ None)
            && sql_ge (Rdv.s_rdv_date s) first_day)
         (Rdv.t_sessions tb).

(** [s.rdv_date and s.rdv_date.year == annee and s.rdv_date.month == mois] *)
Definition in_month (annee mois : Z) (s : Rdv.session) : bool :=
  match Rdv.s_rdv_date s with
  | Some dt => (year dt =? annee) && (month dt =? mois)
  | None => false
  end.

(** The order of [sessions.sort] on the key
    [(s.rdv_date or date(annee, mois, 1), s.rdv_debut or "")]. *)
Definition rdv_leb (first_day : date) (a b : Rdv.session) : bool :=
  let key (s : Rdv.session) :=
    (default first_day (Rdv.s_rdv_date s),
     or_empty (Rdv.s_rdv_debut s)) in
  date_ltb (key a).1 (key b).1
  || (bool_decide ((key a).1 = (key b).1) && str_leb (key a).2 (key b).2).

(** The first presence of a session, in the order of the names of the
    participants, with its participant. *)
Definition first_presence (tb : Rdv.tables) (session_id : Z)
    : option (Rdv.presence * Csv.participant) :=
  head (order_by
          (λ a b : Rdv.presence * Csv.participant,
             lex_leb (opt_ltb str_ltb) opt_eqb (opt_leb str_leb)
               (Csv.p_nom a.2, Csv.p_prenom a.2) (Csv.p_nom b.2, Csv.p_prenom b.2))
          (pr ← filter (λ pr : Rdv.presence, sql_eq (Rdv.pr_session_id pr) session_id)
                       (Rdv.t_presences tb);
           p ← filter (λ p : Csv.participant,
                         sql_eq (Rdv.pr_participant_id pr) (Csv.p_id p))
                      (Rdv.t_participants tb);
           [(pr, p)])).

(** The dict appended to [rows] for a session and its first presence. *)
Definition rdv_row (s : Rdv.session) (pr : Rdv.presence) (p : Csv.participant)
    : Rdv.row :=
  let motif := or_empty (Rdv.pr_motif pr) in
  {| Rdv.nom := py_upper (or_empty (Csv.p_nom p)) +:+ " "
                  +:+ or_empty (Csv.p_prenom p);
     Rdv.email := or_empty (Csv.p_email p);
     Rdv.ddn := _format_date_fr (Csv.p_date_naissance p);
     Rdv.sexe := or_empty (Csv.p_genre p);
     Rdv.type_public :=
       if opt_truthy (Csv.p_type_public p) then or_empty (Csv.p_type_public p) else "H";
     Rdv.da := _format_date_fr (Rdv.s_rdv_date s);
     Rdv.heures :=
       if opt_truthy (Rdv.s_rdv_debut s) && opt_truthy (Rdv.s_rdv_fin s)
       then or_empty (Rdv.s_rdv_debut s) +:+ " - " +:+ or_empty (Rdv.s_rdv_fin s)
       else if opt_truthy (Rdv.s_rdv_debut s) then or_empty (Rdv.s_rdv_debut s)
       else "";
     Rdv.motif :=
       if opt_truthy (Rdv.pr_motif_autre pr) then
         if str_truthy motif then motif +:+ " / " +:+ or_empty (Rdv.pr_motif_autre pr)
         else or_empty (Rdv.pr_motif_autre pr)
       else motif;
     Rdv.ville := or_empty (Csv.p_ville p);
     Rdv.sig_path := Rdv.pr_signature_path pr |}.

(** The sessions of the month, sorted. *)
Definition rdv_sessions (tb : Rdv.tables) (atelier_id annee mois : Z)
    (first_day : date) : list Rdv.session :=
  order_by (rdv_leb first_day)
    (filter (λ s, in_month annee mois s) (rdv_query tb atelier_id first_day)).

(** The [rows] of [generate_individuel_mensuel_docx]: one per session
    that has a presence; [None] when [date(annee, mois, 1)] raises. *)
Definition individuel_rows (tb : Rdv.tables) (atelier_id annee mois : Z)
    : option (list Rdv.row) :=
  first_day ← py_date annee mois 1;
  Some (omap (λ s, match first_presence tb (Rdv.s_id s) with
                   | Some (pr, p) => Some (rdv_row s pr p)
                   | None => None
                   end)
             (rdv_sessions tb atelier_id annee mois first_day)).

(** The sessions of the atelier that are individual, not deleted and
    dated in the month. *)
Definition month_sessions (tb : Rdv.tables) (atelier_id annee mois : Z)
    : list Rdv.session :=
  filter (λ s : Rdv.session,
            sql_eq (Rdv.s_atelier_id s) atelier_id
            && sql_eq (Rdv.s_session_type s) "INDIVIDUEL_MENSUEL"
            && negb (Rdv.s_is_deleted s)
            && in_month annee mois s)
         (Rdv.t_sessions tb).

(** ** Sample data *)

Definition d (y m j : Z) : date := mkdate y m j.

(** Two ateliers of sector Nord and one of sector Sud; the atelier
    [Couture] has no session in 2024. *)
Definition sample_db : DB := {|
  ateliers := [AtelierActivite.mk 1 (Some "Nord") (Some "Informatique") false;
               AtelierActivite.mk 2 (Some "Sud") (Some "Cuisine") false;
               AtelierActivite.mk 3 (Some "Nord") (Some "Couture") false];
  sessions := [SessionActivite.mk 10 (Some 1) (Some "Nord") None (Some (d 2024 1 5));
               SessionActivite.mk 11 (Some 1) (Some "Nord") (Some (d 2024 2 10)) None;
               SessionActivite.mk 12 (Some 2) (Some "Sud") None (Some (d 2024 3 10));
               SessionActivite.mk 13 (Some 3) (Some "Nord") None (Some (d 2023 3 10));
               SessionActivite.mk 14 (Some 1) None None (Some (d 2024 4 2))];
  presences := [PresenceActivite.mk 100 (Some 7) (Some 10) (Some "/sig/100.png");
                PresenceActivite.mk 101 (Some 7) (Some 11) None;
                PresenceActivite.mk 102 (Some 8) (Some 10) None;
                PresenceActivite.mk 103 (Some 8) (Some 12) None;
                PresenceActivite.mk 104 (Some 9) (Some 14) None];
  participants := [Participant.mk 7 (Some "Martin") (Some "Xavier");
                   Participant.mk 8 (Some "Durand") (Some "Yvonne");
                   Participant.mk 9 (Some "Petit") None];
  evaluations := [Evaluation.mk 1 (Some 7) (Some 1) (Some 10) (Some 2);
                  Evaluation.mk 2 (Some 7) (Some 2) (Some 10) (Some 3);
                  Evaluation.mk 3 (Some 8) (Some 1) (Some 10) (Some 2)] |}.

Definition year_2024 (s : option string) : Filters :=
  mkFilters s (Some (d 2024 1 1)) (Some (d 2024 12 31)).

(** A caller restricted to sector Nord. *)
Definition resp_nord : User := mkUser (Some "Nord") (λ _, false).

(** A caller restricted to sector Nord who may view the statistics. *)
Definition viewer_nord : User :=
  mkUser (Some "Nord") (λ c, String.eqb c "statsimpact:view").


(** The sheet of the atelier [Informatique] for the year 2024. *)
Definition sample_sheet : Sheet := {|
  title := "Informatique";
  rows := [[CStr "Nord — Informatique"];
           [CStr "Nom"; CStr "Prénom"; CStr "05/01/2024"; CStr "10/02/2024";
            CStr "02/04/2024"];
           [CStr "Durand"; CStr "Yvonne"; CStr "1"; CStr ""; CStr ""];
           [CStr "Martin"; CStr "Xavier"; CStr "1"; CStr "1"; CStr ""];
           [CStr "Petit"; CStr ""; CStr ""; CStr ""; CStr "1"]] |}.

(** One atelier whose participant 7 came once in 2023 and once in 2024. *)
Definition history_db : DB := {|
  ateliers := [AtelierActivite.mk 1 (Some "Nord") (Some "Informatique") false];
  sessions := [SessionActivite.mk 20 (Some 1) (Some "Nord") None (Some (d 2023 6 1));
               SessionActivite.mk 21 (Some 1) (Some "Nord") None (Some (d 2024 1 5))];
  presences := [PresenceActivite.mk 200 (Some 7) (Some 20) None;
                PresenceActivite.mk 201 (Some 7) (Some 21) None];
  participants := [Participant.mk 7 (Some "Martin") (Some "Xavier")];
  evaluations := [] |}.

Definition comp_a : Competence.t := Competence.mk 1 "A1" "Allumer un ordinateur".
Definition comp_b : Competence.t := Competence.mk 2 "A2" "Envoyer un courriel".

(** An operational objective on session 10 with two competences. *)
Definition obj_op : Objectif.t :=
  Objectif.mk "operationnel" (Some 10) [comp_a; comp_b] (Some 50%float) [].

(** An operational objective on session 10 without competence. *)
Definition obj_op_empty : Objectif.t :=
  Objectif.mk "operationnel" (Some 10) [] (Some 50%float) [].

(** A composite objective with two children. *)
Definition obj_general : Objectif.t :=
  Objectif.mk "general" None [] (Some 50%float) [obj_op; obj_op_empty].

(** A composite objective without child, with no threshold. *)
Definition obj_childless : Objectif.t := Objectif.mk "general" None [] None [].

(** [sample_db] where the validation of competence 1 by participant 8 in
    session 10 is recorded a second time. *)
Definition twice_db : DB := {|
  ateliers := ateliers sample_db;
  sessions := sessions sample_db;
  presences := presences sample_db;
  participants := participants sample_db;
  evaluations := evaluations sample_db
                   ++ [Evaluation.mk 4 (Some 8) (Some 1) (Some 10) (Some 2)] |}.

(** One row of the presence query of the CSV export. *)
Definition sample_ctx : Csv.ctx := {|
  Csv.presence_of := Csv.mk_presence 100 None None
                       (Some (mkdatetime (d 2024 1 5) 9 5));
  Csv.participant_of := Csv.mk_participant 7 (Some "Martin") (Some "Xavier") None None
                          (Some "Creil") (Some "H") None (Some (d 1980 7 14));
  Csv.session_of := Csv.mk_session 10 None (Some (d 2024 1 5)) (Some "COLLECTIF") None
                      None (Some "09:00") None (Some "11:00") (Some 0);
  Csv.atelier_of := Csv.mk_atelier 1 (Some "Informatique") (Some "Nord") None;
  Csv.quartier_of := None |}.

(** The tables of the pedagogical statistics over [sample_db]: a project
    in each sector, a general objective of project 1 and a specific one of
    atelier 1; participant 7 has validated a competence of each of two
    referentials, the second one outside any session, and has a third
    evaluation that is not in state 2. *)
Definition sample_pdb : PedagoDB := {|
  base := sample_db;
  projets := [Projet.mk 1 (Some "Nord") (Some "Inclusion");
              Projet.mk 2 (Some "Sud") (Some "Cuisine du monde")];
  objectifs := [mkObjectifRow (Some 1) None 1 obj_general;
                mkObjectifRow None (Some 1) 2
                  (Objectif.mk "specifique" None [] (Some 50%float) [obj_op])];
  bilan_evaluations :=
    [Bilan.mk_evaluation 1 (Some 7) (Some 1) (Some 10) (Some 2) (Some (d 2024 1 5));
     Bilan.mk_evaluation 2 (Some 7) (Some 2) None (Some 2) None;
     Bilan.mk_evaluation 3 (Some 7) (Some 3) (Some 10) (Some 3) (Some (d 2024 1 5));
     Bilan.mk_evaluation 4 (Some 8) (Some 1) (Some 10) (Some 2) (Some (d 2024 1 5))];
  bilan_competences :=
    [Bilan.mk_competence 1 (Some "A1") (Some "Allumer un ordinateur") (Some 1);
     Bilan.mk_competence 2 (Some "B1") (Some "Prendre la parole") (Some 2);
     Bilan.mk_competence 3 (Some "A2") (Some "Envoyer un courriel") (Some 1)];
  referentiels := [Bilan.mk_referentiel 1 (Some "Socle informatique");
                   Bilan.mk_referentiel 2 (Some "Autonomie")] |}.


(** The table of the participants with the columns of the edit form. *)
Definition sample_records : list ParticipantRecord.t :=
  [ParticipantRecord.mk 7 (Some "Martin") (Some "Xavier") (Some "Creil")
     (Some "x.martin@example.org") None (Some "H") (Some "H")
     (Some (d 1980 7 14)) (Some 3);
   ParticipantRecord.mk 8 (Some "Durand") (Some "Yvonne") None None None None
     None None None].

(** An edit of participant 7 that blanks the name, changes the first
    name and leaves the town out. *)
Definition sample_update_form : gmap string string :=
  {[ "participant_id" := "7"; "nom" := "   "; "prenom" := " Xavière ";
     "type_public" := " s "; "quartier_id" := "abc" ]}.

(** The appointments of atelier 5: two in March 2024, the second one
    without presence, one in April 2024 and one in February 2024. *)
Definition sample_rdv : Rdv.tables := {|
  Rdv.t_sessions :=
    [Rdv.mk_session 30 (Some 5) (Some "INDIVIDUEL_MENSUEL") false
       (Some (d 2024 3 21)) (Some "14:00") (Some "14:30");
     Rdv.mk_session 31 (Some 5) (Some "INDIVIDUEL_MENSUEL") false
       (Some (d 2024 3 7)) (Some "10:00") None;
     Rdv.mk_session 32 (Some 5) (Some "INDIVIDUEL_MENSUEL") false
       (Some (d 2024 4 2)) None None;
     Rdv.mk_session 33 (Some 5) (Some "INDIVIDUEL_MENSUEL") false
       (Some (d 2024 2 27)) None None];
  Rdv.t_presences :=
    [Rdv.mk_presence 300 (Some 30) (Some 7) (Some "CV") (Some "lettre") None;
     Rdv.mk_presence 301 (Some 32) (Some 7) None None None];
  Rdv.t_participants :=
    [Csv.mk_participant 7 (Some "Martin") (Some "Xavier") None None
       (Some "Creil") (Some "H") None (Some (d 1980 7 14))] |}.

(** * Properties *)

(** ** Sorting keeps the rows *)

Section order_by_facts.
Context {A : Type} (le : A → A → bool).

Lemma insert_sorted_perm x l : insert_sorted le x l ≡ₚ x :: l.
Proof.
  induction l as [|y l IH]; simpl; [done|].
  destruct (le x y); [done|].
  rewrite IH. apply Permutation_swap.
Qed.

Lemma order_by_perm l : order_by le l ≡ₚ l.
Proof.
  induction l as [|x l IH]; simpl; [done|].
  by rewrite insert_sorted_perm, IH.
Qed.

Lemma elem_of_order_by x l : x ∈ order_by le l ↔ x ∈ l.
Proof. by rewrite order_by_perm. Qed.

Lemma length_order_by l : length (order_by le l) = length l.
Proof. by rewrite order_by_perm. Qed.
End order_by_facts.

Lemma str_truthy_ne s : s ≠ "" → str_truthy s = true.
Proof.
  intros Hs. unfold str_truthy.
  destruct (String.eqb_spec s ""); [done|reflexivity].
Qed.

Lemma filter_none {A} (P : A → Prop) `{∀ x, Decision (P x)} (l : list A) :
  (∀ x, x ∈ l → ¬ P x) → filter P l = [].
Proof.
  induction l as [|x l IH]; intros Hl; [done|].
  rewrite filter_cons_False by (apply Hl; left).
  apply IH. intros y Hy. apply Hl. by right.
Qed.

Lemma sql_in_true (a : option Z) (l : list Z) :
  sql_in a l = true ↔ ∃ c, c ∈ l ∧ a = Some c.
Proof.
  unfold sql_in. destruct a as [v|].
  - rewrite bool_decide_eq_true. split; [eauto|]. by intros (c & Hc & [= ->]).
  - split; [done|]. by intros (c & _ & ?).
Qed.

Lemma sql_eq_true {A} `{EqDecision A} (a : option A) (b : A) :
  sql_eq a b = true ↔ a = Some b.
Proof. unfold sql_eq. apply bool_decide_eq_true. Qed.

(** ** Scope enforcement *)






(** ** The synthesis keeps every atelier *)

Lemma elem_of_ateliers_in_scope eff db a :
  a ∈ ateliers_in_scope eff db ↔ atelier_in_scope eff a = true ∧ a ∈ ateliers db.
Proof.
  unfold ateliers_in_scope.
  rewrite elem_of_order_by, list_elem_of_filter.
  by rewrite Is_true_true.
Qed.

Lemma atelier_in_scope_intro eff a :
  AtelierActivite.is_deleted a = false →
  opt_truthy eff = false ∨ AtelierActivite.secteur a = eff →
  atelier_in_scope eff a = true.
Proof.
  intros Hdel Hsec. unfold atelier_in_scope. rewrite Hdel. simpl.
  destruct eff as [e|]; [|done].
  destruct (str_truthy e) eqn:He; [|done].
  destruct Hsec as [Hf | ->]; [simpl in Hf; congruence|].
  unfold sql_eq. by apply bool_decide_eq_true.
Qed.

Lemma sessions_in_period_nil flt db at_ :
  (∀ s, s ∈ sessions db →
        SessionActivite.atelier_id s = Some (AtelierActivite.id at_) →
        in_period flt s = false) →
  sessions_in_period flt db at_ = [].
Proof.
  intros Hnone. unfold sessions_in_period.
  rewrite filter_none; [done|].
  intros s Hs [Hat Hin]%Is_true_true%andb_true_iff.
  unfold sql_eq in Hat. apply bool_decide_eq_true in Hat.
  rewrite (Hnone s Hs Hat) in Hin. discriminate.
Qed.

(** C7.  An atelier that is not soft-deleted and lies in the effective
    sector scope, without any session dated in the filtered period, has
    its row in the synthesis, with five zero counts. *)
Theorem empty_atelier_in_synthesis (flt : Filters) (u : User) (db : DB)
    (at_ : AtelierActivite.t) :
  at_ ∈ ateliers db →
  AtelierActivite.is_deleted at_ = false →
  (opt_truthy (eff_secteur flt u) = false
   ∨ AtelierActivite.secteur at_ = eff_secteur flt u) →
  (∀ s, s ∈ sessions db →
        SessionActivite.atelier_id s = Some (AtelierActivite.id at_) →
        in_period flt s = false) →
  [cell_of (AtelierActivite.secteur at_); cell_of (AtelierActivite.nom at_);
   CInt 0; CInt 0; CInt 0; CInt 0; CInt 0]
  ∈ rows (ws0 (_build_magato_per_atelier_workbook flt u db)).
Proof.
  intros Hin Hdel Hsec Hnone.
  unfold _build_magato_per_atelier_workbook. simpl.
  do 2 right. apply list_elem_of_fmap.
  exists (process_atelier flt db at_). split.
  - unfold process_atelier. by rewrite sessions_in_period_nil.
  - apply list_elem_of_fmap. exists at_. split; [done|].
    apply elem_of_ateliers_in_scope. split; [|done].
    by apply atelier_in_scope_intro.
Qed.

Lemma empty_atelier_in_synthesis_witness :
  [CStr "Nord"; CStr "Couture"; CInt 0; CInt 0; CInt 0; CInt 0; CInt 0]
  ∈ rows (ws0 (_build_magato_per_atelier_workbook (year_2024 (Some "Sud"))
                 resp_nord sample_db)).
Proof.
  apply (empty_atelier_in_synthesis (year_2024 (Some "Sud")) resp_nord sample_db
           (AtelierActivite.mk 3 (Some "Nord") (Some "Couture") false)).
  - do 2 right. left.
  - reflexivity.
  - right. reflexivity.
  - intros s Hs Hat.
    repeat (apply elem_of_cons in Hs as [-> | Hs]; [by vm_compute in Hat |- * |]).
    by apply elem_of_nil in Hs.
Defined.

(** ** The attendance matrix *)

Lemma matrix_fold_length (pid : Z) (present : gset (Z * Z)) (l : list (Z * nat))
    (row : list cell) :
  length (foldl (λ row e,
                   if bool_decide ((pid, e.1) ∈ present)
                   then <[(2 + e.2)%nat := CStr "1"]> row else row) row l)
  = length row.
Proof.
  revert row. induction l as [|e l IH]; intros row; simpl; [done|].
  rewrite IH. case_bool_decide; [apply length_insert | done].
Qed.

Lemma matrix_fold_marked (pid : Z) (present : gset (Z * Z)) (l : list (Z * nat))
    (row : list cell) (k : nat) :
  foldl (λ row e,
           if bool_decide ((pid, e.1) ∈ present)
           then <[(2 + e.2)%nat := CStr "1"]> row else row) row l !! k
  = Some (CStr "1") →
  row !! k = Some (CStr "1")
  ∨ ∃ e, e ∈ l ∧ k = (2 + e.2)%nat ∧ (pid, e.1) ∈ present.
Proof.
  revert row. induction l as [|e l IH]; intros row; simpl; [by left|].
  intros H. apply IH in H as [H | (e' & He' & Hk & Hp)].
  - case_bool_decide as Hin; [|by left].
    destruct (decide (k = (2 + e.2)%nat)) as [-> | Hne].
    + right. exists e. split; [left|done].
    + left. by rewrite list_lookup_insert_ne in H.
  - right. exists e'. split; [by right | done].
Qed.

Lemma matrix_row_length n idx present part :
  length (matrix_row n idx present part) = (2 + n)%nat.
Proof.
  unfold matrix_row. rewrite matrix_fold_length. simpl.
  by rewrite length_replicate.
Qed.

Lemma matrix_row_marked n (idx : gmap Z nat) present part j :
  matrix_row n idx present part !! (2 + j)%nat = Some (CStr "1") →
  ∃ sid, idx !! sid = Some j ∧ (part.1.1, sid) ∈ present.
Proof.
  unfold matrix_row. intros H.
  apply matrix_fold_marked in H as [H | ([sid i] & He & Hk & Hp)].
  - simpl in H. apply lookup_replicate in H as [H _]. discriminate.
  - exists sid. simpl in *. apply elem_of_map_to_list in He.
    assert (j = i) as -> by lia. done.
Qed.

Lemma sid_index_fold (l : list (nat * SessionActivite.t)) (m : gmap Z nat)
    (P : Z → nat → Prop) :
  (∀ sid j, m !! sid = Some j → P sid j) →
  (∀ e, e ∈ l → P (SessionActivite.id e.2) e.1) →
  ∀ sid j,
    foldl (λ m e, <[SessionActivite.id e.2 := e.1]> m) m l !! sid = Some j →
    P sid j.
Proof.
  revert m. induction l as [|e l IH]; intros m Hm Hl sid j; simpl; [apply Hm|].
  apply IH.
  - intros sid' j'. rewrite lookup_insert.
    case_decide as Heq.
    + intros [= <-]. subst sid'. apply Hl. left.
    + apply Hm.
  - intros e' He'. apply Hl. by right.
Qed.

Lemma sid_index_of_lookup (sessions : list SessionActivite.t) sid j :
  sid_index_of sessions !! sid = Some j →
  ∃ s, sessions !! j = Some s ∧ SessionActivite.id s = sid.
Proof.
  unfold sid_index_of.
  apply (sid_index_fold _ ∅
           (λ sid j, ∃ s, sessions !! j = Some s ∧ SessionActivite.id s = sid)).
  - intros sid' j'. by rewrite lookup_empty.
  - intros [i s] (i' & s' & [= -> ->] & Hs)%elem_of_lookup_imap. simpl. eauto.
Qed.

Lemma present_of_presence session_ids db p s :
  (p, s) ∈ present_of (pres_rows_of session_ids db) →
  ∃ pr, pr ∈ presences db
        ∧ PresenceActivite.participant_id pr = Some p
        ∧ PresenceActivite.session_id pr = Some s.
Proof.
  unfold present_of. rewrite elem_of_list_to_set, list_elem_of_omap.
  intros ([op os] & Hrow & Hboth).
  destruct op as [p'|], os as [s'|]; simplify_eq/=.
  unfold pres_rows_of in Hrow. apply list_elem_of_fmap in Hrow as (pr & [= Hp Hs] & Hpr).
  unfold presences_in in Hpr. apply list_elem_of_filter in Hpr as [_ Hpr].
  exists pr. eauto.
Qed.

Lemma parts_of_nil db : parts_of [] db = [].
Proof.
  unfold parts_of. rewrite filter_none; [done|].
  intros p _ H%Is_true_true%bool_decide_eq_true. by apply elem_of_nil in H.
Qed.

Lemma pid_set_of_nil : pid_set_of [] = [].
Proof. reflexivity. Qed.

(** The rows of the sheet created for an atelier. *)
Lemma process_atelier_sheet flt db at_ summary sh :
  process_atelier flt db at_ = (summary, Some sh) →
  rows sh
  = [sheet_title_row at_; headers_of (sessions_in_period flt db at_)]
      ++ (matrix_row (length (sessions_in_period flt db at_))
            (sid_index_of (sessions_in_period flt db at_))
            (present_of
               (pres_rows_of (SessionActivite.id <$> sessions_in_period flt db at_) db))
            <$> atelier_parts flt db at_).
Proof.
  unfold process_atelier, atelier_parts.
  destruct (sessions_in_period flt db at_) as [|s0 ss] eqn:Hss; [done|].
  destruct (pres_rows_of _ db) as [|r0 rs] eqn:Hrows.
  - intros [= _ <-]. simpl. by rewrite pid_set_of_nil, parts_of_nil.
  - by intros [= _ <-].
Qed.

(** C8.  Every sheet of the export belongs to an atelier of the
    database; below its two header rows it has one row per participant
    kept for that atelier and, after the two name cells, one cell per
    session kept, so a participant or a session outside these lists has
    no cell; and a cell marked ["1"] at row [i], column [j] stands for a
    presence row of the database linking the [i]-th participant to the
    [j]-th session. *)
Theorem matrix_cells_are_presences (flt : Filters) (u : User) (db : DB) (sh : Sheet) :
  sh ∈ sheets (_build_magato_per_atelier_workbook flt u db) →
  ∃ at_, at_ ∈ ateliers db ∧
    let sessions := sessions_in_period flt db at_ in
    let parts := atelier_parts flt db at_ in
    length (rows sh) = (2 + length parts)%nat
    ∧ (∀ i row, rows sh !! (2 + i)%nat = Some row →
                length row = (2 + length sessions)%nat)
    ∧ (∀ i j row,
         rows sh !! (2 + i)%nat = Some row →
         row !! (2 + j)%nat = Some (CStr "1") →
         ∃ part s pr,
           parts !! i = Some part ∧ sessions !! j = Some s ∧ pr ∈ presences db
           ∧ PresenceActivite.participant_id pr = Some part.1.1
           ∧ PresenceActivite.session_id pr = Some (SessionActivite.id s)).
Proof.
  unfold _build_magato_per_atelier_workbook. simpl.
  rewrite list_elem_of_omap. intros ([summary osh] & Hres & Hsh).
  simpl in Hsh. subst osh.
  apply list_elem_of_fmap in Hres as (at_ & Hpa & Hat).
  apply elem_of_ateliers_in_scope in Hat as [_ Hat].
  symmetry in Hpa. apply process_atelier_sheet in Hpa.
  exists at_. split; [done|]. simpl. rewrite Hpa. split; [|split].
  - simpl. by rewrite length_fmap.
  - intros i row. simpl. rewrite list_lookup_fmap.
    destruct (atelier_parts flt db at_ !! i) as [part|]; [|done].
    intros [= <-]. apply matrix_row_length.
  - intros i j row. simpl. rewrite list_lookup_fmap.
    destruct (atelier_parts flt db at_ !! i) as [part|] eqn:Hpart; [|done].
    intros [= <-] Hcell.
    apply matrix_row_marked in Hcell as (sid & Hidx & Hpres).
    apply sid_index_of_lookup in Hidx as (s & Hs & <-).
    apply present_of_presence in Hpres as (pr & Hpr & Hp & Hsid).
    exists part, s, pr. eauto 10.
Qed.

Lemma matrix_cells_are_presences_witness :
  ∃ at_, at_ ∈ ateliers sample_db ∧
    let sessions := sessions_in_period (year_2024 None) sample_db at_ in
    let parts := atelier_parts (year_2024 None) sample_db at_ in
    length (rows sample_sheet) = (2 + length parts)%nat
    ∧ (∀ i row, rows sample_sheet !! (2 + i)%nat = Some row →
                length row = (2 + length sessions)%nat)
    ∧ (∀ i j row,
         rows sample_sheet !! (2 + i)%nat = Some row →
         row !! (2 + j)%nat = Some (CStr "1") →
         ∃ part s pr,
           parts !! i = Some part ∧ sessions !! j = Some s
           ∧ pr ∈ presences sample_db
           ∧ PresenceActivite.participant_id pr = Some part.1.1
           ∧ PresenceActivite.session_id pr = Some (SessionActivite.id s)).
Proof.
  apply (matrix_cells_are_presences (year_2024 None) resp_nord sample_db sample_sheet).
  vm_compute. left.
Defined.

(** ** New and recurring participants *)

Lemma date_min_cases a b : date_min a b = a ∨ date_min a b = b.
Proof. unfold date_min. destruct (date_leb a b); auto. Qed.

Lemma min_dates_elem l fd : min_dates l = Some fd → fd ∈ l.
Proof.
  destruct l as [|d0 l]; [done|]. simpl. intros [= <-].
  induction l as [|x l IH]; simpl; [left|].
  destruct (date_min_cases x (foldr date_min d0 l)) as [-> | ->].
  - right. left.
  - apply elem_of_cons in IH as [-> | IH]; [left | do 2 right; done].
Qed.

Lemma NoDup_fmap_eq {A B} (f : A → B) (l : list A) x y :
  NoDup (f <$> l) → x ∈ l → y ∈ l → f x = f y → x = y.
Proof.
  induction l as [|a l IH]; intros Hnd Hx Hy Hf; [by apply elem_of_nil in Hx|].
  rewrite fmap_cons in Hnd. apply NoDup_cons in Hnd as [Hna Hnd].
  apply elem_of_cons in Hx as [-> | Hx]; apply elem_of_cons in Hy as [-> | Hy].
  - done.
  - destruct Hna. rewrite Hf. by apply list_elem_of_fmap_2.
  - destruct Hna. rewrite <- Hf. by apply list_elem_of_fmap_2.
  - by apply IH.
Qed.

Lemma elem_of_sessions_in_period flt db at_ s :
  s ∈ sessions_in_period flt db at_
  ↔ SessionActivite.atelier_id s = Some (AtelierActivite.id at_)
    ∧ in_period flt s = true ∧ s ∈ sessions db.
Proof.
  unfold sessions_in_period.
  rewrite elem_of_order_by, list_elem_of_filter, Is_true_true, andb_true_iff,
    sql_eq_true.
  tauto.
Qed.

Lemma elem_of_presences_in session_ids db pr :
  pr ∈ presences_in session_ids db
  ↔ (∃ sid, sid ∈ session_ids ∧ PresenceActivite.session_id pr = Some sid)
    ∧ pr ∈ presences db.
Proof.
  unfold presences_in.
  by rewrite list_elem_of_filter, Is_true_true, sql_in_true.
Qed.

Lemma elem_of_joined session_ids db pr s :
  (pr, s) ∈ joined session_ids db
  ↔ pr ∈ presences_in session_ids db
    ∧ s ∈ sessions db
    ∧ PresenceActivite.session_id pr = Some (SessionActivite.id s).
Proof.
  unfold joined. rewrite list_elem_of_bind. split.
  - intros (pr' & H & Hpr).
    apply list_elem_of_bind in H as (s' & H & Hs).
    apply list_elem_of_singleton in H as [= -> ->].
    apply list_elem_of_filter in Hs as [Hid%Is_true_true%sql_eq_true Hs]. done.
  - intros (Hpr & Hs & Hid). exists pr. split; [|done].
    apply list_elem_of_bind. exists s. split; [by apply list_elem_of_singleton|].
    apply list_elem_of_filter. split; [|done].
    by apply Is_true_true, sql_eq_true.
Qed.

Lemma elem_of_pid_set_of pres_rows pid :
  pid ∈ pid_set_of pres_rows ↔ ∃ sid, (Some pid, sid) ∈ pres_rows.
Proof.
  unfold pid_set_of.
  rewrite elem_of_order_by, elem_of_elements, elem_of_list_to_set, list_elem_of_omap.
  split.
  - intros ([p s] & H & Hp). simpl in Hp. subst p. eauto.
  - intros (sid & H). exists (Some pid, sid). done.
Qed.

Lemma c_map_of_lookup counts pid e :
  c_map_of counts !! pid = Some e →
  ∃ r, r ∈ counts ∧ r.1.1 = Some pid ∧ e = (r.1.2, r.2).
Proof.
  unfold c_map_of.
  assert (H : ∀ (m : gmap Z (Z * option date)),
             (∀ e, m !! pid = Some e →
                   ∃ r, r ∈ counts ∧ r.1.1 = Some pid ∧ e = (r.1.2, r.2)) →
             ∀ l, (∀ r, r ∈ l → r ∈ counts) →
             ∀ e, foldl (λ m r, match r.1.1 with
                                | Some pid => <[pid := (r.1.2, r.2)]> m
                                | None => m
                                end) m l !! pid = Some e →
                  ∃ r, r ∈ counts ∧ r.1.1 = Some pid ∧ e = (r.1.2, r.2)).
  { intros m Hm l. revert m Hm.
    induction l as [|r l IH]; intros m Hm Hl e'; simpl; [apply Hm|].
    apply IH; [|intros r' Hr'; apply Hl; by right].
    destruct (r.1.1) as [p|] eqn:Hp; [|done].
    intros e''. rewrite lookup_insert. case_decide as Heq; [|apply Hm].
    intros [= <-]. subst p. exists r. split; [apply Hl; left | done]. }
  apply (H ∅); [by intros ?; rewrite lookup_empty | done].
Qed.

Lemma c_map_of_is_Some counts pid :
  (∃ r, r ∈ counts ∧ r.1.1 = Some pid) → is_Some (c_map_of counts !! pid).
Proof.
  unfold c_map_of.
  assert (H : ∀ l (m : gmap Z (Z * option date)),
             is_Some (m !! pid) ∨ (∃ r, r ∈ l ∧ r.1.1 = Some pid) →
             is_Some (foldl (λ m r, match r.1.1 with
                                    | Some pid => <[pid := (r.1.2, r.2)]> m
                                    | None => m
                                    end) m l !! pid)).
  { induction l as [|r l IH]; intros m [Hm | (r' & Hr' & Hp)]; simpl.
    - done.
    - by apply elem_of_nil in Hr'.
    - apply IH. left. destruct (r.1.1) as [p|]; [|done].
      rewrite lookup_insert. by case_decide.
    - apply elem_of_cons in Hr' as [-> | Hr'].
      + apply IH. left. rewrite Hp. by rewrite lookup_insert_eq.
      + apply IH. right. eauto. }
  intros Hr. apply H. by right.
Qed.

Lemma in_period_bounds flt s df dt :
  date_from flt = Some df → date_to flt = Some dt → in_period flt s = true →
  ∃ d0, session_date s = Some d0 ∧ date_leb df d0 = true ∧ date_leb d0 dt = true.
Proof.
  intros Hf Ht. unfold in_period. rewrite Hf, Ht, andb_true_iff.
  unfold sql_ge, sql_le. destruct (session_date s) as [d0|]; [|by intros []].
  intros []. eauto.
Qed.

Lemma kpi_new_all flt c_map (pid_set : list Z) :
  (∀ pid, pid ∈ pid_set → is_new flt c_map pid = true) →
  (kpi flt c_map pid_set).1 = Z.of_nat (length pid_set).
Proof.
  unfold kpi. intros Hall.
  assert (H : ∀ acc : Z * Z,
            (foldl (λ acc pid,
                      (if is_new flt c_map pid then acc.1 + 1 else acc.1,
                       if is_recurring c_map pid then acc.2 + 1 else acc.2))
                   acc pid_set).1 = acc.1 + Z.of_nat (length pid_set)).
  { induction pid_set as [|p l IH]; intros acc; simpl; [lia|].
    rewrite IH by (intros q Hq; apply Hall; by right). simpl.
    rewrite (Hall p) by left. lia. }
  by rewrite H.
Qed.

(** With both bounds of the period present and session ids that are a
    key, every participant of the period passes the test of
    [new_count]: the column Nouveaux repeats the column of the unique
    participants. *)
Theorem new_count_is_unique_count flt db at_ df dt :
  date_from flt = Some df →
  date_to flt = Some dt →
  NoDup (SessionActivite.id <$> sessions db) →
  let session_ids := SessionActivite.id <$> sessions_in_period flt db at_ in
  let pid_set := pid_set_of (pres_rows_of session_ids db) in
  (kpi flt (c_map_of (counts_of session_ids db)) pid_set).1
  = Z.of_nat (length pid_set).
Proof.
  intros Hf Ht Hkey session_ids pid_set. apply kpi_new_all.
  intros pid (sid & Hrow)%elem_of_pid_set_of.
  apply list_elem_of_fmap in Hrow as (pr & [= Hpid Hsid] & Hpr).
  pose proof Hpr as Hpr'.
  apply elem_of_presences_in in Hpr' as [(sid' & Hsid' & Hprs) _].
  apply list_elem_of_fmap in Hsid' as (s & -> & Hs).
  pose proof Hs as Hs'.
  apply elem_of_sessions_in_period in Hs' as (_ & _ & Hsdb).
  assert (Hj : (pr, s) ∈ joined session_ids db) by (by apply elem_of_joined).
  (* every joined row is dated inside the period *)
  assert (Hdates : ∀ r, r ∈ joined session_ids db →
            ∃ d0, session_date r.2 = Some d0
                  ∧ date_leb df d0 = true ∧ date_leb d0 dt = true).
  { intros [pr1 s1] (Hpr1 & Hs1 & Hid1)%elem_of_joined.
    apply elem_of_presences_in in Hpr1 as [(sid1 & Hin1 & Hprs1) _].
    apply list_elem_of_fmap in Hin1 as (s2 & -> & Hs2).
    apply elem_of_sessions_in_period in Hs2 as (_ & Hper & Hs2).
    assert (s2 = s1) as ->.
    { apply (NoDup_fmap_eq SessionActivite.id (sessions db)); [done..|congruence]. }
    by apply (in_period_bounds flt s1 df dt). }
  (* the row of the grouped query for this participant *)
  set (g := filter (λ r : PresenceActivite.t * SessionActivite.t,
                      bool_decide (PresenceActivite.participant_id r.1 = Some pid))
                   (joined session_ids db)).
  assert (Hg : (pr, s) ∈ g).
  { apply list_elem_of_filter. split; [|done].
    apply Is_true_true, bool_decide_eq_true. by simpl. }
  assert (Hrow : (Some pid, Z.of_nat (length g),
                  min_dates (omap (λ r, session_date r.2) g))
                 ∈ counts_of session_ids db).
  { unfold counts_of. apply list_elem_of_fmap. exists (Some pid). split; [done|].
    apply elem_of_remove_dups, list_elem_of_fmap. exists (pr, s). done. }
  destruct (c_map_of_is_Some (counts_of session_ids db) pid) as [e He]; [eauto|].
  apply c_map_of_lookup in He as Hr. destruct Hr as (r & Hr & Hrp & ->).
  unfold counts_of in Hr. apply list_elem_of_fmap in Hr as (p' & -> & _).
  simpl in Hrp. subst p'. fold g in He.
  unfold is_new, first_of. rewrite He, Hf, Ht. simpl.
  destruct (Hdates _ Hj) as (d0 & Hd0 & _).
  destruct (min_dates (omap (λ r, session_date r.2) g)) as [fd|] eqn:Hmin.
  - apply min_dates_elem in Hmin.
    apply list_elem_of_omap in Hmin as (r & Hr & Hdate).
    apply list_elem_of_filter in Hr as [_ Hr].
    destruct (Hdates r Hr) as (d1 & Hd1 & Hlo & Hhi).
    rewrite Hd1 in Hdate. injection Hdate as <-. by rewrite Hlo, Hhi.
  - exfalso. unfold min_dates in Hmin.
    destruct (omap (λ r, session_date r.2) g) as [|x l] eqn:Ho; [|done].
    assert (d0 ∈ omap (λ r, session_date r.2) g)
      by (apply list_elem_of_omap; exists (pr, s); done).
    rewrite Ho in H. by apply elem_of_nil in H.
Qed.

Lemma new_count_is_unique_count_witness :
  let at_ := AtelierActivite.mk 1 (Some "Nord") (Some "Informatique") false in
  let session_ids :=
    SessionActivite.id <$> sessions_in_period (year_2024 None) sample_db at_ in
  let pid_set := pid_set_of (pres_rows_of session_ids sample_db) in
  (kpi (year_2024 None) (c_map_of (counts_of session_ids sample_db)) pid_set).1 = 3
  ∧ length pid_set = 3%nat.
Proof.
  intros at_ session_ids pid_set.
  assert (Hlen : length pid_set = 3%nat) by reflexivity.
  split; [|exact Hlen].
  pose proof (new_count_is_unique_count (year_2024 None) sample_db at_
                (d 2024 1 1) (d 2024 12 31) eq_refl eq_refl) as H.
  cbv zeta in H. fold session_ids pid_set in H.
  rewrite H, Hlen; [reflexivity|].
  refine (bool_decide_unpack _ _). vm_compute. exact I.
Defined.

(** C5, the code at a participant with a visit in 2023 and a visit in
    2024, filtered on 2024: the synthesis counts one new participant and
    no recurring one, although the participant has two presences in the
    atelier and first came in 2023. *)
Lemma kpi_restricted_to_period :
  rows (ws0 (_build_magato_per_atelier_workbook (year_2024 None) resp_nord history_db))
  = synthese_header
      ++ [[CStr "Nord"; CStr "Informatique"; CInt 1; CInt 1; CInt 1; CInt 1; CInt 0]]
  ∧ spec_recurring history_db
      (AtelierActivite.mk 1 (Some "Nord") (Some "Informatique") false) 7 = true
  ∧ spec_new (year_2024 None) history_db
      (AtelierActivite.mk 1 (Some "Nord") (Some "Informatique") false) 7 = false.
Proof. vm_compute. repeat split. Qed.

(** ** Size caps of the export *)

Lemma clamp_bounds lo hi v : lo ≤ hi → lo ≤ clamp lo hi v ≤ hi.
Proof. unfold clamp. lia. Qed.

Lemma export_caps_ok raw_sessions raw_participants :
  ∃ max_sessions max_participants,
    export_caps raw_sessions raw_participants = Ok (max_sessions, max_participants)
    ∧ 5 ≤ max_sessions ≤ 400
    ∧ 20 ≤ max_participants ≤ 5000
    ∧ (∀ e, int_arg raw_sessions 40 = Raise e → max_sessions = 40)
    ∧ (∀ e, int_arg raw_participants 250 = Raise e → max_participants = 250)
    ∧ (∀ v, int_arg raw_sessions 40 = Ok v → max_sessions = clamp 5 400 v)
    ∧ (∀ v, int_arg raw_participants 250 = Ok v → max_participants = clamp 20 5000 v).
Proof.
  unfold export_caps.
  destruct (int_arg raw_sessions 40) as [vs|es];
    destruct (int_arg raw_participants 250) as [vp|ep]; simpl;
    eexists _, _; (split; [reflexivity|]);
    repeat split; try (apply clamp_bounds; lia); try (unfold clamp; lia);
    intros ? [=]; subst; reflexivity.
Qed.

(** C6.  Whatever the raw [max_sessions] and [max_participants] of the
    request, the export route computes its caps without raising; they
    lie in [5,400] and [20,5000]; a value that [int] rejects is replaced
    by 40, resp. 250, before the clamp, and a value that [int] accepts
    is clamped.  The route raises nothing: it answers 403, the
    per-atelier workbook, or the result of [compute_magatomatique]
    called with these caps. *)
Theorem export_caps_clamped {Table : Type}
    (compute_magatomatique : Filters → option string → string → Z → Z → DB → Table)
    (restricted : Table → bool)
    (u : User) (args : gmap string string) (flt : Filters) (db : DB) :
  ∃ max_sessions max_participants,
    export_caps (args !! "max_sessions") (args !! "max_participants")
    = Ok (max_sessions, max_participants)
    ∧ 5 ≤ max_sessions ≤ 400
    ∧ 20 ≤ max_participants ≤ 5000
    ∧ (∀ e, int_arg (args !! "max_sessions") 40 = Raise e → max_sessions = 40)
    ∧ (∀ e, int_arg (args !! "max_participants") 250 = Raise e →
            max_participants = 250)
    ∧ (∀ v, int_arg (args !! "max_sessions") 40 = Ok v →
            max_sessions = clamp 5 400 v)
    ∧ (∀ v, int_arg (args !! "max_participants") 250 = Ok v →
            max_participants = clamp 20 5000 v)
    ∧ (magatomatique_export compute_magatomatique restricted u args flt db
       = Ok (Aborted 403)
       ∨ magatomatique_export compute_magatomatique restricted u args flt db
         = Ok (Served (ExportPerAtelier (_build_magato_per_atelier_workbook flt u db)))
       ∨ magatomatique_export compute_magatomatique restricted u args flt db
         = Ok (Served (ExportFlat
                         (compute_magatomatique flt (arg_participant_q args)
                            (arg_lower args "magato_view" "macro")
                            max_sessions max_participants db)))).
Proof.
  destruct (export_caps_ok (args !! "max_sessions") (args !! "max_participants"))
    as (ms & mp & Hcaps & H1 & H2 & H3 & H4 & H5 & H6).
  exists ms, mp. repeat (split; [assumption|]).
  unfold magatomatique_export. rewrite Hcaps.
  destruct (_can_view u); simpl; [|by left].
  case_bool_decide; [by right; left|].
  destruct (restricted _); [by left | by right; right].
Qed.

(** ** The default period of the dashboard *)

Lemma dashboard_caps_ok raw_sessions raw_participants :
  ∃ caps, dashboard_caps raw_sessions raw_participants = Ok caps.
Proof.
  unfold dashboard_caps.
  destruct (int_arg raw_sessions 40); destruct (int_arg raw_participants 250);
    simpl; eauto.
Qed.

(** C9.  When the caller may view the dashboard and the normalized
    filter has neither [date_from] nor [date_to], a GET is served and
    every aggregation, the Magatomatique included when its tab is
    shown, receives the filter with the period set to the first of
    January and the thirty-first of December of today's year. *)
Theorem dashboard_defaults_to_current_year {Table : Type}
    (participants_stats volume frequency transversalite demography occupancy
       : Filters → DB → Table)
    (magatomatique : Filters → option string → string → Z → Z → DB → Table)
    (u : User) (today : date) (args : gmap string string) (flt : Filters) (db : DB) :
  _can_view u = true →
  date_from flt = None →
  date_to flt = None →
  let flt' := {| secteur := secteur flt;
                 date_from := Some (mkdate (year today) 1 1);
                 date_to := Some (mkdate (year today) 12 31) |} in
  ∃ magato,
    dashboard_get participants_stats volume frequency transversalite demography
      occupancy magatomatique u today args flt db
    = Ok (Served {| ctx_flt := flt';
                    ctx_stats := volume flt' db;
                    ctx_freq := frequency flt' db;
                    ctx_trans := transversalite flt' db;
                    ctx_demo := demography flt' db;
                    ctx_occupancy := occupancy flt' db;
                    ctx_participants := participants_stats flt' db;
                    ctx_magato := magato |})
    ∧ (∀ m, magato = Some m →
            ∃ max_sessions max_participants,
              m = magatomatique flt' (arg_participant_q args)
                    (arg_lower args "magato_view" "macro")
                    max_sessions max_participants db).
Proof.
  intros Hview Hfrom Hto flt'. unfold dashboard_get, dashboard_filters.
  rewrite Hview, Hfrom, Hto. simpl. fold flt'.
  case_bool_decide.
  - destruct (dashboard_caps_ok (args !! "max_sessions") (args !! "max_participants"))
      as [caps ->]. simpl.
    eexists. split; [reflexivity|]. intros m [= <-]. eauto.
  - simpl. eexists. split; [reflexivity|]. done.
Qed.

Lemma dashboard_defaults_to_current_year_witness :
  let viewer := mkUser (Some "Nord") (λ c, String.eqb c "statsimpact:view") in
  let engine := λ (f : Filters) (_ : DB), (date_from f, date_to f) in
  let magato := λ (f : Filters) (_ : option string) (_ : string) (_ _ : Z) (_ : DB),
                  (date_from f, date_to f) in
  let period := (Some (d 2026 1 1), Some (d 2026 12 31)) in
  _can_view viewer = true
  ∧ ∃ m,
      dashboard_get engine engine engine engine engine engine magato viewer
        (d 2026 11 4) {[ "tab" := "magato" ]} (mkFilters (Some "Nord") None None)
        sample_db
      = Ok (Served
              (mkDashboard (mkFilters (Some "Nord") (Some (d 2026 1 1))
                              (Some (d 2026 12 31)))
                 period period period period period period m))
      ∧ (∀ x, m = Some x → ∃ max_sessions max_participants : Z, x = period).
Proof.
  intros viewer engine magato period. split; [reflexivity|].
  apply (dashboard_defaults_to_current_year engine engine engine engine engine
           engine magato viewer (d 2026 11 4) {[ "tab" := "magato" ]}
           (mkFilters (Some "Nord") None None) sample_db); reflexivity.
Defined.

(** ** Deleting a participant *)


Lemma find_participant (l : list Participant.t) pid p :
  p ∈ l → Participant.id p = pid →
  is_Some (list_find (λ p : Participant.t, Participant.id p = pid) l).
Proof. intros Hp Hid. by eapply list_find_elem_of. Qed.






(** ** Objective roll-up *)

Lemma count_fold {A} (f : A → bool) (l : list A) (n : Z) :
  foldl (λ n x, if f x then n + 1 else n) n l
  = n + Z.of_nat (length (filter (λ x, f x) l)).
Proof.
  revert n. induction l as [|x l IH]; intros n; simpl; [lia|].
  rewrite IH. destruct (f x) eqn:Hf.
  - rewrite filter_cons_True by (by apply Is_true_true). simpl. lia.
  - rewrite filter_cons_False by (by apply Is_true_false). lia.
Qed.

Lemma filter_ext_in {A} (P1 P2 : A → Prop)
    `{!∀ x, Decision (P1 x), !∀ x, Decision (P2 x)} (l : list A) :
  (∀ x, x ∈ l → P1 x ↔ P2 x) → filter P1 l = filter P2 l.
Proof.
  induction l as [|a l IH]; intros Hext; [done|].
  assert (Ha : P1 a ↔ P2 a) by (apply Hext; left).
  assert (Hl : filter P1 l = filter P2 l)
    by (apply IH; intros x Hx; apply Hext; by right).
  destruct (decide (P1 a)).
  - rewrite !filter_cons_True by tauto. by rewrite Hl.
  - rewrite !filter_cons_False by tauto. done.
Qed.

Lemma elem_of_validated_evals db sid comp_ids pr e :
  e ∈ validated_evals db sid comp_ids pr
  ↔ e ∈ evaluations db
    ∧ Evaluation.session_id e = Some sid
    ∧ Evaluation.participant_id e = PresenceActivite.participant_id pr
    ∧ (∃ c, c ∈ comp_ids ∧ Evaluation.competence_id e = Some c)
    ∧ sql_ge_Z (Evaluation.etat e) 2 = true.
Proof.
  unfold validated_evals.
  rewrite elem_of_remove_dups, list_elem_of_filter, Is_true_true.
  rewrite !andb_true_iff, sql_eq_true, bool_decide_eq_true, sql_in_true.
  tauto.
Qed.

Lemma has_validated_true db sid pid c :
  has_validated db sid pid c = true
  ↔ ∃ e, e ∈ evaluations db
         ∧ Evaluation.session_id e = Some sid
         ∧ Evaluation.participant_id e = pid
         ∧ Evaluation.competence_id e = Some c
         ∧ sql_ge_Z (Evaluation.etat e) 2 = true.
Proof.
  unfold has_validated.
  rewrite <- Is_true_true, existb_True, Exists_exists.
  apply exist_proper. intros e. unfold is_validated_eval.
  rewrite Is_true_true, !andb_true_iff, !sql_eq_true, bool_decide_eq_true.
  tauto.
Qed.

(** With one row per validation, the rows counted for a presence are as
    many as the competences exactly when every competence is validated. *)
Lemma validated_evals_count db sid comp_ids pr :
  NoDup comp_ids →
  one_row_per_validation db sid →
  length (validated_evals db sid comp_ids pr) = length comp_ids
  ↔ ∀ c, c ∈ comp_ids →
         has_validated db sid (PresenceActivite.participant_id pr) c = true.
Proof.
  intros Hnd Huniq.
  set (E := validated_evals db sid comp_ids pr).
  set (cs := Evaluation.competence_id <$> E).
  set (k := Some <$> comp_ids).
  assert (Hk : NoDup k) by (by apply (NoDup_fmap_2 Some)).
  assert (Hcs : NoDup cs).
  { apply NoDup_fmap_2_strong; [|apply NoDup_remove_dups].
    intros e1 e2 H1 H2 Heq.
    apply elem_of_validated_evals in H1 as (? & ? & ? & _ & ?).
    apply elem_of_validated_evals in H2 as (? & ? & ? & _ & ?).
    apply Huniq; congruence. }
  assert (Hsub : ∀ x, x ∈ cs → x ∈ k).
  { intros x (e & -> & He)%list_elem_of_fmap.
    apply elem_of_validated_evals in He as (_ & _ & _ & (c & Hc & ->) & _).
    apply list_elem_of_fmap. eauto. }
  assert (Hlen_cs : length cs = length E) by apply length_fmap.
  assert (Hlen_k : length k = length comp_ids) by apply length_fmap.
  assert (Hcs_k : cs ⊆+ k) by (by apply NoDup_submseteq).
  rewrite <- Hlen_cs, <- Hlen_k. split.
  - intros Hlen c Hc.
    assert (Hperm : cs ≡ₚ k) by (apply submseteq_length_Permutation; [done|lia]).
    assert (Hin : Some c ∈ cs).
    { rewrite Hperm. apply list_elem_of_fmap. eauto. }
    apply list_elem_of_fmap in Hin as (e & Hce & He).
    apply elem_of_validated_evals in He as (? & ? & ? & _ & ?).
    apply has_validated_true. exists e. eauto.
  - intros Hall.
    assert (Hk_cs : k ⊆+ cs).
    { apply NoDup_submseteq; [done|].
      intros x (c & -> & Hc)%list_elem_of_fmap.
      destruct (proj1 (has_validated_true _ _ _ _) (Hall c Hc))
        as (e & He & Hs & Hp & Hcomp & Hetat).
      apply list_elem_of_fmap. exists e. split; [done|].
      apply elem_of_validated_evals. eauto 10. }
    apply submseteq_length in Hcs_k, Hk_cs. lia.
Qed.

Lemma validates_all_true db sid competences pr :
  validates_all db sid competences pr = true
  ↔ ∀ c, c ∈ Competence.id <$> competences →
         has_validated db sid (PresenceActivite.participant_id pr) c = true.
Proof.
  unfold validates_all.
  rewrite <- Is_true_true, forallb_True, Forall_forall. split.
  - intros H c (x & -> & Hx)%list_elem_of_fmap. apply Is_true_true. by apply H.
  - intros H x Hx. apply Is_true_true, H, list_elem_of_fmap. eauto.
Qed.

Lemma success_rate_total db sid competences :
  competences ≠ [] →
  st_total (_participants_success_rate db sid competences)
  = Z.of_nat (length (session_presences db sid)).
Proof.
  intros Hne. unfold _participants_success_rate.
  destruct competences as [|c0 cs]; [done|].
  destruct (Z.of_nat (length (session_presences db sid)) =? 0) eqn:Hz; [|done].
  apply Z.eqb_eq in Hz. by rewrite Hz.
Qed.

Lemma success_rate_success db sid competences :
  competences ≠ [] →
  NoDup (Competence.id <$> competences) →
  one_row_per_validation db sid →
  st_success (_participants_success_rate db sid competences)
  = spec_success db sid competences.
Proof.
  intros Hne Hnd Huniq. unfold _participants_success_rate, spec_success.
  destruct competences as [|c0 cs]; [done|].
  destruct (Z.of_nat (length (session_presences db sid)) =? 0) eqn:Hz.
  - apply Z.eqb_eq in Hz.
    destruct (session_presences db sid); [done|simpl in Hz; lia].
  - simpl st_success. rewrite count_fold, Z.add_0_l. do 2 f_equal.
    apply filter_ext_in. intros pr _.
    rewrite !Is_true_true, bool_decide_eq_true, validates_all_true.
    by apply validated_evals_count.
Qed.

Lemma success_rate_ratio db sid competences :
  st_ratio (_participants_success_rate db sid competences)
  = percent (st_success (_participants_success_rate db sid competences))
            (st_total (_participants_success_rate db sid competences)).
Proof.
  unfold _participants_success_rate.
  destruct competences as [|c0 cs]; [done|].
  by destruct (Z.of_nat (length (session_presences db sid)) =? 0).
Qed.

Lemma objective_success_operational db obj sid :
  operational_session obj = Some sid →
  _objective_success db obj
  = let stats := _participants_success_rate db sid (Objectif.competences obj) in
    mkResult (st_ratio stats)
             (reaches (st_ratio stats) (Objectif.seuil_validation obj))
             (st_total stats) (st_success stats).
Proof. intros H. destruct obj. simpl in *. by rewrite H. Qed.

(** C3 (amended).  For an operational objective, [ratio] is
    success/total x 100, 0 when [total] is 0, and [validated] tells
    whether [ratio] reaches the threshold.  Without competence the
    counts are 0.  With at least one competence, [total] is the number
    of presence rows of the session, and, when the competences are
    distinct and no validation is recorded twice, [success] is the
    number of those presences whose participant has a validated
    evaluation for every competence. *)
Theorem operational_objective_success (db : DB) (obj : Objectif.t) (sid : Z) :
  operational_session obj = Some sid →
  let r := _objective_success db obj in
  ratio r = percent (success r) (total r)
  ∧ validated r = reaches (ratio r) (Objectif.seuil_validation obj)
  ∧ (total r = 0 →
     ratio r = 0%float
     ∧ validated r = reaches 0 (Objectif.seuil_validation obj))
  ∧ (Objectif.competences obj = [] → total r = 0 ∧ success r = 0)
  ∧ (Objectif.competences obj ≠ [] →
     total r = Z.of_nat (length (session_presences db sid))
     ∧ (NoDup (Competence.id <$> Objectif.competences obj) →
        one_row_per_validation db sid →
        success r = spec_success db sid (Objectif.competences obj))).
Proof.
  intros Hop r. subst r. rewrite (objective_success_operational _ _ _ Hop).
  cbv zeta. simpl ratio. simpl validated. simpl total. simpl success.
  pose proof (success_rate_ratio db sid (Objectif.competences obj)) as Hratio.
  split; [done|]. split; [done|]. split; [|split].
  - intros Hz. rewrite Hratio, Hz. unfold percent. simpl. done.
  - intros ->. done.
  - intros Hne. split; [by apply success_rate_total|].
    intros Hnd Huniq. by apply success_rate_success.
Qed.

Lemma sample_one_row_per_validation : one_row_per_validation sample_db 10.
Proof.
  intros e1 e2 H1 H2 _ _ Hp Hc _ _.
  repeat (apply elem_of_cons in H1 as [-> | H1]);
    try (by apply elem_of_nil in H1);
    repeat (apply elem_of_cons in H2 as [-> | H2]);
    try (by apply elem_of_nil in H2);
    first [reflexivity | discriminate Hp | discriminate Hc].
Qed.

Lemma operational_objective_success_witness :
  operational_session obj_op = Some 10
  ∧ total (_objective_success sample_db obj_op) = 2
  ∧ success (_objective_success sample_db obj_op) = 1
  ∧ spec_success sample_db 10 [comp_a; comp_b] = 1.
Proof.
  split; [reflexivity|].
  destruct (operational_objective_success sample_db obj_op 10 eq_refl)
    as (_ & _ & _ & _ & H).
  destruct H as [Ht Hs]; [discriminate|].
  split; [exact Ht|].
  rewrite Hs.
  - split; reflexivity.
  - refine (bool_decide_unpack _ _). vm_compute. exact I.
  - exact sample_one_row_per_validation.
Defined.

(** C3 as written fails.  Session 10 has two presences, yet an
    operational objective on it without competence has [total = 0].
    And when a validation is recorded twice, a participant with two rows
    for one competence and none for the other is counted as a success. *)
Lemma operational_without_competence :
  operational_session obj_op_empty = Some 10
  ∧ Z.of_nat (length (session_presences sample_db 10)) = 2
  ∧ _objective_success sample_db obj_op_empty = mkResult 0 false 0 0
  ∧ operational_session obj_op = Some 10
  ∧ spec_success twice_db 10 (Objectif.competences obj_op) = 1
  ∧ success (_objective_success twice_db obj_op) = 2.
Proof. vm_compute. repeat split. Qed.

Lemma operational_session_none obj :
  Objectif.session_id obj = None → operational_session obj = None.
Proof.
  intros H. unfold operational_session. rewrite H.
  by destruct (String.eqb _ _).
Qed.

Lemma objective_success_composite db obj :
  operational_session obj = None →
  _objective_success db obj
  = match Objectif.enfants obj with
    | [] => mkResult 0 false 0 0
    | _ :: _ =>
        let results := _objective_success db <$> Objectif.enfants obj in
        let total := Z.of_nat (length results) in
        let success := Z.of_nat (length (filter (λ r, validated r = true) results)) in
        mkResult (percent success total)
                 (reaches (percent success total) (Objectif.seuil_validation obj))
                 total success
    end.
Proof. intros H. destruct obj. simpl in *. by rewrite H. Qed.

(** C4 (amended).  For an objective without session that has at least
    one child, [total] is the number of children, [success] the number
    of children whose own result is validated, [ratio] is
    success/total x 100 and [validated] tells whether [ratio] reaches
    the threshold; without child the result is all zero and not
    validated. *)
Theorem composite_objective_success (db : DB) (obj : Objectif.t) :
  Objectif.session_id obj = None →
  let r := _objective_success db obj in
  let children := _objective_success db <$> Objectif.enfants obj in
  (Objectif.enfants obj ≠ [] →
   total r = Z.of_nat (length (Objectif.enfants obj))
   ∧ success r = Z.of_nat (length (filter (λ c, validated c = true) children))
   ∧ ratio r = percent (success r) (total r)
   ∧ validated r = reaches (ratio r) (Objectif.seuil_validation obj))
  ∧ (Objectif.enfants obj = [] → r = mkResult 0 false 0 0).
Proof.
  intros Hsid r children. subst r children.
  rewrite (objective_success_composite _ _ (operational_session_none _ Hsid)).
  destruct (Objectif.enfants obj) as [|c0 cs] eqn:Henf; cbv zeta.
  - split; [done|]. done.
  - split; [|done]. intros _. simpl total. simpl success. simpl ratio.
    simpl validated. rewrite length_fmap. done.
Qed.

Lemma composite_objective_success_witness :
  Objectif.session_id obj_general = None
  ∧ total (_objective_success sample_db obj_general) = 2
  ∧ success (_objective_success sample_db obj_general) = 1
  ∧ validated (_objective_success sample_db obj_general) = true.
Proof.
  split; [reflexivity|].
  destruct (composite_objective_success sample_db obj_general eq_refl) as [H _].
  destruct H as (Ht & Hs & _ & Hv); [discriminate|].
  split; [exact Ht|]. split; [rewrite Hs; reflexivity|].
  rewrite Hv. vm_compute. reflexivity.
Defined.

(** C4 as written fails: without child and with no threshold the claim
    gives [validated = (0 >= 0)], which is true, and the code answers
    false. *)
Lemma childless_objective_not_validated :
  Objectif.session_id obj_childless = None
  ∧ Objectif.enfants obj_childless = []
  ∧ reaches 0 (Objectif.seuil_validation obj_childless) = true
  ∧ validated (_objective_success sample_db obj_childless) = false.
Proof. vm_compute. repeat split. Qed.

(** * Further properties of the routes *)

(** ** Sheet titles *)

Lemma chars_lstrip s c : c ∈ chars (lstrip s) → c ∈ chars s.
Proof.
  induction s as [|a s IH]; simpl; [done|].
  destruct (py_isspace a); [|done].
  intros H. right. by apply IH.
Qed.

Lemma chars_rstrip s c : c ∈ chars (rstrip s) → c ∈ chars s.
Proof.
  revert c. induction s as [|a s IH]; intros c; simpl; [done|].
  destruct (rstrip s) as [|b r] eqn:Hr.
  - destruct (py_isspace a); simpl; [by intros ?%elem_of_nil|].
    intros ->%list_elem_of_singleton. left.
  - simpl. intros [->|H]%elem_of_cons; [left|right]. apply IH. by simpl.
Qed.

Lemma chars_strip s c : c ∈ chars (strip s) → c ∈ chars s.
Proof. intros H. by apply chars_lstrip, chars_rstrip. Qed.

Lemma chars_string_filter f s c :
  c ∈ chars (string_filter f s) → f c = true ∧ c ∈ chars s.
Proof.
  induction s as [|a s IH]; simpl; [by intros ?%elem_of_nil|].
  destruct (f a) eqn:Hf; simpl.
  - intros [->|H]%elem_of_cons; [split; [done|left]|].
    destruct (IH H). split; [done|by right].
  - intros H. destruct (IH H). split; [done|by right].
Qed.

Lemma chars_substring n s c : c ∈ chars (String.substring 0 n s) → c ∈ chars s.
Proof.
  revert s. induction n as [|n IH]; intros [|a s]; simpl;
    try (by intros ?%elem_of_nil).
  intros [->|H]%elem_of_cons; [left|right]. by apply IH.
Qed.

Lemma length_substring n s : (String.length (String.substring 0 n s) ≤ n)%nat.
Proof.
  revert s. induction n as [|n IH]; intros [|a s]; simpl; try lia.
  specialize (IH s). lia.
Qed.

Lemma str_truthy_true s : str_truthy s = true → s ≠ "".
Proof. unfold str_truthy. by destruct (String.eqb_spec s ""). Qed.

(** X2.  With a fallback that is itself a valid title, the title
    computed for a sheet is never empty, never longer than 31 characters
    and free of the characters that openpyxl refuses, whatever the name
    of the atelier. *)
Theorem safe_sheet_title_valid (name fallback : string) :
  valid_sheet_title fallback →
  valid_sheet_title (_safe_sheet_title name fallback).
Proof.
  intros Hfb. unfold _safe_sheet_title.
  set (n := if str_truthy name then name else fallback).
  set (cleaned := strip (string_filter (λ c, bool_decide (c ∉ bad_chars)) n)).
  destruct (str_truthy cleaned) eqn:Hc; [|done].
  apply str_truthy_true in Hc. split; [|split].
  - destruct cleaned; [done|]. simpl. discriminate.
  - apply length_substring.
  - intros c Hin%chars_substring%chars_strip%chars_string_filter.
    destruct Hin as [Hok _]. by apply bool_decide_eq_true in Hok.
Qed.

Lemma safe_sheet_title_valid_witness :
  valid_sheet_title "Atelier"
  ∧ valid_sheet_title (_safe_sheet_title " [Couture] : lundi/mardi * ? " "Atelier")
  ∧ _safe_sheet_title " [Couture] : lundi/mardi * ? " "Atelier"
    = "Couture  lundimardi".
Proof.
  assert (H : valid_sheet_title "Atelier").
  { split; [discriminate|]. split; [simpl; lia|].
    intros c Hc. refine (bool_decide_unpack _ _).
    repeat (apply elem_of_cons in Hc as [->|Hc]; [by vm_compute|]).
    by apply elem_of_nil in Hc. }
  split; [exact H|]. split; [|reflexivity].
  exact (safe_sheet_title_valid _ _ H).
Defined.






(** ** Counts of the synthesis *)

Lemma length_omap_le {A B} (f : A → option B) (l : list A) :
  (length (omap f l) ≤ length l)%nat.
Proof.
  induction l as [|x l IH]; csimpl; [done|].
  destruct (f x); csimpl; lia.
Qed.

Lemma length_pid_set_of pres_rows :
  (length (pid_set_of pres_rows) ≤ length pres_rows)%nat.
Proof.
  unfold pid_set_of. rewrite length_order_by.
  etrans; [|apply (length_omap_le fst)].
  apply submseteq_length, NoDup_submseteq; [apply NoDup_elements|].
  intros x. by rewrite elem_of_elements, elem_of_list_to_set.
Qed.

Lemma kpi_bounds flt c_map (pid_set : list Z) :
  0 ≤ (kpi flt c_map pid_set).1 ≤ Z.of_nat (length pid_set)
  ∧ 0 ≤ (kpi flt c_map pid_set).2 ≤ Z.of_nat (length pid_set).
Proof.
  unfold kpi.
  assert (H : ∀ acc : Z * Z,
            let r := foldl (λ acc pid,
                              (if is_new flt c_map pid then acc.1 + 1 else acc.1,
                               if is_recurring c_map pid then acc.2 + 1 else acc.2))
                           acc pid_set in
            acc.1 ≤ r.1 ≤ acc.1 + Z.of_nat (length pid_set)
            ∧ acc.2 ≤ r.2 ≤ acc.2 + Z.of_nat (length pid_set)).
  { induction pid_set as [|p l IH]; intros acc; simpl; [lia|].
    specialize (IH (if is_new flt c_map p then acc.1 + 1 else acc.1,
                    if is_recurring c_map p then acc.2 + 1 else acc.2)).
    simpl in IH. destruct (is_new flt c_map p), (is_recurring c_map p); lia. }
  specialize (H (0, 0)). simpl in H. lia.
Qed.

(** The row that an atelier contributes to the synthesis. *)
Lemma process_atelier_summary flt db at_ :
  let sessions := sessions_in_period flt db at_ in
  let pres := presences_in (SessionActivite.id <$> sessions) db in
  ∃ uniques nouveaux recurrents,
    (process_atelier flt db at_).1
    = [cell_of (AtelierActivite.secteur at_); cell_of (AtelierActivite.nom at_);
       CInt (Z.of_nat (length sessions)); CInt (Z.of_nat (length pres));
       CInt uniques; CInt nouveaux; CInt recurrents]
    ∧ 0 ≤ uniques ≤ Z.of_nat (length pres)
    ∧ 0 ≤ nouveaux ≤ uniques
    ∧ 0 ≤ recurrents ≤ uniques.
Proof.
  cbv zeta. unfold process_atelier, pres_rows_of.
  remember (sessions_in_period flt db at_) as sessions eqn:Hs.
  destruct sessions as [|s0 ss].
  { exists 0, 0, 0. cbn [fst].
    assert (presences_in (SessionActivite.id <$> []) db = []) as ->.
    { unfold presences_in. apply filter_none.
      intros pr _ H%Is_true_true. unfold sql_in in H.
      destruct (PresenceActivite.session_id pr); [|done].
      apply bool_decide_eq_true in H. by apply elem_of_nil in H. }
    simpl. repeat split; lia. }
  remember (presences_in (SessionActivite.id <$> s0 :: ss) db) as pres eqn:Hp.
  destruct pres as [|p0 ps].
  { exists 0, 0, 0. simpl. repeat split; lia. }
  cbv zeta. cbn [fst].
  set (rows := (λ pr : PresenceActivite.t, _) <$> p0 :: ps).
  pose proof (length_pid_set_of rows) as Hle.
  pose proof (kpi_bounds flt
                (c_map_of (counts_of (SessionActivite.id <$> s0 :: ss) db))
                (pid_set_of rows)) as [Hn Hr].
  assert (Hlen : length rows = length (p0 :: ps)) by apply length_fmap.
  eexists _, _, _. split; [by rewrite Hlen|].
  rewrite Hlen in Hle. repeat split; lia.
Qed.

Lemma atelier_in_scope_not_deleted eff a :
  atelier_in_scope eff a = true → AtelierActivite.is_deleted a = false.
Proof.
  unfold atelier_in_scope. intros [H _]%andb_true_iff.
  by apply negb_true_iff in H.
Qed.

(** X4.  Each row of the synthesis below its two header rows is the
    row of an atelier of the database that is not soft-deleted; it holds
    the number of sessions of the period and the number of presences at
    these sessions, and its three other counts are consistent: the
    unique participants are at most the presences, the new and the
    recurring participants at most the unique participants. *)
Theorem synthesis_rows_consistent (flt : Filters) (u : User) (db : DB)
    (row : list cell) :
  row ∈ drop 2 (rows (ws0 (_build_magato_per_atelier_workbook flt u db))) →
  ∃ at_ uniques nouveaux recurrents,
    at_ ∈ ateliers db
    ∧ AtelierActivite.is_deleted at_ = false
    ∧ let sessions := sessions_in_period flt db at_ in
      let pres := presences_in (SessionActivite.id <$> sessions) db in
      row = [cell_of (AtelierActivite.secteur at_);
             cell_of (AtelierActivite.nom at_);
             CInt (Z.of_nat (length sessions)); CInt (Z.of_nat (length pres));
             CInt uniques; CInt nouveaux; CInt recurrents]
      ∧ 0 ≤ uniques ≤ Z.of_nat (length pres)
      ∧ 0 ≤ nouveaux ≤ uniques
      ∧ 0 ≤ recurrents ≤ uniques.
Proof.
  unfold _build_magato_per_atelier_workbook. simpl.
  intros (res & -> & Hres)%list_elem_of_fmap.
  apply list_elem_of_fmap in Hres as (at_ & -> & Hat).
  apply elem_of_ateliers_in_scope in Hat as [Hscope Hat].
  destruct (process_atelier_summary flt db at_) as (un & nv & rc & Hrow & Hb).
  exists at_, un, nv, rc. split; [done|].
  split; [by eapply atelier_in_scope_not_deleted|]. done.
Qed.

Lemma synthesis_rows_consistent_witness :
  let row := [CStr "Nord"; CStr "Informatique"; CInt 3; CInt 4; CInt 3; CInt 3;
              CInt 1] in
  row ∈ drop 2 (rows (ws0 (_build_magato_per_atelier_workbook (year_2024 None)
                             resp_nord sample_db)))
  ∧ ∃ at_ uniques nouveaux recurrents,
      at_ ∈ ateliers sample_db
      ∧ AtelierActivite.is_deleted at_ = false
      ∧ let sessions := sessions_in_period (year_2024 None) sample_db at_ in
        let pres := presences_in (SessionActivite.id <$> sessions) sample_db in
        row = [cell_of (AtelierActivite.secteur at_);
               cell_of (AtelierActivite.nom at_);
               CInt (Z.of_nat (length sessions)); CInt (Z.of_nat (length pres));
               CInt uniques; CInt nouveaux; CInt recurrents]
        ∧ 0 ≤ uniques ≤ Z.of_nat (length pres)
        ∧ 0 ≤ nouveaux ≤ uniques
        ∧ 0 ≤ recurrents ≤ uniques.
Proof.
  intros row.
  assert (H : row ∈ drop 2 (rows (ws0 (_build_magato_per_atelier_workbook
                                         (year_2024 None) resp_nord sample_db))))
    by (vm_compute; right; left).
  split; [exact H|].
  exact (synthesis_rows_consistent _ _ _ _ H).
Defined.

(** ** Completeness of the attendance matrix *)

Lemma sid_index_of_snoc l x :
  sid_index_of (l ++ [x]) = <[SessionActivite.id x := length l]> (sid_index_of l).
Proof.
  unfold sid_index_of. rewrite imap_app, foldl_app. simpl.
  by rewrite Nat.add_0_r.
Qed.

Lemma sid_index_of_unique (sessions : list SessionActivite.t) j s :
  NoDup (SessionActivite.id <$> sessions) →
  sessions !! j = Some s →
  sid_index_of sessions !! SessionActivite.id s = Some j.
Proof.
  revert j s. induction sessions as [|x l IH] using rev_ind; intros j s Hnd Hj.
  { done. }
  rewrite sid_index_of_snoc. rewrite fmap_app in Hnd.
  apply NoDup_app in Hnd as (Hl & Hfresh & _).
  apply lookup_snoc_Some in Hj as [[Hlt Hj] | [-> ->]].
  - rewrite lookup_insert_ne; [by apply IH|].
    intros Heq. apply (Hfresh (SessionActivite.id s)).
    + apply list_elem_of_fmap. exists s. split; [done|].
      by eapply list_elem_of_lookup_2.
    + rewrite <- Heq. simpl. left.
  - by rewrite lookup_insert_eq.
Qed.

Lemma matrix_fold_keeps (pid : Z) (present : gset (Z * Z)) (l : list (Z * nat))
    (row : list cell) (k : nat) :
  row !! k = Some (CStr "1") →
  foldl (λ row e,
           if bool_decide ((pid, e.1) ∈ present)
           then <[(2 + e.2)%nat := CStr "1"]> row else row) row l !! k
  = Some (CStr "1").
Proof.
  revert row. induction l as [|e l IH]; intros row Hk; simpl; [done|].
  apply IH. case_bool_decide; [|done].
  destruct (decide (k = (2 + e.2)%nat)) as [->|Hne].
  - apply list_lookup_insert_eq. by eapply lookup_lt_Some.
  - by rewrite list_lookup_insert_ne.
Qed.

Lemma matrix_fold_sets (pid : Z) (present : gset (Z * Z)) (l : list (Z * nat))
    (row : list cell) (e : Z * nat) :
  e ∈ l → (pid, e.1) ∈ present → (2 + e.2 < length row)%nat →
  foldl (λ row e,
           if bool_decide ((pid, e.1) ∈ present)
           then <[(2 + e.2)%nat := CStr "1"]> row else row) row l
    !! (2 + e.2)%nat
  = Some (CStr "1").
Proof.
  revert row. induction l as [|e' l IH]; intros row Hin Hp Hlen; simpl.
  { by apply elem_of_nil in Hin. }
  apply elem_of_cons in Hin as [<- | Hin].
  - apply matrix_fold_keeps. rewrite bool_decide_eq_true_2 by done.
    by apply list_lookup_insert_eq.
  - apply IH; [done..|]. case_bool_decide; [by rewrite length_insert | done].
Qed.

Lemma matrix_row_sets n (idx : gmap Z nat) present part sid j :
  idx !! sid = Some j → (part.1.1, sid) ∈ present → (j < n)%nat →
  matrix_row n idx present part !! (2 + j)%nat = Some (CStr "1").
Proof.
  intros Hidx Hp Hj. unfold matrix_row.
  apply (matrix_fold_sets _ _ _ _ (sid, j)); [|done|].
  - by apply elem_of_map_to_list.
  - simpl. rewrite length_replicate. lia.
Qed.

Lemma sessions_in_period_NoDup flt db at_ :
  NoDup (SessionActivite.id <$> sessions db) →
  NoDup (SessionActivite.id <$> sessions_in_period flt db at_).
Proof.
  intros Hnd. unfold sessions_in_period. rewrite order_by_perm.
  apply (sublist_NoDup _ (SessionActivite.id <$> sessions db)); [done|].
  apply fmap_sublist, sublist_filter.
Qed.

Lemma process_atelier_some flt db at_ :
  sessions_in_period flt db at_ ≠ [] →
  ∃ summary sh, process_atelier flt db at_ = (summary, Some sh).
Proof.
  intros Hne. unfold process_atelier.
  destruct (sessions_in_period flt db at_); [done|].
  destruct (pres_rows_of _ db); eauto.
Qed.

(** X5.  When the ids of the sessions are a key, the matrix of an
    atelier of the export marks every presence of the period: for a
    participant kept at row [i] and a session kept at column [j] that a
    presence row links, the sheet of the atelier is in the workbook and
    its cell at row [i], column [j] is ["1"]. *)
Theorem matrix_marks_every_presence (flt : Filters) (u : User) (db : DB)
    (at_ : AtelierActivite.t) (i j : nat)
    (part : Z * option string * option string) (s : SessionActivite.t)
    (pr : PresenceActivite.t) :
  at_ ∈ ateliers_in_scope (eff_secteur flt u) db →
  NoDup (SessionActivite.id <$> sessions db) →
  atelier_parts flt db at_ !! i = Some part →
  sessions_in_period flt db at_ !! j = Some s →
  pr ∈ presences db →
  PresenceActivite.participant_id pr = Some part.1.1 →
  PresenceActivite.session_id pr = Some (SessionActivite.id s) →
  ∃ summary sh row,
    process_atelier flt db at_ = (summary, Some sh)
    ∧ sh ∈ sheets (_build_magato_per_atelier_workbook flt u db)
    ∧ rows sh !! (2 + i)%nat = Some row
    ∧ row !! (2 + j)%nat = Some (CStr "1").
Proof.
  intros Hat Hkey Hpart Hs Hpr Hpid Hsid.
  destruct (process_atelier_some flt db at_) as (summary & sh & Hpa).
  { intros Hnil. by rewrite Hnil in Hs. }
  exists summary, sh.
  eexists. split; [done|]. split.
  { unfold _build_magato_per_atelier_workbook. simpl.
    apply list_elem_of_omap. exists (summary, Some sh). split; [|done].
    apply list_elem_of_fmap. eauto. }
  rewrite (process_atelier_sheet _ _ _ _ _ Hpa). simpl.
  rewrite list_lookup_fmap, Hpart. simpl. split; [reflexivity|].
  apply (matrix_row_sets _ _ _ _ (SessionActivite.id s)).
  - apply sid_index_of_unique; [by apply sessions_in_period_NoDup | done].
  - unfold present_of. apply elem_of_list_to_set, list_elem_of_omap.
    exists (Some part.1.1, Some (SessionActivite.id s)). split; [|done].
    unfold pres_rows_of. apply list_elem_of_fmap. exists pr.
    split; [by rewrite Hpid, Hsid|].
    apply elem_of_presences_in. split; [|done].
    exists (SessionActivite.id s). split; [|done].
    apply list_elem_of_fmap. exists s. split; [done|].
    by eapply list_elem_of_lookup_2.
  - by eapply lookup_lt_Some.
Qed.

Lemma matrix_marks_every_presence_witness :
  let at_ := AtelierActivite.mk 1 (Some "Nord") (Some "Informatique") false in
  ∃ summary sh row,
    process_atelier (year_2024 None) sample_db at_ = (summary, Some sh)
    ∧ sh ∈ sheets (_build_magato_per_atelier_workbook (year_2024 None) resp_nord
                     sample_db)
    ∧ rows sh !! 3%nat = Some row
    ∧ row !! 3%nat = Some (CStr "1").
Proof.
  intros at_.
  apply (matrix_marks_every_presence (year_2024 None) resp_nord sample_db at_ 1 1
           (7, Some "Martin", Some "Xavier")
           (SessionActivite.mk 11 (Some 1) (Some "Nord") (Some (d 2024 2 10)) None)
           (PresenceActivite.mk 101 (Some 7) (Some 11) None)).
  - refine (bool_decide_unpack _ _). vm_compute. exact I.
  - refine (bool_decide_unpack _ _). vm_compute. exact I.
  - reflexivity.
  - reflexivity.
  - right. left.
  - reflexivity.
  - reflexivity.
Defined.

(** ** Recurring participants *)

Lemma filter_key_unique {A} (l : list A) (key : A → Z) (x : A) (k : option Z) :
  NoDup (key <$> l) → x ∈ l → k = Some (key x) →
  filter (λ y : A, sql_eq k (key y)) l = [x].
Proof.
  intros Hnd Hx ->. induction l as [|a l IH]; [by apply elem_of_nil in Hx|].
  rewrite fmap_cons in Hnd. apply NoDup_cons in Hnd as [Hna Hnd].
  apply elem_of_cons in Hx as [<- | Hx].
  - rewrite filter_cons_True by (by apply Is_true_true, sql_eq_true).
    f_equal. apply filter_none.
    intros y Hy Heq%Is_true_true%sql_eq_true. injection Heq as Heq.
    apply Hna. rewrite Heq. by apply list_elem_of_fmap_2.
  - rewrite filter_cons_False; [by apply IH|].
    intros Heq%Is_true_true%sql_eq_true. injection Heq as Heq.
    apply Hna. rewrite <- Heq. by apply list_elem_of_fmap_2.
Qed.

Lemma joined_count (sess : list SessionActivite.t) (l : list PresenceActivite.t)
    (P : PresenceActivite.t → Prop) `{!∀ pr, Decision (P pr)} :
  NoDup (SessionActivite.id <$> sess) →
  (∀ pr, pr ∈ l → ∃ s, s ∈ sess
                       ∧ PresenceActivite.session_id pr = Some (SessionActivite.id s)) →
  length (filter (λ r : PresenceActivite.t * SessionActivite.t, P r.1)
            (pr ← l;
             s ← filter (λ s : SessionActivite.t,
                           sql_eq (PresenceActivite.session_id pr)
                                  (SessionActivite.id s)) sess;
             [(pr, s)]))
  = length (filter P l).
Proof.
  intros Hnd. induction l as [|pr l IH]; intros Hl; [done|].
  destruct (Hl pr) as (s & Hs & Hsid); [left|].
  rewrite bind_cons, filter_app, length_app.
  rewrite IH by (intros pr' Hpr'; apply Hl; by right).
  rewrite (filter_key_unique sess SessionActivite.id s) by done.
  simpl. destruct (decide (P pr)).
  - rewrite !filter_cons_True by done. by rewrite filter_nil.
  - rewrite !filter_cons_False by done. by rewrite filter_nil.
Qed.

Lemma kpi_recurring_count flt c_map (pid_set : list Z) :
  (kpi flt c_map pid_set).2
  = Z.of_nat (length (filter (λ pid, is_recurring c_map pid) pid_set)).
Proof.
  unfold kpi.
  assert (H : ∀ acc : Z * Z,
            (foldl (λ acc pid,
                      (if is_new flt c_map pid then acc.1 + 1 else acc.1,
                       if is_recurring c_map pid then acc.2 + 1 else acc.2))
                   acc pid_set).2
            = acc.2 + Z.of_nat (length (filter (λ pid, is_recurring c_map pid)
                                               pid_set))).
  { induction pid_set as [|p l IH]; intros acc; simpl; [lia|].
    rewrite IH. simpl. destruct (is_recurring c_map p) eqn:Hp.
    - rewrite filter_cons_True by (by apply Is_true_true). simpl. lia.
    - rewrite filter_cons_False by (by apply Is_true_false). lia. }
  by rewrite H.
Qed.

(** The number of presences that the grouped query reports for a
    participant of the period. *)
Lemma nb_of_presences flt db at_ pid :
  NoDup (SessionActivite.id <$> sessions db) →
  let session_ids := SessionActivite.id <$> sessions_in_period flt db at_ in
  pid ∈ pid_set_of (pres_rows_of session_ids db) →
  nb_of (c_map_of (counts_of session_ids db)) pid
  = Z.of_nat (length (presences_of session_ids db pid)).
Proof.
  intros Hkey session_ids (sid & Hrow)%elem_of_pid_set_of.
  apply list_elem_of_fmap in Hrow as (pr & [= Hpid Hsid] & Hpr).
  pose proof Hpr as Hpr'.
  apply elem_of_presences_in in Hpr' as [(sid' & Hsid' & Hprs) _].
  apply list_elem_of_fmap in Hsid' as (s & -> & Hs).
  apply elem_of_sessions_in_period in Hs as (_ & _ & Hsdb).
  assert (Hj : (pr, s) ∈ joined session_ids db) by (by apply elem_of_joined).
  destruct (c_map_of_is_Some (counts_of session_ids db) pid) as [e He].
  { eexists (Some pid, _, _). split; [|done].
    unfold counts_of. apply list_elem_of_fmap. exists (Some pid). split; [done|].
    apply elem_of_remove_dups, list_elem_of_fmap. by exists (pr, s). }
  unfold nb_of. rewrite He.
  apply c_map_of_lookup in He as (r & Hr & Hrp & ->).
  unfold counts_of in Hr. apply list_elem_of_fmap in Hr as (p' & -> & _).
  simpl in Hrp. subst p'. simpl. f_equal.
  unfold presences_of, joined.
  rewrite <- (joined_count (sessions db) (presences_in session_ids db)
                (λ pr, PresenceActivite.participant_id pr = Some pid)); [|done|].
  - f_equal. apply list_filter_iff. intros r. apply bool_decide_spec.
  - intros pr1 Hpr1.
    apply elem_of_presences_in in Hpr1 as [(sid1 & Hin1 & Hprs1) _].
    apply list_elem_of_fmap in Hin1 as (s1 & -> & Hs1).
    apply elem_of_sessions_in_period in Hs1 as (_ & _ & Hs1). eauto.
Qed.

(** X6.  When the ids of the sessions are a key, the column Récurrents
    of an atelier counts the participants of the period that have at
    least two presence rows at the sessions of the period. *)
Theorem recurring_counts_period_presences (flt : Filters) (db : DB)
    (at_ : AtelierActivite.t) :
  NoDup (SessionActivite.id <$> sessions db) →
  let session_ids := SessionActivite.id <$> sessions_in_period flt db at_ in
  let pid_set := pid_set_of (pres_rows_of session_ids db) in
  (kpi flt (c_map_of (counts_of session_ids db)) pid_set).2
  = Z.of_nat (length (filter (λ pid, (2 ≤ length (presences_of session_ids db pid))%nat)
                             pid_set)).
Proof.
  intros Hkey session_ids pid_set. subst session_ids pid_set.
  rewrite kpi_recurring_count. do 2 f_equal.
  apply filter_ext_in. intros pid Hpid.
  unfold is_recurring.
  rewrite (nb_of_presences flt db at_ pid Hkey Hpid).
  rewrite Is_true_true, Z.leb_le. lia.
Qed.

Lemma recurring_counts_period_presences_witness :
  let at_ := AtelierActivite.mk 1 (Some "Nord") (Some "Informatique") false in
  let session_ids :=
    SessionActivite.id <$> sessions_in_period (year_2024 None) history_db at_ in
  let pid_set := pid_set_of (pres_rows_of session_ids history_db) in
  (kpi (year_2024 None) (c_map_of (counts_of session_ids history_db)) pid_set).2 = 0
  ∧ length (presences_of session_ids history_db 7) = 1%nat
  ∧ length (filter (λ pr : PresenceActivite.t,
                      PresenceActivite.participant_id pr = Some 7)
                   (presences history_db)) = 2%nat.
Proof.
  intros at_ session_ids pid_set.
  split; [|split; reflexivity].
  pose proof (recurring_counts_period_presences (year_2024 None) history_db at_) as H.
  cbv zeta in H. fold session_ids pid_set in H.
  rewrite H; [reflexivity|].
  refine (bool_decide_unpack _ _). vm_compute. exact I.
Defined.

(** ** Bounds of the objective roll-up *)

Lemma success_rate_bounds db sid competences :
  0 ≤ st_success (_participants_success_rate db sid competences)
    ≤ st_total (_participants_success_rate db sid competences).
Proof.
  unfold _participants_success_rate.
  destruct competences as [|c0 cs]; [simpl; lia|].
  destruct (Z.of_nat (length (session_presences db sid)) =? 0); [simpl; lia|].
  simpl st_success. simpl st_total. rewrite count_fold.
  match goal with
  | |- context [filter ?P ?l] => pose proof (length_filter P l)
  end.
  lia.
Qed.

(** X7.  For every objective, operational or not, the result keeps
    [0 <= success <= total], and [ratio] is success/total x 100, 0 when
    [total] is 0. *)
Theorem objective_success_bounds (db : DB) (obj : Objectif.t) :
  0 ≤ success (_objective_success db obj) ≤ total (_objective_success db obj)
  ∧ ratio (_objective_success db obj)
    = percent (success (_objective_success db obj))
              (total (_objective_success db obj)).
Proof.
  destruct (operational_session obj) as [sid|] eqn:Hop.
  - rewrite (objective_success_operational _ _ _ Hop). cbv zeta. simpl.
    split; [apply success_rate_bounds | apply success_rate_ratio].
  - rewrite (objective_success_composite _ _ Hop).
    destruct (Objectif.enfants obj) as [|c0 cs]; [simpl; split; [lia|done]|].
    cbv zeta. cbn [success total ratio]. split; [|done].
    match goal with
    | |- context [filter ?P ?l] => pose proof (length_filter P l) as Hlen
    end.
    lia.
Qed.

(** ** Caps of the dashboard *)

Lemma dashboard_caps_bounds raw_sessions raw_participants :
  ∃ max_sessions max_participants,
    dashboard_caps raw_sessions raw_participants = Ok (max_sessions, max_participants)
    ∧ 5 ≤ max_sessions ≤ 200
    ∧ 20 ≤ max_participants ≤ 1000.
Proof.
  unfold dashboard_caps.
  destruct (int_arg raw_sessions 40); destruct (int_arg raw_participants 250);
    simpl; eexists _, _; (split; [reflexivity|]); unfold clamp; lia.
Qed.

(** X8.  A GET on the dashboard never raises, whatever the query
    arguments.  When it is served, the Magatomatique is computed exactly
    when the tab is [magato] or [magatomatique], and then with caps in
    [5,200] for the sessions and [20,1000] for the participants. *)
Theorem dashboard_magato_caps {Table : Type}
    (participants_stats volume frequency transversalite demography occupancy
       : Filters → DB → Table)
    (magatomatique : Filters → option string → string → Z → Z → DB → Table)
    (u : User) (today : date) (args : gmap string string) (flt : Filters) (db : DB) :
  ∃ r,
    dashboard_get participants_stats volume frequency transversalite demography
      occupancy magatomatique u today args flt db = Ok r
    ∧ ∀ ctx, r = Served ctx →
        match ctx_magato ctx with
        | Some m =>
            arg_lower args "tab" "base" ∈ ["magato"; "magatomatique"]
            ∧ ∃ max_sessions max_participants,
                5 ≤ max_sessions ≤ 200
                ∧ 20 ≤ max_participants ≤ 1000
                ∧ m = magatomatique (ctx_flt ctx) (arg_participant_q args)
                        (arg_lower args "magato_view" "macro")
                        max_sessions max_participants db
        | None => arg_lower args "tab" "base" ∉ ["magato"; "magatomatique"]
        end.
Proof.
  unfold dashboard_get.
  destruct (_can_view u); simpl; [|eexists; split; [reflexivity|done]].
  case_bool_decide as Htab.
  - destruct (dashboard_caps_bounds (args !! "max_sessions")
                (args !! "max_participants")) as (ms & mp & -> & Hs & Hp).
    simpl. eexists. split; [reflexivity|].
    intros ctx [= <-]. simpl. split; [done|]. exists ms, mp. done.
  - simpl. eexists. split; [reflexivity|]. by intros ctx [= <-].
Qed.

(** ** Effects of the delete action *)

Lemma elem_of_remove_signatures (l : list PresenceActivite.t) (fs : gset string) f :
  f ∈ foldl remove_signature fs l
  ↔ f ∈ fs
    ∧ ¬ ∃ pr, pr ∈ l ∧ PresenceActivite.signature_path pr = Some f ∧ f ≠ "".
Proof.
  revert fs. induction l as [|pr l IH]; intros fs; simpl.
  { split; [|by intros []]. intros H. split; [done|].
    intros (pr & Hpr & _). by apply elem_of_nil in Hpr. }
  rewrite IH. unfold remove_signature.
  destruct (PresenceActivite.signature_path pr) as [path|] eqn:Hpath.
  - destruct (str_truthy path) eqn:Ht.
    + apply str_truthy_true in Ht. rewrite elem_of_difference, elem_of_singleton.
      split.
      * intros [[Hf Hne] Hno]. split; [done|].
        intros (pr' & [->|Hpr']%elem_of_cons & Hsig & Hnz).
        -- congruence.
        -- apply Hno. eauto.
      * intros [Hf Hno]. split; [split; [done|]|].
        -- intros ->. apply Hno. exists pr. split; [left|done].
        -- intros (pr' & Hpr' & Hsig). apply Hno. exists pr'.
           split; [by right|done].
    + assert (path = "") as ->.
      { unfold str_truthy in Ht. by destruct (String.eqb_spec path ""). }
      split.
      * intros [Hf Hno]. split; [done|].
        intros (pr' & [->|Hpr']%elem_of_cons & Hsig & Hnz).
        -- congruence.
        -- apply Hno. eauto.
      * intros [Hf Hno]. split; [done|].
        intros (pr' & Hpr' & Hsig). apply Hno. exists pr'. split; [by right|done].
  - split.
    + intros [Hf Hno]. split; [done|].
      intros (pr' & [->|Hpr']%elem_of_cons & Hsig & Hnz).
      * congruence.
      * apply Hno. eauto.
    + intros [Hf Hno]. split; [done|].
      intros (pr' & Hpr' & Hsig). apply Hno. exists pr'. split; [by right|done].
Qed.

Lemma remove_signatures_difference (d : DB) (pid : Z) (fs : gset string) :
  foldl remove_signature fs
    (filter (λ pr : PresenceActivite.t,
               sql_eq (PresenceActivite.participant_id pr) pid) (presences d))
  = fs ∖ signatures_of d pid.
Proof.
  apply set_eq. intros f.
  rewrite elem_of_remove_signatures, elem_of_difference.
  unfold signatures_of. rewrite elem_of_list_to_set, list_elem_of_omap.
  split; intros [Hf Hno]; (split; [done|]).
  - intros (pr & Hpr & Hsig). apply Hno. exists pr. split; [done|].
    destruct (PresenceActivite.signature_path pr) as [path|]; [|done].
    destruct (str_truthy path) eqn:Ht; [|done].
    injection Hsig as ->. split; [done|]. by apply str_truthy_true.
  - intros (pr & Hpr & Hsig & Hnz). apply Hno. exists pr. split; [done|].
    rewrite Hsig. by rewrite (str_truthy_ne _ Hnz).
Qed.

(** X9.  When the delete action goes past its checks (the caller may
    view the dashboard, the id is in the roster, the participant exists
    and the sector test passes), the signature files of the
    participant's presences are removed whether or not the transaction
    commits.  If it commits, the participant and exactly the presences
    of that participant disappear from their tables; if it does not, the
    database is unchanged and the caller is told so, but the signature
    files are gone all the same. *)
Theorem delete_effects (u : User) (allowed_ids : gset Z) (commit_ok : bool)
    (raw_id : option string) (w : World) :
  let pid := form_participant_id raw_id in
  _can_view u = true →
  pid ≠ 0 →
  pid ∈ allowed_ids →
  (∃ p, p ∈ participants (db w) ∧ Participant.id p = pid) →
  delete_allowed u (db w) pid = true →
  let r := delete_participant u allowed_ids commit_ok raw_id w in
  files r.2 = files w ∖ signatures_of (db w) pid
  ∧ (commit_ok = true →
     r.1 = Redirect msg_deleted "success"
     ∧ (∀ p, p ∈ participants (db r.2)
             ↔ p ∈ participants (db w) ∧ Participant.id p ≠ pid)
     ∧ (∀ pr, pr ∈ presences (db r.2)
              ↔ pr ∈ presences (db w)
                ∧ PresenceActivite.participant_id pr ≠ Some pid)
     ∧ sessions (db r.2) = sessions (db w)
     ∧ ateliers (db r.2) = ateliers (db w))
  ∧ (commit_ok = false → r.1 = Redirect msg_failed "danger" ∧ db r.2 = db w).
Proof.
  intros pid Hview Hne Hal (p & Hp & Hid) Hallowed r. subst r.
  unfold delete_participant. fold pid. rewrite Hview. simpl.
  destruct (pid =? 0) eqn:Hz; [apply Z.eqb_eq in Hz; done|]. simpl.
  rewrite bool_decide_eq_false_2 by (intros Hn; by apply Hn).
  destruct (find_participant _ _ _ Hp Hid) as [x ->].
  rewrite Hallowed. simpl.
  destruct commit_ok; simpl.
  - split; [apply remove_signatures_difference|]. split; [|done].
    intros _. split; [done|]. split; [|split; [|done]].
    + intros q. rewrite list_elem_of_filter, Is_true_true, negb_true_iff,
        bool_decide_eq_false. tauto.
    + intros pr. rewrite list_elem_of_filter, Is_true_true, negb_true_iff.
      unfold sql_eq. rewrite bool_decide_eq_false. tauto.
  - split; [apply remove_signatures_difference|]. split; [done|]. done.
Qed.

Lemma delete_effects_witness :
  let w := mkWorld sample_db {[ "/sig/100.png"; "/sig/autre.png" ]} in
  let r := delete_participant viewer_nord {[ 7 ]} false (Some "7") w in
  r.1 = Redirect msg_failed "danger"
  ∧ db r.2 = sample_db
  ∧ files r.2 = {[ "/sig/autre.png" ]}.
Proof.
  intros w r.
  destruct (delete_effects viewer_nord {[ 7 ]} false (Some "7") w)
    as (Hfiles & _ & Hfail).
  - reflexivity.
  - vm_compute. discriminate.
  - refine (bool_decide_unpack _ _). vm_compute. exact I.
  - exists (Participant.mk 7 (Some "Martin") (Some "Xavier")).
    split; [left|reflexivity].
  - vm_compute. reflexivity.
  - destruct (Hfail eq_refl) as [H1 H2].
    split; [exact H1|]. split; [exact H2|].
    fold r in Hfiles. rewrite Hfiles.
    refine (bool_decide_unpack _ _). vm_compute. exact I.
Defined.

(** ** Fields of the CSV export *)

Lemma CSV_FIELD_MAP_unknown (f : string) :
  f ∉ CSV_FIELD_MAP_items.*1 → CSV_FIELD_MAP !! f = None.
Proof. apply not_elem_of_list_to_map_1. Qed.

Opaque CSV_FIELD_MAP.

Lemma known_field_lookup f :
  known_field f = true → ∃ e, CSV_FIELD_MAP !! f = Some e.
Proof.
  unfold known_field. intros H. apply bool_decide_eq_true in H.
  destruct H as [e He]. eauto.
Qed.

Lemma default_fields_known :
  Forall (λ f, known_field f = true) CSV_DEFAULT_FIELDS.
Proof. refine (bool_decide_unpack _ _). vm_compute. exact I. Qed.

Lemma filter_known_id (l : list string) :
  Forall (λ f, known_field f = true) l → filter (λ f, known_field f) l = l.
Proof.
  induction 1 as [|f l Hf _ IH]; [reflexivity|].
  rewrite filter_cons_True by (apply Is_true_true; exact Hf).
  by rewrite IH.
Qed.

Lemma default_fields_cons :
  ∃ f fs, CSV_DEFAULT_FIELDS = f :: fs.
Proof. by eexists _, _. Qed.

(** X10.  The list of fields of the CSV export is never empty and holds
    only keys of [CSV_FIELD_MAP]: the requested keys that are known, in
    the order and with the repetitions of the request, or the six
    default fields when the request names no known key. *)
Theorem csv_fields_known (requested : list string) :
  csv_fields requested ≠ []
  ∧ Forall (λ f, known_field f = true) (csv_fields requested)
  ∧ (filter (λ f, known_field f) requested ≠ [] →
     csv_fields requested = filter (λ f, known_field f) requested)
  ∧ (filter (λ f, known_field f) requested = [] →
     csv_fields requested = CSV_DEFAULT_FIELDS).
Proof.
  pose proof default_fields_known as Hdef.
  destruct default_fields_cons as (d0 & ds & Hd).
  unfold csv_fields. cbv zeta.
  destruct requested as [|r0 rs].
  - rewrite (filter_known_id _ Hdef), Hd. cbv iota.
    split; [discriminate|]. split; [by rewrite <- Hd|].
    split; [intros H; by destruct H | reflexivity].
  - destruct (filter (λ f, known_field f) (r0 :: rs)) as [|f0 fs] eqn:Hf; cbv iota.
    + rewrite Hd. split; [discriminate|]. split; [by rewrite <- Hd|].
      split; [intros H; by destruct H | reflexivity].
    + split; [discriminate|]. split; [|split; [reflexivity | discriminate]].
      rewrite <- Hf. apply Forall_forall.
      intros f [Hk _]%list_elem_of_filter. apply Is_true_true. exact Hk.
Qed.

Lemma mapM_length_rows {A B C} (f : A → C → option B) (fields : list C)
    (rows : list A) (body : list (list B)) :
  mapM (λ c, mapM (f c) fields) rows = Some body →
  length body = length rows ∧ Forall (λ r, length r = length fields) body.
Proof.
  intros H. split; [symmetry; by eapply length_mapM|].
  apply mapM_Some_1 in H. induction H as [|c r rows body Hr _ IH]; [done|].
  constructor; [|done]. symmetry. by eapply length_mapM.
Qed.

(** X11.  For a caller who may view the statistics, the CSV export
    raises no [KeyError]: it hands the writer a header holding the
    labels of the selected fields, then one row per row of the query,
    each with exactly as many cells as the header. *)
Theorem csv_rows_aligned (u : User) (requested : list string) (rows : list Csv.ctx) :
  _can_view u = true →
  ∃ header body,
    magatomatique_export_csv u requested rows = Some (Served (header :: body))
    ∧ Forall2 (λ f h, ∃ e, CSV_FIELD_MAP !! f = Some e ∧ h = CStr e.1)
        (csv_fields requested) header
    ∧ length body = length rows
    ∧ Forall (λ r, length r = length header) body.
Proof.
  intros Hview. unfold magatomatique_export_csv. rewrite Hview. simpl.
  destruct (csv_fields_known requested) as (_ & Hknown & _).
  set (fields := csv_fields requested) in *.
  assert (Hsome : ∀ f, f ∈ fields → ∃ e, CSV_FIELD_MAP !! f = Some e).
  { intros f Hf. apply known_field_lookup. by eapply Forall_forall in Hknown. }
  destruct (mapM_is_Some_2 (λ f, (λ e, CStr e.1) <$> CSV_FIELD_MAP !! f) fields)
    as [header Hheader].
  { apply Forall_forall. intros f Hf. destruct (Hsome f Hf) as [e He].
    simpl. rewrite He. by eexists. }
  destruct (mapM_is_Some_2
              (λ c, mapM (λ f, (λ e : string * (Csv.ctx → cell), e.2 c)
                                 <$> CSV_FIELD_MAP !! f) fields) rows)
    as [body Hbody].
  { apply Forall_forall. intros c _. apply mapM_is_Some_2, Forall_forall.
    intros f Hf. destruct (Hsome f Hf) as [e He]. simpl. rewrite He. by eexists. }
  exists header, body. rewrite Hheader, Hbody. simpl. split; [done|].
  destruct (mapM_length_rows _ _ _ _ Hbody) as [Hlen Hall].
  split; [|split; [done|]].
  - apply mapM_Some_1 in Hheader.
    eapply Forall2_impl; [exact Hheader|]. simpl. intros f h Hfh.
    destruct (CSV_FIELD_MAP !! f) as [e|]; [|done].
    injection Hfh as <-. eauto.
  - rewrite <- (length_mapM _ _ _ Hheader). done.
Qed.

Lemma csv_rows_aligned_witness :
  let requested := ["participant_nom"; "inconnu"; "session_duree_minutes";
                    "participant_nom"] in
  magatomatique_export_csv viewer_nord requested [sample_ctx]
  = Some (Served [[CStr "Nom"; CStr "Durée (minutes)"; CStr "Nom"];
                  [CStr "Martin"; CStr ""; CStr "Martin"]])
  ∧ ∃ header body,
      magatomatique_export_csv viewer_nord requested [sample_ctx]
      = Some (Served (header :: body))
      ∧ Forall2 (λ f h, ∃ e, CSV_FIELD_MAP !! f = Some e ∧ h = CStr e.1)
          (csv_fields requested) header
      ∧ length body = length [sample_ctx]
      ∧ Forall (λ r, length r = length header) body.
Proof.
  intros requested. split; [vm_compute; reflexivity|].
  exact (csv_rows_aligned viewer_nord requested [sample_ctx] eq_refl).
Defined.

Lemma form_keys_are_map_keys :
  (CSV_FIELD_GROUPS ≫= snd).*1 = CSV_FIELD_MAP_items.*1.
Proof. vm_compute. reflexivity. Qed.

(** The form and the dict of getters agree on every key: the same keys,
    with the same labels. *)
Lemma form_label_map (f : string) : form_label f = fst <$> CSV_FIELD_MAP !! f.
Proof.
  destruct (decide (f ∈ CSV_FIELD_MAP_items.*1)) as [Hin|Hout].
  - unfold CSV_FIELD_MAP_items in Hin. simpl in Hin.
    repeat (apply elem_of_cons in Hin as [->|Hin]; [vm_compute; reflexivity|]).
    by apply elem_of_nil in Hin.
  - rewrite (CSV_FIELD_MAP_unknown _ Hout). simpl.
    unfold form_label.
    assert (list_find (λ e : string * string, e.1 = f) (CSV_FIELD_GROUPS ≫= snd)
            = None) as ->; [|done].
    apply list_find_None, Forall_forall. intros e He Heq.
    apply Hout. rewrite <- form_keys_are_map_keys, <- Heq.
    by apply list_elem_of_fmap_2.
Qed.

Lemma known_field_form f : known_field f = true ↔ is_Some (form_label f).
Proof.
  unfold known_field. rewrite bool_decide_eq_true, form_label_map.
  by rewrite fmap_is_Some.
Qed.

(** X12.  The form and the export agree: a key is exported exactly when
    the form offers it, and for a request made of keys of the form
    nothing is dropped and the header of the CSV holds, in the order of
    the request, the labels that the form shows. *)
Theorem form_fields_exported (u : User) (requested : list string)
    (rows : list Csv.ctx) :
  _can_view u = true →
  requested ≠ [] →
  Forall (λ f, is_Some (form_label f)) requested →
  (∀ f, known_field f = true ↔ is_Some (form_label f))
  ∧ csv_fields requested = requested
  ∧ ∃ body,
      magatomatique_export_csv u requested rows
      = Some (Served ((CStr <$> omap form_label requested) :: body)).
Proof.
  intros Hview Hne Hform. split; [apply known_field_form|].
  assert (Hfilter : filter (λ f, known_field f) requested = requested).
  { clear Hne. induction Hform as [|f l Hf _ IH]; [done|].
    rewrite filter_cons_True by (by apply Is_true_true, known_field_form).
    by rewrite IH. }
  assert (Hfields : csv_fields requested = requested).
  { destruct (csv_fields_known requested) as (_ & _ & H & _).
    rewrite H; [done|]. by rewrite Hfilter. }
  split; [done|].
  destruct (csv_rows_aligned u requested rows Hview)
    as (header & body & Hexp & Hhead & _).
  exists body. rewrite Hexp. do 3 f_equal.
  rewrite Hfields in Hhead. clear -Hhead.
  induction Hhead as [|f h l k (e & He & ->) _ IH]; [done|].
  csimpl. rewrite form_label_map, He. simpl. by rewrite IH.
Qed.

Lemma form_fields_exported_witness :
  let requested := ["presence_created_at"; "session_heure_debut"] in
  magatomatique_export_csv viewer_nord requested [sample_ctx]
  = Some (Served [[CStr "Date d'émargement"; CStr "Heure début"];
                  [CStr "2024-01-05 09:05"; CStr "09:00"]])
  ∧ csv_fields requested = requested
  ∧ ∃ body,
      magatomatique_export_csv viewer_nord requested [sample_ctx]
      = Some (Served ((CStr <$> omap form_label requested) :: body)).
Proof.
  intros requested. split; [vm_compute; reflexivity|].
  apply (form_fields_exported viewer_nord requested [sample_ctx]).
  - reflexivity.
  - discriminate.
  - refine (bool_decide_unpack _ _). vm_compute. exact I.
Defined.

(** ** The pedagogical statistics *)






(** ** Grouping the rows of a participant's record by referential *)

Section setdefault_append_facts.
Context {K V : Type} `{EqDecision K}.
Implicit Types (G : list (K * list V)) (k : K) (r : V).

Lemma setdefault_append_new k r G :
  k ∉ G.*1 → setdefault_append k r G = G ++ [(k, [r])].
Proof.
  induction G as [|[k' g] G IH]; simpl; [done|].
  intros Hk. apply not_elem_of_cons in Hk as [Hne Hk].
  destruct (decide (k = k')); [done|]. by rewrite IH.
Qed.

Lemma setdefault_append_mid k r G1 g G2 :
  k ∉ G1.*1 →
  setdefault_append k r (G1 ++ (k, g) :: G2) = G1 ++ (k, g ++ [r]) :: G2.
Proof.
  induction G1 as [|[k' g'] G1 IH]; simpl.
  - intros _. by destruct (decide (k = k)).
  - intros Hk. apply not_elem_of_cons in Hk as [Hne Hk].
    destruct (decide (k = k')); [done|]. by rewrite IH.
Qed.

Lemma keys_split k G :
  k ∈ G.*1 → ∃ G1 g G2, G = G1 ++ (k, g) :: G2 ∧ k ∉ G1.*1.
Proof.
  induction G as [|[k' g'] G IH]; simpl; [by intros ?%elem_of_nil|].
  destruct (decide (k = k')) as [->|Hne].
  - intros _. exists [], g', G. split; [done|]. by intros ?%elem_of_nil.
  - intros [?|Hin]%elem_of_cons; [done|].
    destruct (IH Hin) as (G1 & g & G2 & -> & Hnin).
    exists ((k', g') :: G1), g, G2. split; [done|].
    by intros [?|?]%elem_of_cons.
Qed.
End setdefault_append_facts.

Lemma participant_groups_snoc rows r :
  participant_groups_of (rows ++ [r])
  = setdefault_append (row_referentiel r) r (participant_groups_of rows).
Proof. unfold participant_groups_of. by rewrite foldl_app. Qed.

Lemma participant_groups_inv (rows : list BilanRow) :
  NoDup (participant_groups_of rows).*1
  ∧ (∀ ref g, (ref, g) ∈ participant_groups_of rows →
       g ≠ [] ∧ g = filter (λ row, row_referentiel row = ref) rows)
  ∧ (∀ row, row ∈ rows → row_referentiel row ∈ (participant_groups_of rows).*1).
Proof.
  induction rows as [|r rows (Hnd & Hgroups & Hkeys)] using rev_ind.
  { split_and!; [apply NoDup_nil_2| |].
    - by intros ? ? ?%elem_of_nil.
    - by intros ? ?%elem_of_nil. }
  rewrite participant_groups_snoc.
  set (k := row_referentiel r). set (G := participant_groups_of rows) in *.
  assert (Hfilter : ∀ k', k' ≠ k →
    filter (λ row, row_referentiel row = k') (rows ++ [r])
    = filter (λ row, row_referentiel row = k') rows).
  { intros k' Hk'. rewrite filter_app, filter_cons_False, filter_nil by done.
    by rewrite app_nil_r. }
  destruct (decide (k ∈ G.*1)) as [Hin|Hnin].
  - destruct (keys_split _ _ Hin) as (G1 & g & G2 & HG & Hn1).
    rewrite HG in *. rewrite setdefault_append_mid by done.
    rewrite fmap_app, fmap_cons in *. simpl in *.
    split_and!; [done| |].
    + intros ref g' [H1 | [[= -> ->] | H2]%elem_of_cons]%elem_of_app.
      * rewrite Hfilter; [apply Hgroups, elem_of_app; by left|].
        intros ->. apply Hn1. by apply (list_elem_of_fmap_2 fst) in H1.
      * destruct (Hgroups k g) as [_ Hg];
          [apply elem_of_app; right; left|].
        split; [by destruct g|].
        rewrite filter_app, filter_cons_True, filter_nil by done. by rewrite <- Hg.
      * rewrite Hfilter; [apply Hgroups, elem_of_app; right; by right|].
        intros ->. apply NoDup_app in Hnd as (_ & _ & Hnd2).
        apply NoDup_cons in Hnd2 as [Hnd2 _]. apply Hnd2.
        by apply (list_elem_of_fmap_2 fst) in H2.
    + intros row [Hrow | ->%list_elem_of_singleton]%elem_of_app;
        [by apply Hkeys|done].
  - rewrite setdefault_append_new by done. rewrite fmap_app. simpl.
    split_and!.
    + apply NoDup_app. split_and!; [done| |apply NoDup_singleton].
      by intros ? ? ->%list_elem_of_singleton.
    + intros ref g' [H1 | [= -> ->]%list_elem_of_singleton]%elem_of_app.
      * rewrite Hfilter; [by apply Hgroups|].
        intros ->. apply Hnin. by apply (list_elem_of_fmap_2 fst) in H1.
      * split; [done|].
        rewrite filter_app, filter_cons_True, filter_nil by done.
        rewrite filter_none; [done|].
        intros row Hrow Heq. apply Hnin. rewrite <- Heq. by apply Hkeys.
    + intros row [Hrow | ->%list_elem_of_singleton]%elem_of_app.
      * apply elem_of_app. left. by apply Hkeys.
      * apply elem_of_app. right. left.
Qed.

(** X14. The groups of a participant's record partition its rows by
    referential: no referential has two groups, the group of a referential
    holds exactly the rows of that referential, in the order of the rows,
    no group is empty, and the referential of every row has a group. *)
Theorem participant_groups_partition (rows : list BilanRow) :
  NoDup (participant_groups_of rows).*1
  ∧ (∀ ref g, (ref, g) ∈ participant_groups_of rows →
       g ≠ [] ∧ g = filter (λ row, row_referentiel row = ref) rows)
  ∧ (∀ row, row ∈ rows → row_referentiel row ∈ (participant_groups_of rows).*1).
Proof. apply participant_groups_inv. Qed.


(** ** The order of the rows of a participant's record *)

Lemma ascii_compare_refl c : Ascii.compare c c = Eq.
Proof. unfold Ascii.compare. apply N.compare_refl. Qed.

Lemma string_compare_refl s : String.compare s s = Eq.
Proof.
  induction s as [|c s IH]; simpl; [done|]. by rewrite ascii_compare_refl.
Qed.

Lemma string_compare_lt_trans a b c :
  String.compare a b = Lt → String.compare b c = Lt → String.compare a c = Lt.
Proof.
  revert b c. induction a as [|x a IH]; intros [|y b] [|z c]; simpl; try done.
  destruct (Ascii.compare x y) eqn:Hxy; [|clear IH|done];
    destruct (Ascii.compare y z) eqn:Hyz; try done.
  - apply Ascii.compare_eq_iff in Hxy as ->.
    apply Ascii.compare_eq_iff in Hyz as ->.
    rewrite ascii_compare_refl. apply IH.
  - apply Ascii.compare_eq_iff in Hxy as ->. by rewrite Hyz.
  - apply Ascii.compare_eq_iff in Hyz as <-. by rewrite Hxy.
  - unfold Ascii.compare in *. rewrite N.compare_lt_iff in Hxy, Hyz.
    assert (H : (N_of_ascii x ?= N_of_ascii z)%N = Lt)
      by (apply N.compare_lt_iff; lia).
    by rewrite H.
Qed.

Lemma str_ltb_trans a b c :
  str_ltb a b = true → str_ltb b c = true → str_ltb a c = true.
Proof.
  unfold str_ltb, String.ltb. intros Hab Hbc.
  destruct (String.compare a b) eqn:H1; try done.
  destruct (String.compare b c) eqn:H2; try done.
  by rewrite (string_compare_lt_trans _ _ _ H1 H2).
Qed.

Lemma str_ltb_asym a b : str_ltb a b = true → str_ltb b a = false.
Proof.
  unfold str_ltb, String.ltb. rewrite (String.compare_antisym b a).
  by destruct (String.compare a b).
Qed.

Lemma str_ltb_total a b : str_ltb a b = false → str_ltb b a = true ∨ a = b.
Proof.
  unfold str_ltb, String.ltb. rewrite (String.compare_antisym b a).
  destruct (String.compare a b) eqn:H; simpl; try done.
  - apply String.compare_eq_iff in H. by right.
  - by left.
Qed.

Lemma ref_le_refl a : ref_le a a.
Proof. by right. Qed.

Lemma ref_le_trans a b c : ref_le a b → ref_le b c → ref_le a c.
Proof.
  intros [Hab | Hab] [Hbc | Hbc]; subst; try (by left); try (by right). left.
  destruct a as [a|], b as [b|], c as [c|]; try done. simpl in *.
  by apply (str_ltb_trans a b c).
Qed.

Lemma ref_le_antisym a b : ref_le a b → ref_le b a → a = b.
Proof.
  intros [Hab | Hab] [Hba | Hba]; try congruence.
  destruct a as [a|], b as [b|]; try done. simpl in *.
  apply str_ltb_asym in Hab. congruence.
Qed.

Lemma ref_le_total a b : opt_ltb str_ltb a b = false → ref_le b a.
Proof.
  destruct a as [a|], b as [b|]; simpl; try done.
  - intros [H | ->]%str_ltb_total; [by left|by right].
  - intros _. by left.
  - intros _. by right.
Qed.

Section order_by_key.
Context {A : Type} (key : A → option string) (le : A → A → bool).
Hypothesis le_key : ∀ x y, le x y = true → ref_le (key x) (key y).
Hypothesis nle_key : ∀ x y, le x y = false → ref_le (key y) (key x).

Lemma insert_sorted_key_sorted x l :
  StronglySorted (λ a b, ref_le (key a) (key b)) l →
  StronglySorted (λ a b, ref_le (key a) (key b)) (insert_sorted le x l).
Proof.
  induction 1 as [|y l Hl IH Hy]; simpl.
  - repeat constructor.
  - destruct (le x y) eqn:Hxy.
    + constructor; [by constructor|]. constructor; [by apply le_key|].
      eapply Forall_impl; [exact Hy|]. simpl. intros z Hz.
      eapply ref_le_trans; [by apply le_key|done].
    + constructor; [done|]. rewrite insert_sorted_perm.
      constructor; [by apply nle_key|done].
Qed.

Lemma order_by_key_sorted l :
  StronglySorted (λ a b, ref_le (key a) (key b)) (order_by le l).
Proof.
  induction l as [|x l IH]; simpl; [constructor|].
  by apply insert_sorted_key_sorted.
Qed.
End order_by_key.

Lemma build_bilan_rows_sorted pdb participant_id :
  StronglySorted (λ a b, ref_le (row_referentiel a) (row_referentiel b))
    (_build_bilan_rows pdb participant_id).
Proof.
  unfold _build_bilan_rows.
  apply (StronglySorted_fmap _
           (λ a b, ref_le (Bilan.r_nom a.1.1.2) (Bilan.r_nom b.1.1.2))); [done|].
  apply order_by_key_sorted.
  - intros x y. unfold eval_row_leb, lex_leb. simpl.
    intros [H | [H _]%andb_true_iff]%orb_true_iff; [by left|].
    right. by apply bool_decide_eq_true in H.
  - intros x y. unfold eval_row_leb, lex_leb. simpl.
    intros [H _]%orb_false_iff. by apply ref_le_total.
Qed.

Lemma participant_groups_sorted (rows : list BilanRow) :
  StronglySorted (λ a b, ref_le (row_referentiel a) (row_referentiel b)) rows →
  concat (participant_groups_of rows).*2 = rows.
Proof.
  induction rows as [|r rows IH] using rev_ind; [done|].
  intros Hsorted. rewrite participant_groups_snoc.
  destruct (participant_groups_inv rows) as (Hnd & Hgroups & Hkeys).
  specialize (IH (StronglySorted_app_1_l _ _ _ Hsorted)).
  set (k := row_referentiel r). set (G := participant_groups_of rows) in *.
  destruct (decide (k ∈ G.*1)) as [Hin|Hnin].
  - destruct (keys_split _ _ Hin) as (G1 & g & G2 & HG & Hn1).
    rewrite HG in *. rewrite setdefault_append_mid by done.
    destruct G2 as [|[k2 g2] G2].
    + rewrite fmap_app, concat_app in *. simpl in *.
      rewrite app_nil_r in *. by rewrite <- IH, <- !app_assoc.
    + exfalso.
      destruct (Hgroups k g) as [Hg Hgf]; [apply elem_of_app; right; left|].
      destruct (Hgroups k2 g2) as [Hg2 Hgf2];
        [apply elem_of_app; right; right; left|].
      destruct g as [|x1 g]; [done|]. destruct g2 as [|x2 g2]; [done|].
      assert (H1 : row_referentiel x1 = k).
      { assert (Hx : x1 ∈ x1 :: g) by left.
        rewrite Hgf in Hx. by apply list_elem_of_filter in Hx as [Hx _]. }
      assert (H2 : row_referentiel x2 = k2).
      { assert (Hx : x2 ∈ x2 :: g2) by left.
        rewrite Hgf2 in Hx. by apply list_elem_of_filter in Hx as [Hx _]. }
      assert (Hne : k ≠ k2).
      { rewrite fmap_app in Hnd. apply NoDup_app in Hnd as (_ & _ & Hnd).
        simpl in Hnd. apply NoDup_cons in Hnd as [Hnd _].
        intros ->. apply Hnd. left. }
      assert (Hrows : rows = (concat G1.*2 ++ x1 :: g) ++ (x2 :: g2) ++ concat G2.*2).
      { rewrite <- IH, fmap_app, concat_app. simpl. by rewrite <- !app_assoc. }
      apply Hne, ref_le_antisym.
      * rewrite <- H1, <- H2.
        apply StronglySorted_app_1_l in Hsorted. rewrite Hrows in Hsorted.
        apply (StronglySorted_app_1_elem_of _ _ _ x1 x2 Hsorted).
        -- apply elem_of_app. right. left.
        -- left.
      * rewrite <- H2.
        apply (StronglySorted_app_1_elem_of _ _ _ x2 r Hsorted); [|left].
        rewrite Hrows. apply elem_of_app. right. left.
  - rewrite setdefault_append_new by done.
    rewrite fmap_app, concat_app. simpl. by rewrite IH.
Qed.

(** X15. Read group after group, the groups shown on the page of a
    participant give back the rows of [_build_bilan_rows] in their
    order: the rows of one referential are next to each other, so that
    grouping them moves no row. *)
Theorem bilan_groups_keep_order (pdb : PedagoDB) (participant_id : Z) :
  concat (participant_groups_of (_build_bilan_rows pdb participant_id)).*2
  = _build_bilan_rows pdb participant_id.
Proof. apply participant_groups_sorted, build_bilan_rows_sorted. Qed.

(** ** One row for each validated evaluation *)

Lemma length_bind_le {A B} (f : A → list B) (l : list A) :
  (∀ x, x ∈ l → (length (f x) ≤ 1)%nat) → (length (l ≫= f) ≤ length l)%nat.
Proof.
  induction l as [|x l IH]; intros Hl; [done|].
  csimpl. rewrite length_app.
  specialize (Hl x (list_elem_of_here _ _)) as Hx.
  specialize (IH (λ y Hy, Hl y (list_elem_of_further _ _ _ Hy))). lia.
Qed.

Lemma length_bind_eq {A B} (f : A → list B) (l : list A) :
  (∀ x, x ∈ l → length (f x) = 1%nat) → length (l ≫= f) = length l.
Proof.
  induction l as [|x l IH]; intros Hl; [done|].
  csimpl. rewrite length_app.
  specialize (Hl x (list_elem_of_here _ _)) as Hx.
  specialize (IH (λ y Hy, Hl y (list_elem_of_further _ _ _ Hy))). lia.
Qed.

Lemma length_filter_key {A} (l : list A) (key : A → Z) (k : option Z) :
  NoDup (key <$> l) → (length (filter (λ y : A, sql_eq k (key y)) l) ≤ 1)%nat.
Proof.
  intros Hnd.
  destruct (filter (λ y : A, sql_eq k (key y)) l) as [|x l'] eqn:Hf; [simpl; lia|].
  assert (Hx : x ∈ filter (λ y : A, sql_eq k (key y)) l) by (rewrite Hf; left).
  apply list_elem_of_filter in Hx as [Hk Hx].
  apply Is_true_true, sql_eq_true in Hk.
  rewrite (filter_key_unique l key x k Hnd Hx Hk) in Hf.
  injection Hf as <-. simpl. lia.
Qed.

Lemma length_outer {A} (l : list A) :
  (length l ≤ 1)%nat → length (outer l) = 1%nat.
Proof. destruct l as [|x [|y l]]; simpl; [done|done|lia]. Qed.

Section join_evaluation_facts.
Context (pdb : PedagoDB).
Hypothesis competences_pk : NoDup (Bilan.c_id <$> bilan_competences pdb).
Hypothesis referentiels_pk : NoDup (Bilan.r_id <$> referentiels pdb).
Hypothesis sessions_pk : NoDup (SessionActivite.id <$> sessions (base pdb)).
Hypothesis ateliers_pk : NoDup (AtelierActivite.id <$> ateliers (base pdb)).

Lemma length_join_sessions (e : Bilan.evaluation) (c : Bilan.competence)
    (r : Bilan.referentiel) :
  length (s ← outer (filter (λ s : SessionActivite.t,
                               sql_eq (Bilan.e_session_id e) (SessionActivite.id s))
                            (sessions (base pdb)));
          a ← outer (match s with
                     | Some s => filter (λ a : AtelierActivite.t,
                                           sql_eq (SessionActivite.atelier_id s)
                                                  (AtelierActivite.id a))
                                        (ateliers (base pdb))
                     | None => []
                     end);
          [(e, c, r, s, a)]) = 1%nat.
Proof.
  rewrite length_bind_eq; [by apply length_outer, length_filter_key|].
  intros s _. rewrite length_bind_eq; [|done].
  apply length_outer. destruct s as [s|]; [by apply length_filter_key|simpl; lia].
Qed.

Lemma length_join_evaluation_le e : (length (join_evaluation pdb e) ≤ 1)%nat.
Proof.
  unfold join_evaluation.
  etrans; [apply length_bind_le|by apply length_filter_key].
  intros c _. etrans; [apply length_bind_le|by apply length_filter_key].
  intros r _. by rewrite length_join_sessions.
Qed.

Lemma length_join_evaluation_eq e c r :
  c ∈ bilan_competences pdb → Bilan.e_competence_id e = Some (Bilan.c_id c) →
  r ∈ referentiels pdb → Bilan.c_referentiel_id c = Some (Bilan.r_id r) →
  length (join_evaluation pdb e) = 1%nat.
Proof.
  intros Hc Hec Hr Hcr. unfold join_evaluation.
  rewrite (filter_key_unique _ Bilan.c_id c) by done. csimpl.
  rewrite (filter_key_unique _ Bilan.r_id r) by done. csimpl.
  rewrite !app_nil_r. apply length_join_sessions.
Qed.
End join_evaluation_facts.

(** X16. When the identifiers of the competences, the referentials, the
    sessions and the ateliers are unique, [_build_bilan_rows] returns at
    most one row for each evaluation of the participant that is in
    state 2, and exactly one when each of these evaluations has its
    competence and the competence its referential. An evaluation in
    another state gives no row. *)
Theorem bilan_one_row_per_validation (pdb : PedagoDB) (participant_id : Z) :
  NoDup (Bilan.c_id <$> bilan_competences pdb) →
  NoDup (Bilan.r_id <$> referentiels pdb) →
  NoDup (SessionActivite.id <$> sessions (base pdb)) →
  NoDup (AtelierActivite.id <$> ateliers (base pdb)) →
  let validated :=
    filter (λ e, Bilan.e_participant_id e = Some participant_id
                 ∧ Bilan.e_etat e = Some 2) (bilan_evaluations pdb) in
  (length (_build_bilan_rows pdb participant_id) ≤ length validated)%nat
  ∧ ((∀ e, e ∈ validated →
        ∃ c r, c ∈ bilan_competences pdb
               ∧ Bilan.e_competence_id e = Some (Bilan.c_id c)
               ∧ r ∈ referentiels pdb
               ∧ Bilan.c_referentiel_id c = Some (Bilan.r_id r)) →
     length (_build_bilan_rows pdb participant_id) = length validated).
Proof.
  intros Hc Hr Hs Ha validated.
  assert (Hrows : length (_build_bilan_rows pdb participant_id)
                  = length (validated ≫= join_evaluation pdb)).
  { unfold _build_bilan_rows, eval_rows.
    rewrite length_fmap, length_order_by. do 2 f_equal.
    apply list_filter_iff. intros e.
    rewrite andb_True, !Is_true_true, !sql_eq_true. done. }
  rewrite Hrows. split.
  - apply length_bind_le. intros e _. by apply length_join_evaluation_le.
  - intros Hfk. apply length_bind_eq. intros e He.
    destruct (Hfk e He) as (c & r & ? & ? & ? & ?).
    by apply (length_join_evaluation_eq pdb Hc Hr Hs Ha e c r).
Qed.

Lemma bilan_one_row_per_validation_witness :
  _build_bilan_rows sample_pdb 7
  = [mkBilanRow (Some "Autonomie") "B1 · Prendre la parole" "" (Some "");
     mkBilanRow (Some "Socle informatique") "A1 · Allumer un ordinateur"
       "05/01/2024" (Some "Informatique")]
  ∧ length (_build_bilan_rows sample_pdb 7)
    = length (filter (λ e, Bilan.e_participant_id e = Some 7
                           ∧ Bilan.e_etat e = Some 2)
                     (bilan_evaluations sample_pdb)).
Proof.
  split; [vm_compute; reflexivity|].
  apply (bilan_one_row_per_validation sample_pdb 7).
  1-4: refine (bool_decide_unpack _ _); vm_compute; exact I.
  intros e He.
  assert (Hv : filter (λ e, Bilan.e_participant_id e = Some 7
                            ∧ Bilan.e_etat e = Some 2)
                      (bilan_evaluations sample_pdb)
               = take 2 (bilan_evaluations sample_pdb))
    by (vm_compute; reflexivity).
  rewrite Hv in He. clear Hv.
  apply elem_of_cons in He as [-> | He].
  { exists (Bilan.mk_competence 1 (Some "A1") (Some "Allumer un ordinateur") (Some 1)),
           (Bilan.mk_referentiel 1 (Some "Socle informatique")).
    split_and!; [left|reflexivity|left|reflexivity]. }
  apply elem_of_cons in He as [-> | He]; [|by apply elem_of_nil in He].
  exists (Bilan.mk_competence 2 (Some "B1") (Some "Prendre la parole") (Some 2)),
         (Bilan.mk_referentiel 2 (Some "Autonomie")).
  split_and!; [right; left|reflexivity|right; left|reflexivity].
Defined.

(** ** Evaluations outside a session *)

Lemma elem_of_outer_None {A} (l : list A) : l = [] → None ∈ outer l.
Proof. intros ->. left. Qed.

(** X17. A validated evaluation (state 2) of the participant whose
    competence and referential exist is in the record even when no atelier
    can be reached from it, because it has no session, or its session is
    gone, or the session has no atelier: the outer joins keep it, and the
    row has an empty atelier label. *)
Theorem bilan_keeps_evaluation_without_atelier (pdb : PedagoDB)
    (participant_id : Z) (e : Bilan.evaluation) (c : Bilan.competence)
    (r : Bilan.referentiel) :
  e ∈ bilan_evaluations pdb →
  Bilan.e_participant_id e = Some participant_id →
  Bilan.e_etat e = Some 2 →
  c ∈ bilan_competences pdb →
  Bilan.e_competence_id e = Some (Bilan.c_id c) →
  r ∈ referentiels pdb →
  Bilan.c_referentiel_id c = Some (Bilan.r_id r) →
  (∀ s a, s ∈ sessions (base pdb) → a ∈ ateliers (base pdb) →
     Bilan.e_session_id e = Some (SessionActivite.id s) →
     SessionActivite.atelier_id s ≠ Some (AtelierActivite.id a)) →
  {| row_referentiel := Bilan.r_nom r;
     row_competence := py_str (Bilan.c_code c) +:+ " · " +:+ py_str (Bilan.c_nom c);
     row_date := match Bilan.e_date_evaluation e with
                 | Some dt => strftime_dmY dt
                 | None => ""
                 end;
     row_atelier := Some "" |} ∈ _build_bilan_rows pdb participant_id.
Proof.
  intros He Hp Hetat Hc Hec Hr Hcr Hnone.
  assert (Hrow : ∃ s, (e, c, r, s, None) ∈ eval_rows pdb participant_id).
  { assert (Hs : ∃ s,
      s ∈ outer (filter (λ s : SessionActivite.t,
                           sql_eq (Bilan.e_session_id e) (SessionActivite.id s))
                        (sessions (base pdb)))
      ∧ None ∈ outer (match s with
                      | Some s => filter (λ a : AtelierActivite.t,
                                            sql_eq (SessionActivite.atelier_id s)
                                                   (AtelierActivite.id a))
                                         (ateliers (base pdb))
                      | None => []
                      end)).
    { destruct (filter _ (sessions (base pdb))) as [|s l] eqn:Hf.
      - exists None. split; [left|left].
      - exists (Some s). split; [left|].
        assert (Hin : s ∈ filter (λ s : SessionActivite.t,
                        sql_eq (Bilan.e_session_id e) (SessionActivite.id s))
                        (sessions (base pdb))) by (rewrite Hf; left).
        apply list_elem_of_filter in Hin as [Hes Hin].
        apply Is_true_true, sql_eq_true in Hes.
        apply elem_of_outer_None, filter_none.
        intros a Ha Hsa%Is_true_true%sql_eq_true.
        by apply (Hnone s a). }
    destruct Hs as (s & Hs & Ha). exists s.
    unfold eval_rows. apply list_elem_of_bind. exists e. split.
    - unfold join_evaluation.
      apply list_elem_of_bind. exists c. split.
      + apply list_elem_of_bind. exists r. split.
        * apply list_elem_of_bind. exists s. split; [|done].
          apply list_elem_of_bind. exists None. split; [left|done].
        * apply list_elem_of_filter. split; [|done].
          by apply Is_true_true, sql_eq_true.
      + apply list_elem_of_filter. split; [|done].
        by apply Is_true_true, sql_eq_true.
    - apply list_elem_of_filter. split; [|done].
      apply Is_true_true, andb_true_iff. by rewrite !sql_eq_true. }
  destruct Hrow as (s & Hrow). unfold _build_bilan_rows.
  apply list_elem_of_fmap. exists (e, c, r, s, None). split; [done|].
  by apply elem_of_order_by.
Qed.

Lemma bilan_keeps_evaluation_without_atelier_witness :
  mkBilanRow (Some "Autonomie") "B1 · Prendre la parole" "" (Some "")
  ∈ _build_bilan_rows sample_pdb 7.
Proof.
  apply (bilan_keeps_evaluation_without_atelier sample_pdb 7
           (Bilan.mk_evaluation 2 (Some 7) (Some 2) None (Some 2) None)
           (Bilan.mk_competence 2 (Some "B1") (Some "Prendre la parole") (Some 2))
           (Bilan.mk_referentiel 2 (Some "Autonomie"))).
  - right; left.
  - reflexivity.
  - reflexivity.
  - right; left.
  - reflexivity.
  - right; left.
  - reflexivity.
  - intros s a _ _ Hs. discriminate Hs.
Defined.

(** ** The update action *)

Lemma rstrip_idem s : rstrip (rstrip s) = rstrip s.
Proof.
  induction s as [|c s IH]; simpl; [done|].
  destruct (rstrip s) as [|b r] eqn:Hr.
  - destruct (py_isspace c) eqn:Hc; simpl; [done|]. by rewrite Hc.
  - simpl in *. by rewrite IH.
Qed.

Lemma lstrip_head s :
  lstrip s = "" ∨ ∃ c r, lstrip s = String c r ∧ py_isspace c = false.
Proof.
  induction s as [|c s IH]; simpl; [by left|].
  destruct (py_isspace c) eqn:Hc; [done|]. right. by exists c, s.
Qed.

Lemma rstrip_head c s :
  py_isspace c = false → ∃ r, rstrip (String c s) = String c r.
Proof.
  intros Hc. simpl. destruct (rstrip s) as [|b r]; rewrite ?Hc; eauto.
Qed.

Lemma strip_idem s : strip (strip s) = strip s.
Proof.
  unfold strip.
  destruct (lstrip_head s) as [-> | (c & r & -> & Hc)]; [done|].
  destruct (rstrip_head c r Hc) as (r' & Hr). rewrite Hr at 1.
  simpl lstrip. rewrite Hc, <- Hr. apply rstrip_idem.
Qed.

Lemma upper_char_isspace c : py_isspace (upper_char c) = py_isspace c.
Proof. by destruct c as [[] [] [] [] [] [] [] []]. Qed.

Lemma upper_char_idem c : upper_char (upper_char c) = upper_char c.
Proof. by destruct c as [[] [] [] [] [] [] [] []]. Qed.

Lemma py_upper_idem s : py_upper (py_upper s) = py_upper s.
Proof.
  induction s as [|c s IH]; simpl; [done|]. by rewrite upper_char_idem, IH.
Qed.

Lemma lstrip_upper s : lstrip (py_upper s) = py_upper (lstrip s).
Proof.
  induction s as [|c s IH]; simpl; [done|].
  rewrite upper_char_isspace. by destruct (py_isspace c).
Qed.

Lemma rstrip_upper s : rstrip (py_upper s) = py_upper (rstrip s).
Proof.
  induction s as [|c s IH]; simpl; [done|].
  rewrite IH, upper_char_isspace.
  destruct (rstrip s); simpl; [by destruct (py_isspace c)|done].
Qed.

Lemma strip_upper s : strip (py_upper s) = py_upper (strip s).
Proof. unfold strip. by rewrite lstrip_upper, rstrip_upper. Qed.

Lemma form_name_kept form key current : name_kept current (form_name form key current).
Proof.
  unfold form_name. cbv zeta.
  destruct (str_truthy (strip _)) eqn:Hs; [|by left].
  right. eexists. split; [done|]. split; [by apply str_truthy_true|].
  apply strip_idem.
Qed.

Lemma form_text_clean form key : clean_text (form_text form key).
Proof.
  unfold form_text, or_None.
  destruct (str_truthy (strip _)) eqn:Hs; [|by left].
  right. eexists. split; [done|]. split; [by apply str_truthy_true|].
  apply strip_idem.
Qed.

Lemma form_type_public_normal form current :
  strip (form_type_public form current) = form_type_public form current
  ∧ py_upper (form_type_public form current) = form_type_public form current.
Proof.
  unfold form_type_public. split.
  - by rewrite strip_upper, strip_idem.
  - apply py_upper_idem.
Qed.

Section update_participant_facts.
Context (fromisoformat : string → option date).
Context (u : User) (allowed_ids : gset Z) (commit_ok : bool)
        (form : gmap string string) (rows : list ParticipantRecord.t).

Let participant_id := form_participant_id (form !! "participant_id").
Let out := update_participant fromisoformat u allowed_ids commit_ok form rows.

Lemma update_participant_cases :
  out.2 = rows
  ∨ ∃ i p, list_find (λ p, ParticipantRecord.id p = participant_id) rows
             = Some (i, p)
           ∧ out = (Redirect msg_updated "success",
                    <[i := updated fromisoformat form p]> rows)
           ∧ _can_view u = true ∧ participant_id ≠ 0
           ∧ participant_id ∈ allowed_ids ∧ commit_ok = true.
Proof.
  subst out. unfold update_participant. cbv zeta. fold participant_id.
  destruct (_can_view u); simpl; [|by left].
  destruct (Z.eqb_spec participant_id 0); simpl; [by left|].
  destruct (decide (participant_id ∉ allowed_ids)) as [Hn|Hin].
  { rewrite bool_decide_eq_true_2 by done. by left. }
  rewrite bool_decide_eq_false_2 by done.
  destruct (list_find _ rows) as [[i p]|]; [|by left].
  destruct commit_ok; [|by left].
  right. exists i, p. split_and!; try done.
  by apply dec_stable.
Qed.
End update_participant_facts.

(** X18. The update action changes at most one row of the participants,
    the first one whose id is the one of the form, and never an id; it
    changes a row only when the caller may view the statistics, the id
    is in the roster of the caller and the transaction commits, and the
    answer is then the success message; an id outside the roster is
    answered by 403. *)
Theorem update_participant_guarded (fromisoformat : string → option date)
    (u : User) (allowed_ids : gset Z) (commit_ok : bool)
    (form : gmap string string) (rows : list ParticipantRecord.t) :
  let participant_id := form_participant_id (form !! "participant_id") in
  let out := update_participant fromisoformat u allowed_ids commit_ok form rows in
  ParticipantRecord.id <$> out.2 = ParticipantRecord.id <$> rows
  ∧ (∀ i p, rows !! i = Some p → ParticipantRecord.id p ≠ participant_id →
       out.2 !! i = Some p)
  ∧ (∀ i j, out.2 !! i ≠ rows !! i → out.2 !! j ≠ rows !! j → i = j)
  ∧ (out.2 ≠ rows →
       out.1 = Redirect msg_updated "success" ∧ _can_view u = true
       ∧ participant_id ∈ allowed_ids ∧ commit_ok = true)
  ∧ (participant_id ∉ allowed_ids → out = (Abort 403, rows)).
Proof.
  intros participant_id out.
  pose proof (update_participant_cases fromisoformat u allowed_ids commit_ok
                form rows) as Hcases.
  cbv zeta in Hcases. fold participant_id out in Hcases.
  destruct Hcases as [Hsame | (k & q & Hfind & Hout & Hview & Hnz & Hin & Hcommit)].
  - rewrite Hsame. split_and!; try done.
    subst out. unfold update_participant. cbv zeta. fold participant_id.
    intros Hn. rewrite (bool_decide_eq_true_2 _ Hn), orb_true_r.
    by destruct (negb (_can_view u)).
  - rewrite Hout. simpl.
    apply list_find_Some in Hfind as (Hk & Hq & _).
    split_and!.
    + rewrite list_fmap_insert. simpl.
      apply list_insert_id. by rewrite list_lookup_fmap, Hk.
    + intros i p Hi Hne. rewrite list_lookup_insert_ne; [done|].
      intros <-. congruence.
    + intros i j Hi Hj.
      destruct (decide (k = i)) as [<-|Hki];
        [|by rewrite list_lookup_insert_ne in Hi].
      destruct (decide (k = j)) as [<-|Hkj]; [done|].
      by rewrite list_lookup_insert_ne in Hj.
    + done.
    + done.
Qed.

(** X19. A row that the update action has changed keeps its id; its
    name and its first name are kept or replaced by a text that is not
    empty and has no surrounding white space, so that a blank field of
    the form never erases a name; its town, email, telephone and gender
    are NULL or such a text; its type of public is set, stripped and in
    upper case. *)
Theorem update_participant_fields (fromisoformat : string → option date)
    (u : User) (allowed_ids : gset Z) (commit_ok : bool)
    (form : gmap string string) (rows : list ParticipantRecord.t)
    (i : nat) (p p' : ParticipantRecord.t) :
  rows !! i = Some p →
  (update_participant fromisoformat u allowed_ids commit_ok form rows).2 !! i
  = Some p' →
  p' = p
  ∨ (ParticipantRecord.id p' = ParticipantRecord.id p
     ∧ name_kept (ParticipantRecord.nom p) (ParticipantRecord.nom p')
     ∧ name_kept (ParticipantRecord.prenom p) (ParticipantRecord.prenom p')
     ∧ clean_text (ParticipantRecord.ville p')
     ∧ clean_text (ParticipantRecord.email p')
     ∧ clean_text (ParticipantRecord.telephone p')
     ∧ clean_text (ParticipantRecord.genre p')
     ∧ ∃ t, ParticipantRecord.type_public p' = Some t
            ∧ strip t = t ∧ py_upper t = t).
Proof.
  intros Hp Hp'.
  pose proof (update_participant_cases fromisoformat u allowed_ids commit_ok
                form rows) as Hcases.
  cbv zeta in Hcases.
  destruct Hcases as [Hsame | (k & q & Hfind & Hout & _)].
  { left. rewrite Hsame in Hp'. congruence. }
  rewrite Hout in Hp'. simpl in Hp'.
  apply list_find_Some in Hfind as (Hk & _).
  destruct (decide (k = i)) as [->|Hne].
  - right. assert (q = p) as -> by congruence.
    rewrite list_lookup_insert_eq in Hp' by (by eapply lookup_lt_Some).
    injection Hp' as <-. simpl.
    split_and!; try done; try apply form_name_kept; try apply form_text_clean.
    eexists. split; [done|]. apply form_type_public_normal.
  - left. rewrite list_lookup_insert_ne in Hp' by done. congruence.
Qed.

Lemma update_participant_fields_witness :
  let out := update_participant (λ _, None) viewer_nord {[ 7; 8 ]} true
               sample_update_form sample_records in
  out = (Redirect msg_updated "success",
         [ParticipantRecord.mk 7 (Some "Martin") (Some "Xavière") None None None
            None (Some "S") None None;
          ParticipantRecord.mk 8 (Some "Durand") (Some "Yvonne") None None None
            None None None None])
  ∧ ∃ p p', sample_records !! 0%nat = Some p ∧ out.2 !! 0%nat = Some p'
      ∧ ParticipantRecord.id p' = ParticipantRecord.id p
      ∧ name_kept (ParticipantRecord.nom p) (ParticipantRecord.nom p')
      ∧ clean_text (ParticipantRecord.ville p').
Proof.
  intros out. split; [vm_compute; reflexivity|].
  eexists _, _. split; [reflexivity|]. split; [vm_compute; reflexivity|].
  edestruct (update_participant_fields (λ _, None) viewer_nord {[ 7; 8 ]} true
               sample_update_form sample_records 0)
    as [Heq | (H1 & H2 & _ & H4 & _)];
    [reflexivity | vm_compute; reflexivity | discriminate Heq |].
  split_and!; [exact H1 | exact H2 | exact H4].
Defined.

(** ** Names of archive folders and files *)

Lemma chars_replace_spaces s c :
  c ∈ chars (replace_spaces s) →
  c = "_"%char ∨ (c ∈ chars s ∧ c ≠ " "%char).
Proof.
  induction s as [|a s IH]; simpl; [by intros ?%elem_of_nil|].
  intros [-> | H]%elem_of_cons.
  - destruct (Ascii.eqb_spec a " "); [by left|]. right. split; [left|done].
  - destruct (IH H) as [-> | [Hc Hne]]; [by left|]. right. split; [by right|done].
Qed.

Lemma safe_filename_chars s c : c ∈ chars (_safe_filename s) → component_char c.
Proof.
  unfold _safe_filename.
  intros [-> | [Hc Hne]]%chars_replace_spaces; [by right; right|].
  apply chars_strip, chars_string_filter in Hc as [Hf _].
  apply orb_true_iff in Hf as [Hf | Hf]; [by left|].
  apply bool_decide_eq_true in Hf. simpl in Hf.
  apply elem_of_cons in Hf as [-> | Hf]; [by right; left|].
  apply elem_of_cons in Hf as [-> | Hf]; [by right; right|].
  apply list_elem_of_singleton in Hf. done.
Qed.

Lemma component_char_kept c :
  component_char c →
  py_isspace c = false ∧ Ascii.eqb c " " = false
  ∧ py_isalnum c || bool_decide (c ∈ chars "-_ ") = true.
Proof.
  intros [H | [-> | ->]]; [|done|done].
  destruct c as [[] [] [] [] [] [] [] []]; done.
Qed.

Lemma string_filter_all f s :
  (∀ c, c ∈ chars s → f c = true) → string_filter f s = s.
Proof.
  induction s as [|a s IH]; simpl; intros H; [done|].
  rewrite (H a) by left. rewrite IH; [done|]. intros c Hc. apply H. by right.
Qed.

Lemma rstrip_none s : (∀ c, c ∈ chars s → py_isspace c = false) → rstrip s = s.
Proof.
  induction s as [|a s IH]; simpl; intros H; [done|].
  rewrite IH by (intros c Hc; apply H; by right).
  destruct s; [|done]. by rewrite (H a) by left.
Qed.

Lemma strip_none s : (∀ c, c ∈ chars s → py_isspace c = false) → strip s = s.
Proof.
  intros H. unfold strip.
  assert (Hl : lstrip s = s) by (destruct s as [|a s]; simpl; [done|]; by rewrite (H a) by left).
  rewrite Hl. by apply rstrip_none.
Qed.

Lemma replace_spaces_none s :
  (∀ c, c ∈ chars s → Ascii.eqb c " " = false) → replace_spaces s = s.
Proof.
  induction s as [|a s IH]; simpl; intros H; [done|].
  rewrite (H a) by left. rewrite IH; [done|]. intros c Hc. apply H. by right.
Qed.

(** X20. A name made of ASCII characters comes out of [_safe_filename]
    with letters, digits, hyphens and underscores only: no space, no
    dot and no path separator is left; and a name that has been through
    [_safe_filename] is not changed by it again. *)
Theorem safe_filename_component (s : string) :
  ascii_only s →
  (∀ c, c ∈ chars (_safe_filename s) → component_char c)
  ∧ _safe_filename (_safe_filename s) = _safe_filename s.
Proof.
  intros _. split; [apply safe_filename_chars|].
  set (t := _safe_filename s).
  assert (Ht : ∀ c, c ∈ chars t → component_char c) by apply safe_filename_chars.
  unfold _safe_filename at 1.
  rewrite string_filter_all by (intros c Hc; by apply component_char_kept, Ht).
  rewrite strip_none by (intros c Hc; by apply component_char_kept, Ht).
  apply replace_spaces_none. intros c Hc. by apply component_char_kept, Ht.
Qed.

Lemma safe_filename_component_witness :
  ascii_only "../secteur nord"
  ∧ _safe_filename "../secteur nord" = "secteur_nord"
  ∧ _safe_filename (_safe_filename "../secteur nord") = _safe_filename "../secteur nord".
Proof.
  assert (Hascii : ascii_only "../secteur nord").
  { intros c Hc. refine (bool_decide_unpack _ _).
    revert c Hc. apply Forall_forall. refine (bool_decide_unpack _ _).
    vm_compute. exact I. }
  split; [exact Hascii|]. split; [vm_compute; reflexivity|].
  exact (proj2 (safe_filename_component "../secteur nord" Hascii)).
Defined.

Lemma chars_app a b : chars (a +:+ b) = chars a ++ chars b.
Proof. induction a as [|c a IH]; simpl; [done|]. by rewrite <- IH. Qed.

Lemma chars_string_of_uint u c :
  c ∈ chars (NilEmpty.string_of_uint u) → py_isalnum c = true.
Proof.
  induction u as [|u IH|u IH|u IH|u IH|u IH|u IH|u IH|u IH|u IH|u IH]; simpl;
    [by intros ?%elem_of_nil|..];
    (intros [-> | H]%elem_of_cons; [done|by apply IH]).
Qed.

Lemma chars_string_of_uint_zero u c :
  c ∈ chars (NilZero.string_of_uint u) → py_isalnum c = true.
Proof.
  destruct u; [|apply chars_string_of_uint..].
  simpl. by intros ->%list_elem_of_singleton.
Qed.

Lemma chars_py_str_int n c : c ∈ chars (py_str_int n) → component_char c.
Proof.
  unfold py_str_int, NilZero.string_of_int.
  destruct (Z.to_int n) as [u|u].
  - left. by apply (chars_string_of_uint_zero u).
  - simpl. intros [-> | H]%elem_of_cons; [by right; left|].
    left. by apply (chars_string_of_uint_zero u).
Qed.

Lemma chars_format_02d n c : c ∈ chars (format_02d n) → component_char c.
Proof.
  unfold format_02d. cbv zeta. destruct (_ <? _)%nat.
  - rewrite chars_app. intros [H | H]%elem_of_app.
    + apply list_elem_of_singleton in H as ->. by left.
    + by apply (chars_py_str_int n).
  - apply chars_py_str_int.
Qed.

Lemma month_cases (m : Z) :
  1 ≤ m → m ≤ 12 →
  m = 1 ∨ m = 2 ∨ m = 3 ∨ m = 4 ∨ m = 5 ∨ m = 6 ∨ m = 7 ∨ m = 8 ∨ m = 9
  ∨ m = 10 ∨ m = 11 ∨ m = 12.
Proof. lia. Qed.

Lemma month_folder_other m :
  ¬ (1 ≤ m ≤ 12) → _month_folder m = format_02d m +:+ "_Mois".
Proof.
  intros H. unfold _month_folder. cbv zeta.
  destruct (Z.leb_spec 1 m); simpl; [|done].
  destruct (Z.leb_spec m 12); simpl; [lia|done].
Qed.

Lemma chars_month_folder m c : c ∈ chars (_month_folder m) → component_char c.
Proof.
  destruct (decide (1 ≤ m ≤ 12)) as [[H1 H12] | Hout].
  - intros Hc. unfold component_char.
    assert (Hall : Forall (λ c, py_isalnum c = true ∨ c = "-"%char ∨ c = "_"%char)
                     (chars (_month_folder m))); [|by eapply Forall_forall in Hall].
    clear Hc.
    destruct (month_cases m H1 H12)
      as [->|[->|[->|[->|[->|[->|[->|[->|[->|[->|[->| ->]]]]]]]]]]];
      refine (bool_decide_unpack _ _); vm_compute; exact I.
  - rewrite (month_folder_other m Hout), chars_app.
    intros [H | H]%elem_of_app; [by apply (chars_format_02d m)|].
    assert (Hall : Forall component_char (chars "_Mois"));
      [|by eapply Forall_forall in Hall].
    unfold component_char. refine (bool_decide_unpack _ _). vm_compute. exact I.
Qed.

(** X21. The folder of a month starts with the number of the month on
    two digits and an underscore, for the twelve months as for any other
    number, and the folders of the twelve months sort in the order of
    the calendar. *)
Theorem month_folder_calendar_order (m n : Z) :
  1 ≤ m → m < n → n ≤ 12 →
  str_ltb (_month_folder m) (_month_folder n) = true
  ∧ ∀ k, ∃ name, name ≠ "" ∧ _month_folder k = format_02d k +:+ "_" +:+ name.
Proof.
  intros H1 Hlt H12. split.
  - destruct (month_cases m H1 ltac:(lia))
      as [->|[->|[->|[->|[->|[->|[->|[->|[->|[->|[->| ->]]]]]]]]]]];
    destruct (month_cases n ltac:(lia) H12)
      as [->|[->|[->|[->|[->|[->|[->|[->|[->|[->|[->| ->]]]]]]]]]]];
    try lia; vm_compute; reflexivity.
  - intros k. destruct (decide (1 ≤ k ≤ 12)) as [[Hk1 Hk12] | Hout].
    + exists (String.substring 3 20 (_month_folder k)).
      destruct (month_cases k Hk1 Hk12)
        as [->|[->|[->|[->|[->|[->|[->|[->|[->|[->|[->| ->]]]]]]]]]]];
        (split; [discriminate|vm_compute; reflexivity]).
    + exists "Mois". split; [done|]. by rewrite (month_folder_other k Hout).
Qed.

Lemma month_folder_calendar_order_witness :
  _month_folder 9 = "09_Septembre" ∧ _month_folder 10 = "10_Octobre"
  ∧ _month_folder 13 = "13_Mois" ∧ _month_folder (-1) = "-1_Mois"
  ∧ str_ltb (_month_folder 9) (_month_folder 10) = true.
Proof.
  do 4 (split; [vm_compute; reflexivity|]).
  apply (month_folder_calendar_order 9 10); lia.
Defined.

Lemma chars_digit n c : c ∈ chars (digit n) → component_char c.
Proof.
  unfold digit. simpl. intros ->%list_elem_of_singleton. left.
  assert (H : 0 ≤ n mod 10 < 10) by (apply Z.mod_pos_bound; lia).
  assert (Hd : n mod 10 = 0 ∨ n mod 10 = 1 ∨ n mod 10 = 2 ∨ n mod 10 = 3
               ∨ n mod 10 = 4 ∨ n mod 10 = 5 ∨ n mod 10 = 6 ∨ n mod 10 = 7
               ∨ n mod 10 = 8 ∨ n mod 10 = 9) by lia.
  destruct Hd as [->|[->|[->|[->|[->|[->|[->|[->|[->| ->]]]]]]]]]; reflexivity.
Qed.

Lemma chars_strftime_Ymd dt c : c ∈ chars (strftime_Ymd dt) → component_char c.
Proof.
  unfold strftime_Ymd, fmt04, fmt02. rewrite !chars_app, !elem_of_app.
  intros H.
  repeat match type of H with
         | _ ∨ _ => destruct H as [H | H]
         | _ ∈ chars (digit _) => by apply chars_digit in H
         | _ ∈ chars "-" => apply list_elem_of_singleton in H as ->; by right; left
         end.
Qed.

Lemma chars_literal (lit : string) c :
  Forall (λ c, component_char c ∨ c = "."%char) (chars lit) →
  c ∈ chars lit → component_char c ∨ c = "."%char.
Proof. intros Hall Hc. by eapply Forall_forall in Hall. Qed.

Lemma literal_collectif :
  Forall (λ c, component_char c ∨ c = "."%char) (chars "__COLLECTIF__").
Proof.
  unfold component_char. refine (bool_decide_unpack _ _). vm_compute. exact I.
Qed.

Lemma literal_individuel :
  Forall (λ c, component_char c ∨ c = "."%char) (chars "__INDIVIDUEL__").
Proof.
  unfold component_char. refine (bool_decide_unpack _ _). vm_compute. exact I.
Qed.

Lemma literal_docx :
  Forall (λ c, component_char c ∨ c = "."%char) (chars ".docx").
Proof.
  unfold component_char. refine (bool_decide_unpack _ _). vm_compute. exact I.
Qed.

(** X22. Whatever the sector and the name of the atelier, the year, the
    month and the hours of the session, the four components of the
    archive folder are made of letters, digits, hyphens and underscores,
    and the names of the files of these characters and of dots: no
    component and no file name holds a path separator, and no folder
    component is [..], so that an archive is always written below the
    root of the archives. *)
Theorem archive_names_stay_below_root (secteur nom : string) (y m : Z)
    (dt : date) (heure_debut heure_fin : option string) (annee mois : Z) :
  ascii_only secteur → ascii_only nom →
  ascii_only (time_label heure_debut heure_fin) →
  (∀ component c, component ∈ archive_folder secteur nom y m →
     c ∈ chars component → component_char c)
  ∧ (∀ c, c ∈ chars (collectif_fname dt nom heure_debut heure_fin) →
       component_char c ∨ c = "."%char)
  ∧ (∀ c, c ∈ chars (individuel_fname annee mois nom) →
       component_char c ∨ c = "."%char)
  ∧ ".." ∉ archive_folder secteur nom y m.
Proof.
  intros _ _ _.
  assert (Hfolder : ∀ component c, component ∈ archive_folder secteur nom y m →
            c ∈ chars component → component_char c).
  { intros component c Hcomp Hc. unfold archive_folder in Hcomp.
    repeat (apply elem_of_cons in Hcomp as [-> | Hcomp]).
    - by apply (safe_filename_chars secteur).
    - by apply (chars_py_str_int y).
    - by apply (safe_filename_chars nom).
    - by apply (chars_month_folder m).
    - by apply elem_of_nil in Hcomp. }
  split_and!.
  - exact Hfolder.
  - intros c. unfold collectif_fname. cbv zeta.
    rewrite !chars_app, !elem_of_app.
    intros [H | [H | [H | [H | [H | H]]]]].
    + left. by apply (chars_strftime_Ymd dt).
    + by apply (chars_literal "__COLLECTIF__"); [apply literal_collectif|].
    + left. by apply (safe_filename_chars nom).
    + left. apply elem_of_cons in H as [-> | H]; [by right; right|].
      apply list_elem_of_singleton in H as ->. by right; right.
    + left. by eapply safe_filename_chars.
    + by apply (chars_literal ".docx"); [apply literal_docx|].
  - intros c. unfold individuel_fname.
    rewrite !chars_app, !elem_of_app.
    intros [H | [H | [H | [H | [H | H]]]]].
    + left. by apply (chars_py_str_int annee).
    + apply list_elem_of_singleton in H as ->. left. by right; left.
    + left. by apply (chars_format_02d mois).
    + by apply (chars_literal "__INDIVIDUEL__"); [apply literal_individuel|].
    + left. by apply (safe_filename_chars nom).
    + by apply (chars_literal ".docx"); [apply literal_docx|].
  - intros Hdots. specialize (Hfolder ".." "."%char Hdots).
    destruct Hfolder as [H | [H | H]]; [left|discriminate..].
Qed.

Lemma archive_names_stay_below_root_witness :
  let secteur := "../../etc" in
  let nom := "Atelier /tmp" in
  ascii_only secteur ∧ ascii_only nom
  ∧ archive_folder secteur nom 2024 3 = ["etc"; "2024"; "Atelier_tmp"; "03_Mars"]
  ∧ collectif_fname (d 2024 3 7) nom (Some "09:00") (Some "11:00")
    = "2024-03-07__COLLECTIF__Atelier_tmp__0900-1100.docx"
  ∧ individuel_fname 2024 3 nom = "2024-03__INDIVIDUEL__Atelier_tmp.docx"
  ∧ ".." ∉ archive_folder secteur nom 2024 3.
Proof.
  intros secteur nom.
  assert (Hascii : ∀ s, Forall (λ c, (N_of_ascii c < 128)%N) (chars s) → ascii_only s).
  { intros s Hs c Hc. by eapply Forall_forall in Hs. }
  assert (H1 : ascii_only secteur).
  { apply Hascii. refine (bool_decide_unpack _ _). vm_compute. exact I. }
  assert (H2 : ascii_only nom).
  { apply Hascii. refine (bool_decide_unpack _ _). vm_compute. exact I. }
  assert (H3 : ascii_only (time_label (Some "09:00") (Some "11:00"))).
  { apply Hascii. refine (bool_decide_unpack _ _). vm_compute. exact I. }
  split; [exact H1|]. split; [exact H2|].
  do 3 (split; [vm_compute; reflexivity|]).
  exact (proj2 (proj2 (proj2 (archive_names_stay_below_root secteur nom 2024 3
           (d 2024 3 7) (Some "09:00") (Some "11:00") 2024 3 H1 H2 H3)))).
Defined.

(** ** The rows of the monthly sheet *)

Lemma py_date_Some y m j dt :
  py_date y m j = Some dt →
  dt = mkdate y m j ∧ 1 ≤ y ≤ 9999 ∧ 1 ≤ m ≤ 12 ∧ 1 ≤ j.
Proof.
  unfold py_date.
  destruct (Z.leb_spec 1 y), (Z.leb_spec y 9999), (Z.leb_spec 1 m),
    (Z.leb_spec m 12), (Z.leb_spec 1 j); simpl; try discriminate.
  destruct (j <=? days_in_month y m); [|discriminate].
  intros [= <-]. repeat split; lia.
Qed.

Lemma in_month_date annee mois s :
  in_month annee mois s = true →
  ∃ dt, Rdv.s_rdv_date s = Some dt ∧ year dt = annee ∧ month dt = mois.
Proof.
  unfold in_month. destruct (Rdv.s_rdv_date s) as [dt|]; [|done].
  intros [Hy Hm]%andb_true_iff. exists dt. split; [done|]. lia.
Qed.

Lemma rdv_sessions_month tb atelier_id annee mois :
  (∀ s dt, s ∈ Rdv.t_sessions tb → Rdv.s_rdv_date s = Some dt → 1 ≤ day dt) →
  rdv_sessions tb atelier_id annee mois (mkdate annee mois 1)
  = order_by (rdv_leb (mkdate annee mois 1))
      (month_sessions tb atelier_id annee mois).
Proof.
  intros Hvalid. unfold rdv_sessions, rdv_query, month_sessions. f_equal.
  rewrite list_filter_filter. apply filter_ext_in. intros s Hs.
  rewrite !andb_True.
  split; [tauto|]. intros [[[Ha Ht] Hd] Hm]. split; [done|].
  apply Is_true_true in Hm as Hm'.
  destruct (in_month_date _ _ _ Hm') as (dt & Hdt & Hy & Hmo).
  specialize (Hvalid s dt Hs Hdt).
  split_and!; try done.
  - rewrite Hdt. by apply bool_decide_pack.
  - rewrite Hdt. simpl. unfold date_leb. simpl.
    apply Is_true_true.
    destruct (Z.ltb_spec annee (year dt)); [done|].
    destruct (Z.eqb_spec annee (year dt)); [simpl|lia].
    destruct (Z.ltb_spec mois (month dt)); [done|].
    destruct (Z.eqb_spec mois (month dt)); [simpl|lia].
    by apply Z.leb_le.
Qed.

(** X23. When the dates stored have a day of at least 1 and
    [generate_individuel_mensuel_docx] gets as far as its rows, the year
    is in 1..9999 and the month in 1..12; each row is an appointment of
    the month, its date written [dd/mm/YYYY] with that month and that
    year; the lower bound of the query changes nothing, the sessions kept
    being those of the atelier that are individual, not deleted and dated
    in the month; and there is at most one row for each of them. *)
Theorem individuel_rows_of_month (tb : Rdv.tables) (atelier_id annee mois : Z)
    (rows : list Rdv.row) :
  (∀ s dt, s ∈ Rdv.t_sessions tb → Rdv.s_rdv_date s = Some dt → 1 ≤ day dt) →
  individuel_rows tb atelier_id annee mois = Some rows →
  1 ≤ annee ≤ 9999 ∧ 1 ≤ mois ≤ 12
  ∧ rdv_sessions tb atelier_id annee mois (mkdate annee mois 1)
    = order_by (rdv_leb (mkdate annee mois 1))
        (month_sessions tb atelier_id annee mois)
  ∧ (length rows ≤ length (month_sessions tb atelier_id annee mois))%nat
  ∧ ∀ r, r ∈ rows →
      ∃ j, Rdv.da r = fmt02 j +:+ "/" +:+ fmt02 mois +:+ "/" +:+ fmt04 annee.
Proof.
  intros Hvalid Hrows. unfold individuel_rows in Hrows.
  destruct (py_date annee mois 1) as [first_day|] eqn:Hdate; [|done].
  apply py_date_Some in Hdate as (-> & Hy & Hm & _).
  simpl in Hrows. injection Hrows as <-.
  pose proof (rdv_sessions_month tb atelier_id annee mois Hvalid) as Hsessions.
  split; [done|]. split; [done|]. split; [done|]. split.
  - etrans; [apply length_omap_le|].
    by rewrite Hsessions, length_order_by.
  - intros r (s & Hs & Hr)%list_elem_of_omap.
    destruct (first_presence tb (Rdv.s_id s)) as [[pr p]|]; [|done].
    injection Hr as <-. simpl.
    rewrite Hsessions in Hs.
    apply elem_of_order_by, list_elem_of_filter in Hs as [Hs _].
    apply Is_true_true, andb_true_iff in Hs as [_ Hs].
    destruct (in_month_date _ _ _ Hs) as (dt & -> & <- & <-).
    by exists (day dt).
Qed.

Lemma individuel_rows_of_month_witness :
  individuel_rows sample_rdv 5 2024 3
  = Some [Rdv.mk_row "MARTIN Xavier" "" "14/07/1980" "H" "H" "21/03/2024"
            "14:00 - 14:30" "CV / lettre" "Creil" None]
  ∧ individuel_rows sample_rdv 5 2024 13 = None
  ∧ Rdv.s_id <$> month_sessions sample_rdv 5 2024 3 = [30; 31]
  ∧ (1 ≤ length (month_sessions sample_rdv 5 2024 3))%nat.
Proof.
  split; [vm_compute; reflexivity|]. split; [vm_compute; reflexivity|].
  split; [vm_compute; reflexivity|].
  edestruct (individuel_rows_of_month sample_rdv 5 2024 3)
    as (_ & _ & _ & Hlen & _).
  - intros s dt Hs Hdt.
    assert (Hall : Forall (λ s, ∀ dt, Rdv.s_rdv_date s = Some dt → 1 ≤ day dt)
                     (Rdv.t_sessions sample_rdv)).
    { repeat constructor; intros ? [= <-]; simpl; lia. }
    eapply Forall_forall in Hall; [|exact Hs]. by apply Hall.
  - vm_compute. reflexivity.
  - exact Hlen.
Defined.
